(** * MediVault: encrypted record storage and consent gate

    A shallow embedding of the storage and access-control core of the
    MediVault web application:

    - [src/lib/crypto.ts]            application-record cipher
    - [src/lib/firebase/firestore.ts] metadata store operations
    - [src/lib/actions.ts]           server actions guarding doctor access
    - [src/lib/pinata.ts]            content-addressed retrieval with fallback
    - [src/lib/contract.ts]          file registration on the ledger
    - [src/app/api/upload/route.ts]  local upload endpoint
    - [HealthRecordForm.tsx], [PinataFileViewer.tsx]  record creation and
      attachment reading.

    Asynchronous functions are embedded as pure functions: a promise that
    rejects is a [Throw] and the stores are passed explicitly.  What the
    code calls but does not implement is taken as given: the runtime (Web
    Crypto, the base64 and text codecs, JSON, Date) as the [Platform]
    class, the network as a function from URLs to exchanges, the file
    system as its answers to [mkdir] and [writeFile], the registry
    contract and the pinning service as records of their answers.
    Strings are held as the bytes of their UTF-8 form. *)

From Stdlib Require Import ZArith String Ascii List Floats.
From Stdlib.Strings Require Import Byte.
From Stdlib Require Import DecimalString DecimalPos DecimalZ.
From stdpp Require Import base option list gmap strings pretty sorting countable.

#[local] Set Warnings "-register-all".
#[local] Open Scope Z_scope.

(** ** Results of fallible code *)

(** A JavaScript computation either returns a value or throws an [Error]
    carrying a message. *)
Inductive Result (A : Type) : Type :=
  | Ok (a : A)
  | Throw (message : string).
Arguments Ok {A} a.
Arguments Throw {A} message.

#[global] Instance Result_ret : MRet Result := fun A a => Ok a.
#[global] Instance Result_bind : MBind Result := fun A B f r =>
  match r with
  | Ok a => f a
  | Throw m => Throw m
  end.
#[global] Instance Result_fmap : FMap Result := fun A B f r =>
  match r with
  | Ok a => Ok (f a)
  | Throw m => Throw m
  end.

(** [try { body } catch { handler }]. *)
Definition try_catch {A} (body : Result A) (handler : string -> Result A) : Result A :=
  match body with
  | Ok a => Ok a
  | Throw m => handler m
  end.

(** Sequencing a list of fallible steps, stopping at the first throw. *)
Fixpoint mapM_Result {A B} (f : A -> Result B) (l : list A) : Result (list B) :=
  match l with
  | [] => Ok []
  | x :: l' =>
      match f x with
      | Ok y =>
          match mapM_Result f l' with
          | Ok ys => Ok (y :: ys)
          | Throw m => Throw m
          end
      | Throw m => Throw m
      end
  end.

(** ** JavaScript values *)

Definition bytes : Type := list byte.

(** The values that flow through [JSON.stringify] and [JSON.parse].
    Numbers are IEEE 754 doubles; the property list of an object is kept in
    the engine's enumeration order. *)
Inductive jsval : Type :=
  | VUndefined
  | VNull
  | VBool (b : bool)
  | VNum (x : float)
  | VStr (s : string)
  | VArr (elems : list jsval)
  | VObj (props : list (string * jsval)).

(** [v === undefined || v === null]. *)
Definition nullish (v : jsval) : bool :=
  match v with
  | VUndefined | VNull => true
  | _ => false
  end.

(** [a ?? b]. *)
Definition nullish_coalesce (a b : jsval) : jsval :=
  if nullish a then b else a.

(** Truthiness of a value in a condition. *)
Definition truthy (v : jsval) : bool :=
  match v with
  | VUndefined | VNull => false
  | VBool b => b
  | VNum x => negb (PrimFloat.is_zero x || PrimFloat.is_nan x)
  | VStr s => negb (String.eqb s "")
  | VArr _ | VObj _ => true
  end.

Fixpoint assoc_lookup {A} (k : string) (l : list (string * A)) : option A :=
  match l with
  | [] => None
  | (k', a) :: l' => if String.eqb k k' then Some a else assoc_lookup k l'
  end.

(** [{...l, k: a}]: an existing property keeps its position and takes the
    new value, a new property goes last. *)
Fixpoint assoc_set {A} (k : string) (a : A) (l : list (string * A)) : list (string * A) :=
  match l with
  | [] => [(k, a)]
  | (k', a') :: l' =>
      if String.eqb k k' then (k, a) :: l' else (k', a') :: assoc_set k a l'
  end.

(** [o.k] for the property names this program reads ([title], [content],
    ..., none of which is defined on a prototype): a missing property reads
    as [undefined], and reading from [null] or [undefined] throws. *)
Definition get_prop (o : jsval) (k : string) : Result jsval :=
  match o with
  | VUndefined => Throw ("Cannot read properties of undefined (reading '" +:+ k +:+ "')")
  | VNull => Throw ("Cannot read properties of null (reading '" +:+ k +:+ "')")
  | VObj props => Ok (default VUndefined (assoc_lookup k props))
  | _ => Ok VUndefined
  end.

(** Index keys ["0"], ["1"], ... paired with the elements of a list. *)
Fixpoint indexed_from {A} (i : nat) (l : list A) : list (string * A) :=
  match l with
  | [] => []
  | x :: l' => (pretty i, x) :: indexed_from (S i) l'
  end.

(** The UTF-16 code units of a string, which JavaScript indexes it by,
    each as the string that holds it.  With strings held as the bytes of
    their UTF-8 form, a character of one to three bytes is one unit, and
    a character of four bytes is two, the surrogates of its pair; a
    surrogate on its own is written in three bytes, the way UTF-8 writes
    the other units of that size. *)
Definition unit3 (u : N) : string :=
  String (ascii_of_N (224 + u / 4096))
    (String (ascii_of_N (128 + (u / 64) mod 64))
       (String (ascii_of_N (128 + u mod 64)) EmptyString)).

Definition surrogates (c1 c2 c3 c4 : ascii) : list string :=
  let point := ((N_of_ascii c1 mod 8) * 262144 + (N_of_ascii c2 mod 64) * 4096
                + (N_of_ascii c3 mod 64) * 64 + N_of_ascii c4 mod 64)%N in
  let offset := (point - 65536)%N in
  [unit3 (55296 + offset / 1024)%N; unit3 (56320 + offset mod 1024)%N].

Fixpoint code_units (s : string) : list string :=
  match s with
  | EmptyString => []
  | String c1 s1 =>
      if (N_of_ascii c1 <? 192)%N then String c1 EmptyString :: code_units s1
      else
        match s1 with
        | EmptyString => [s]
        | String c2 s2 =>
            if (N_of_ascii c1 <? 224)%N then
              String c1 (String c2 EmptyString) :: code_units s2
            else
              match s2 with
              | EmptyString => [s]
              | String c3 s3 =>
                  if (N_of_ascii c1 <? 240)%N then
                    String c1 (String c2 (String c3 EmptyString)) :: code_units s3
                  else
                    match s3 with
                    | EmptyString => [s]
                    | String c4 s4 => surrogates c1 c2 c3 c4 ++ code_units s4
                    end
              end
        end
  end.

(** The string of the given bytes. *)
Definition bytes_string (l : list nat) : string :=
  string_of_list_ascii (List.map ascii_of_nat l).

(** [s.substring(0, n)] and [s.slice(0, n)]. *)
Definition first_units (n : nat) (s : string) : string :=
  fold_right String.append EmptyString (firstn n (code_units s)).

(** The characters of a string, as a spread copies them. *)
Definition chars_of (s : string) : list jsval := VStr <$> code_units s.

(** The own enumerable properties copied by an object spread [{...v}]. *)
Definition own_props (v : jsval) : list (string * jsval) :=
  match v with
  | VObj props => props
  | VArr elems => indexed_from 0%nat elems
  | VStr s => indexed_from 0%nat (chars_of s)
  | _ => []
  end.

(** The values JSON represents exactly: no [undefined], finite numbers other
    than negative zero, and objects without repeated keys. *)
Definition json_number (x : float) : bool :=
  PrimFloat.is_finite x && negb (PrimFloat.is_zero x && PrimFloat.get_sign x).

Fixpoint is_json (v : jsval) : Prop :=
  match v with
  | VUndefined => False
  | VNull | VBool _ | VStr _ => True
  | VNum x => json_number x = true
  | VArr elems => fold_right (fun e acc => is_json e /\ acc) True elems
  | VObj props =>
      NoDup (map fst props) /\
      fold_right (fun p acc => is_json (snd p) /\ acc) True props
  end.

(** ** Platform services *)

(** What the runtime provides: Web Crypto's AES-GCM and SHA-256, the two
    base64 codecs ([Buffer] on the server, [btoa]/[atob] in the browser),
    [TextEncoder]/[TextDecoder], [JSON] and [Date]; [webcrypto_available]
    tells whether the browser exposes [window.crypto.subtle].  A key is represented
    by its raw bytes and a [Date] by its time value in milliseconds;
    [Date_construct v] is the time value of [new Date(v)] when that date
    is valid.  [Timestamp_plain_toDate seconds nanoseconds] is what the
    store's SDK makes of [new Timestamp(seconds, nanoseconds).toDate()]
    for two values read from a stored map: the constructor may throw, and
    the date may be invalid. *)
Inductive DateObject : Type :=
  | ValidDate (time : Z)
  | InvalidDate.

Class Platform : Type := {
  subtle_encrypt : bytes -> bytes -> bytes -> bytes;
  subtle_decrypt : bytes -> bytes -> bytes -> Result bytes;
  subtle_digest_hex : bytes -> string;
  Buffer_toString_base64 : bytes -> string;
  Buffer_from_base64 : string -> bytes;
  btoa : bytes -> string;
  atob : string -> Result bytes;
  TextEncoder_encode : string -> bytes;
  TextDecoder_decode : bytes -> string;
  JSON_stringify : jsval -> option string;
  JSON_parse : string -> Result jsval;
  Date_construct : jsval -> option Z;
  Date_toISOString : Z -> string;
  Timestamp_plain_toDate : jsval -> jsval -> Result DateObject;
  webcrypto_available : bool;
}.

(** [process.env] as read by the server modules. *)
Record Env : Type := {
  ENCRYPTION_KEY : option string;
  PINATA_GATEWAY_SUBDOMAIN : option string;
}.

(** ** src/lib/crypto.ts *)

Record EncryptedBlob : Type := {
  blob_ciphertext : string;
  blob_iv : string;
  blob_alg : string;
  blob_v : Z;
}.

Definition ALGORITHM : string := "aes-256-gcm".
Definition VERSION : Z := 1.

Section Crypto.
Context {P : Platform}.

Definition base64ToArrayBuffer (b64 : string) : bytes := Buffer_from_base64 b64.

Definition arrayBufferToBase64 (ab : bytes) : string := Buffer_toString_base64 ab.

Definition getCryptoKey (env : Env) : Result bytes :=
  match ENCRYPTION_KEY env with
  | None => Throw "ENCRYPTION_KEY env var is required (base64-encoded 32 bytes)."
  | Some keyB64 =>
      if String.eqb keyB64 "" then
        Throw "ENCRYPTION_KEY env var is required (base64-encoded 32 bytes)."
      else
        let raw := Buffer_from_base64 keyB64 in
        if negb (Nat.eqb (length raw) 32) then
          Throw "ENCRYPTION_KEY must decode to 32 bytes for AES-256-GCM."
        else Ok raw
  end.

(** [iv] is the value of [crypto.getRandomValues(new Uint8Array(12))].
    [TextEncoder.encode] of [undefined] encodes the empty string. *)
Definition encryptObject (env : Env) (iv : bytes) (data : jsval) : Result EncryptedBlob :=
  key ← getCryptoKey env;
  let plaintext := TextEncoder_encode (default "" (JSON_stringify data)) in
  let ciphertext := subtle_encrypt key iv plaintext in
  Ok {| blob_ciphertext := arrayBufferToBase64 ciphertext;
        blob_iv := arrayBufferToBase64 iv;
        blob_alg := ALGORITHM;
        blob_v := VERSION |}.

(** [None] is a missing blob (or a stored value without an [alg] tag). *)
Definition decryptObject (env : Env) (blob : option EncryptedBlob) : Result jsval :=
  match blob with
  | None => Throw "Unsupported or missing encryption algorithm."
  | Some blob =>
      if negb (String.eqb (blob_alg blob) ALGORITHM) then
        Throw "Unsupported or missing encryption algorithm."
      else
        key ← getCryptoKey env;
        let iv := base64ToArrayBuffer (blob_iv blob) in
        let ciphertext := base64ToArrayBuffer (blob_ciphertext blob) in
        plaintext ← subtle_decrypt key iv ciphertext;
        JSON_parse (TextDecoder_decode plaintext)
  end.

End Crypto.

(** ** src/lib/types.ts and the metadata store *)

Inductive Role : Type := role_patient | role_doctor.

(** A user document, with the fields the operations below read or write
    (the profile fields [createdAt], [weight], [height], [bloodGroup] and
    [bmi] are not among them).  The connection fields are optional
    arrays. *)
Record UserDocument : Type := {
  uid : string;
  email : string;
  role : Role;
  pendingConnections : option (list string);
  successfulConnections : option (list string);
}.

(** A stored field: a Firestore [Timestamp] (or its plain form, a map
    whose [seconds] and [nanoseconds] are integers), the stored form of
    an [EncryptedBlob], or any other value.  A [Timestamp] that the store
    holds is within the range its constructor accepts, so a pair out of
    that range is a plain map. *)
Inductive FieldValue : Type :=
  | FTimestamp (seconds nanoseconds : Z)
  | FEncrypted (blob : EncryptedBlob)
  | FPlain (v : jsval).

(** A document of the [healthRecords] collection, by field name. *)
Abbreviation Doc := (gmap string FieldValue).

(** The record type handed to callers.  [date] and [createdAt] are ISO
    strings; the sensitive fields hold whatever the decrypted payload
    holds. *)
Record HealthRecord : Type := {
  rec_id : string;
  rec_userId : option FieldValue;
  rec_type : option FieldValue;
  rec_title : jsval;
  rec_content : jsval;
  rec_date : string;
  rec_createdAt : string;
  rec_bloodPressure : jsval;
  rec_pulseRate : jsval;
  rec_diagnosis : jsval;
  rec_attachmentUrl : jsval;
  rec_attachmentCid : jsval;
  rec_attachmentEncryptionKey : jsval;
  rec_attachmentEncryptionIv : jsval;
}.

(** The two stores, and the ledger as far as an access query sees it. *)
Record World : Type := {
  users : gmap string UserDocument;
  healthRecords : gmap string Doc;
  ledger_hasAccess : Z -> string -> bool;
}.

Definition set_users (w : World) (u : gmap string UserDocument) : World :=
  {| users := u; healthRecords := healthRecords w;
     ledger_hasAccess := ledger_hasAccess w |}.

Definition set_healthRecords (w : World) (r : gmap string Doc) : World :=
  {| users := users w; healthRecords := r;
     ledger_hasAccess := ledger_hasAccess w |}.

Definition set_ledger (w : World) (l : Z -> string -> bool) : World :=
  {| users := users w; healthRecords := healthRecords w;
     ledger_hasAccess := l |}.

(** A line written with [console.error]: the text, the record id when one
    is given, and the error's message. *)
Record LogEntry : Type := {
  log_text : string;
  log_subject : option string;
  log_error : string;
}.

(** The [{ success, error }] objects returned by the server actions. *)
Record ActionResult : Type := {
  success : bool;
  error : option string;
}.

Definition succeeded : ActionResult := {| success := true; error := None |}.
Definition failed (msg : string) : ActionResult :=
  {| success := false; error := Some msg |}.

(** [arr?.includes(x)], with [undefined] read as false. *)
Definition includes (arr : option (list string)) (x : string) : bool :=
  match arr with
  | None => false
  | Some l => bool_decide (x ∈ l)
  end.

(** [arrayUnion(x)] and [arrayRemove(x)] applied to an array field. *)
Definition arrayUnion (x : string) (arr : option (list string)) : option (list string) :=
  match arr with
  | None => Some [x]
  | Some l => if bool_decide (x ∈ l) then Some l else Some (l ++ [x])
  end.

Definition arrayRemove (x : string) (arr : option (list string)) : option (list string) :=
  match arr with
  | None => Some []
  | Some l => Some (filter (fun y => y <> x) l)
  end.

Definition with_pending (f : option (list string) -> option (list string))
    (u : UserDocument) : UserDocument :=
  {| uid := uid u; email := email u; role := role u;
     pendingConnections := f (pendingConnections u);
     successfulConnections := successfulConnections u |}.

Definition with_successful (f : option (list string) -> option (list string))
    (u : UserDocument) : UserDocument :=
  {| uid := uid u; email := email u; role := role u;
     pendingConnections := pendingConnections u;
     successfulConnections := f (successfulConnections u) |}.

(** [updateDoc] on a user document: rejects when the document is missing. *)
Definition updateDoc_user (w : World) (userId : string)
    (f : UserDocument -> UserDocument) : Result World :=
  match users w !! userId with
  | None => Throw "No document to update"
  | Some u => Ok (set_users w (<[userId := f u]> (users w)))
  end.

(** An integer below 2^53 as a double, and a double cut to an integer. *)
Definition float_of_Z (z : Z) : float :=
  if z <? 0 then PrimFloat.opp (PrimFloat.of_uint63 (Uint63.of_Z (- z)))
  else PrimFloat.of_uint63 (Uint63.of_Z z).

Definition Z_of_float (x : float) : Z :=
  match Prim2SF x with
  | S754_finite sign m e =>
      let magnitude := if 0 <=? e then Z.pos m * 2 ^ e else Z.pos m / 2 ^ (- e) in
      if sign then - magnitude else magnitude
  | _ => 0
  end.

(** [Timestamp.toDate()], on time values, for a timestamp within range:
    [new Date(seconds * 1000 + nanoseconds / 1e6)], the sum taken in
    doubles and cut to a whole number of milliseconds.  For a whole
    number of milliseconds the sum is exact, and is taken in integers. *)
Definition Timestamp_toDate (seconds nanoseconds : Z) : Z :=
  if nanoseconds mod 1000000 =? 0 then seconds * 1000 + nanoseconds / 1000000
  else
    Z_of_float (PrimFloat.add (PrimFloat.mul (float_of_Z seconds) 1000%float)
                  (PrimFloat.div (float_of_Z nanoseconds) 1000000%float)).

(** [new Timestamp(seconds, nanoseconds)]: the constructor accepts the
    years 0001 to 9999 and throws for anything else. *)
Definition MIN_SECONDS : Z := -62135596800.

Definition Timestamp_new (seconds nanoseconds : Z) : Result FieldValue :=
  if nanoseconds <? 0 then
    Throw ("Timestamp nanoseconds out of range: " +:+ pretty nanoseconds)
  else if 1000000000 <=? nanoseconds then
    Throw ("Timestamp nanoseconds out of range: " +:+ pretty nanoseconds)
  else if seconds <? MIN_SECONDS then
    Throw ("Timestamp seconds out of range: " +:+ pretty seconds)
  else if 253402300800 <=? seconds then
    Throw ("Timestamp seconds out of range: " +:+ pretty seconds)
  else Ok (FTimestamp seconds nanoseconds).

(** [Timestamp.fromDate(date)], which is [Timestamp.fromMillis] of the
    time value: whole seconds, the rest in nanoseconds, and the
    constructor. *)
Definition Timestamp_fromDate (ms : Z) : Result FieldValue :=
  Timestamp_new (ms / 1000) ((ms mod 1000) * 1000000).

(** The timestamp of a time value, which [Timestamp.fromDate] returns
    when it returns. *)
Definition Timestamp_of (ms : Z) : FieldValue :=
  FTimestamp (ms / 1000) ((ms mod 1000) * 1000000).

(** [serverTimestamp()]: the store puts the timestamp of its own clock
    reading in the field (a reading that a timestamp can hold). *)
Definition serverTimestamp (now : Z) : FieldValue := Timestamp_of now.

(** A time value that a [Timestamp] can hold: one of the years 0001 to
    9999. *)
Definition Timestamp_range (ms : Z) : Prop :=
  MIN_SECONDS <= ms / 1000 < 253402300800.

(** [date.toISOString()], which throws for an invalid date. *)
Definition toISOString {P : Platform} (date : DateObject) : Result string :=
  match date with
  | ValidDate time => Ok (Date_toISOString time)
  | InvalidDate => Throw "Invalid time value"
  end.

(** [o.k] for a stored field [o] that is truthy. *)
Definition field_prop (o : option FieldValue) (k : string) : jsval :=
  match o with
  | Some (FPlain (VObj props)) => default VUndefined (assoc_lookup k props)
  | _ => VUndefined
  end.

Definition field_truthy (f : option FieldValue) : bool :=
  match f with
  | None => false
  | Some (FPlain v) => truthy v
  | Some _ => true
  end.

(** [f === s] for a string [s]. *)
Definition field_is_string (f : option FieldValue) (s : string) : bool :=
  match f with
  | Some (FPlain (VStr s')) => String.eqb s' s
  | _ => false
  end.

(** A stored value read [as EncryptedBlob]; only a stored blob carries an
    [alg] tag. *)
Definition as_EncryptedBlob (f : option FieldValue) : option EncryptedBlob :=
  match f with
  | Some (FEncrypted b) => Some b
  | _ => None
  end.

(** [Array.prototype.sort(cmp)]: the sort is stable, an element goes before
    the first later element it does not compare greater than. *)
Fixpoint sort_insert {A} (cmp : A -> A -> Z) (x : A) (l : list A) : list A :=
  match l with
  | [] => [x]
  | y :: l' => if cmp x y <=? 0 then x :: y :: l' else y :: sort_insert cmp x l'
  end.

Definition Array_sort {A} (cmp : A -> A -> Z) (l : list A) : list A :=
  fold_right (sort_insert cmp) [] l.

(** ** src/lib/firebase/firestore.ts

    The store answers every request; [now] is the clock reading used for
    [new Date()] and for the server timestamp. *)
Module firestore.
Section Store.
Context {P : Platform}.

(** [getDate] inside [convertRecordTimestamps], on a value other than a
    [Timestamp]: an object with [seconds] and [nanoseconds] goes through
    the constructor, anything else through [new Date]. *)
Definition getDate_value (timestamp : jsval) : Result (option DateObject) :=
  if negb (truthy timestamp) then Ok None
  else
    match timestamp with
    | VObj props =>
        match assoc_lookup "seconds" props, assoc_lookup "nanoseconds" props with
        | Some seconds, Some nanoseconds =>
            date ← Timestamp_plain_toDate seconds nanoseconds; Ok (Some date)
        | _, _ => Ok (ValidDate <$> Date_construct timestamp)
        end
    | _ => Ok (ValidDate <$> Date_construct timestamp)
    end.

(** [getDate] on a stored field.  The range check is the constructor's,
    which the plain form of a timestamp goes through.  A stored blob is
    an object that is no date. *)
Definition getDate (timestamp : option FieldValue) : Result (option DateObject) :=
  match timestamp with
  | None => Ok None
  | Some (FTimestamp seconds nanoseconds) =>
      _ ← Timestamp_new seconds nanoseconds;
      Ok (Some (ValidDate (Timestamp_toDate seconds nanoseconds)))
  | Some (FEncrypted _) => Ok None
  | Some (FPlain v) => getDate_value v
  end.

(** [date ? date.toISOString() : new Date().toISOString()]. *)
Definition isoOrNow (now : Z) (date : option DateObject) : Result string :=
  match date with
  | Some date => toISOString date
  | None => Ok (Date_toISOString now)
  end.

(** The fields of the converted data that the callers read. *)
Record RecordMeta : Type := {
  meta_userId : option FieldValue;
  meta_type : option FieldValue;
  meta_date : string;
  meta_createdAt : string;
}.

(** The two dates are read first, then the [createdAt] of a plaintext
    [diagnosis] field if the document has one, and then the dates are
    printed; each step can throw.  No caller reads the converted
    [diagnosis]. *)
Definition convertRecordTimestamps (now : Z) (data : Doc) : Result RecordMeta :=
  date ← getDate (data !! "date");
  createdAt ← getDate (data !! "createdAt");
  _ ← (if field_truthy (data !! "diagnosis") then
         diagnosisCreatedAt ← getDate_value (field_prop (data !! "diagnosis") "createdAt");
         isoOrNow now diagnosisCreatedAt
       else Ok ""%string);
  dateISO ← isoOrNow now date;
  createdAtISO ← isoOrNow now createdAt;
  Ok {| meta_userId := data !! "userId";
        meta_type := data !! "type";
        meta_date := dateISO;
        meta_createdAt := createdAtISO |}.

Definition getUserDocument (w : World) (userId : string) : option UserDocument :=
  users w !! userId.

(** The data handed to [addHealthRecord]; a field the caller leaves out is
    [VUndefined]. *)
Record RecordData : Type := {
  data_type : jsval;
  data_date : Z;
  data_title : jsval;
  data_content : jsval;
  data_bloodPressure : jsval;
  data_pulseRate : jsval;
  data_diagnosis : jsval;
  data_attachmentUrl : jsval;
  data_attachmentCid : jsval;
  data_attachmentEncryptionKey : jsval;
  data_attachmentEncryptionIv : jsval;
}.

Definition sensitivePayload (recordData : RecordData) : jsval :=
  VObj [ ("title", data_title recordData);
         ("content", data_content recordData);
         ("bloodPressure", data_bloodPressure recordData);
         ("pulseRate", data_pulseRate recordData);
         ("diagnosis", data_diagnosis recordData);
         ("attachmentUrl", data_attachmentUrl recordData);
         ("attachmentCid", data_attachmentCid recordData);
         ("attachmentEncryptionKey", data_attachmentEncryptionKey recordData);
         ("attachmentEncryptionIv", data_attachmentEncryptionIv recordData) ].

(** The object literal [addHealthRecord] hands to [addDoc]. *)
Definition recordDoc (userId : string) (type : jsval) (date createdAt : FieldValue)
    (encryptedData : EncryptedBlob) : Doc :=
  <["userId" := FPlain (VStr userId)]>
  (<["type" := FPlain type]>
  (<["date" := date]>
  (<["createdAt" := createdAt]>
  (<["encryptedData" := FEncrypted encryptedData]> ∅)))).

(** The document stored for a record: the literal with the timestamp of
    the record's date and the server's. *)
Definition newRecordDoc (now : Z) (userId : string) (recordData : RecordData)
    (encryptedData : EncryptedBlob) : Doc :=
  recordDoc userId (data_type recordData) (Timestamp_of (data_date recordData))
    (serverTimestamp now) encryptedData.

Definition undefined_field (f : FieldValue) : bool :=
  match f with
  | FPlain VUndefined => true
  | _ => false
  end.

(** [addDoc]: the store rejects a field whose value is [undefined], and
    files the document under the id it generates, [newId]. *)
Definition addDoc (w : World) (newId : string) (data : Doc) : Result World :=
  if bool_decide (map_Exists (fun _ f => undefined_field f = true) data) then
    Throw "Unsupported field value: undefined"
  else Ok (set_healthRecords w (<[newId := data]> (healthRecords w))).

Definition addHealthRecord (w : World) (env : Env) (iv : bytes) (now : Z)
    (newId userId : string) (recordData : RecordData) : Result (string * World) :=
  try_catch
    (encryptedData ← encryptObject env iv (sensitivePayload recordData);
     date ← Timestamp_fromDate (data_date recordData);
     w' ← addDoc w newId
            (recordDoc userId (data_type recordData) date (serverTimestamp now)
               encryptedData);
     Ok (newId, w'))
    (fun _ => Throw "Failed to add health record.").

(** The inner [try]/[catch] of both readers: the payload, and what was
    logged on the way. *)
Definition decryptedPayload (env : Env) (recordId : string) (data : Doc)
    : list LogEntry * jsval :=
  if field_truthy (data !! "encryptedData") then
    match decryptObject env (as_EncryptedBlob (data !! "encryptedData")) with
    | Ok decrypted => ([], decrypted)
    | Throw e =>
        ([ {| log_text := "Decryption failed for record";
              log_subject := Some recordId;
              log_error := e |} ], VObj [])
    end
  else ([], VObj []).

(** The record literal both readers build from the metadata and the
    payload. *)
Definition buildRecord (recordId : string) (meta : RecordMeta) (decrypted : jsval)
    : Result HealthRecord :=
  title ← get_prop decrypted "title";
  content ← get_prop decrypted "content";
  bloodPressure ← get_prop decrypted "bloodPressure";
  pulseRate ← get_prop decrypted "pulseRate";
  diagnosis ← get_prop decrypted "diagnosis";
  attachmentUrl ← get_prop decrypted "attachmentUrl";
  attachmentCid ← get_prop decrypted "attachmentCid";
  attachmentEncryptionKey ← get_prop decrypted "attachmentEncryptionKey";
  attachmentEncryptionIv ← get_prop decrypted "attachmentEncryptionIv";
  Ok {| rec_id := recordId;
        rec_userId := meta_userId meta;
        rec_type := meta_type meta;
        rec_title := nullish_coalesce title (VStr "");
        rec_content := nullish_coalesce content (VStr "");
        rec_date := meta_date meta;
        rec_createdAt := meta_createdAt meta;
        rec_bloodPressure := bloodPressure;
        rec_pulseRate := pulseRate;
        rec_diagnosis := diagnosis;
        rec_attachmentUrl := attachmentUrl;
        rec_attachmentCid := attachmentCid;
        rec_attachmentEncryptionKey := attachmentEncryptionKey;
        rec_attachmentEncryptionIv := attachmentEncryptionIv |}.

(** The conversion comes before the inner [try]: when it throws, nothing
    has been decrypted or logged. *)
Definition readRecord (env : Env) (now : Z) (recordId : string) (data : Doc)
    : list LogEntry * Result HealthRecord :=
  match convertRecordTimestamps now data with
  | Throw e => ([], Throw e)
  | Ok meta =>
      let (logs, decrypted) := decryptedPayload env recordId data in
      (logs, buildRecord recordId meta decrypted)
  end.

Definition getHealthRecord (w : World) (env : Env) (now : Z) (recordId : string)
    : list LogEntry * Result (option HealthRecord) :=
  match healthRecords w !! recordId with
  | None => ([], Ok None)
  | Some data =>
      match readRecord env now recordId data with
      | (logs, Ok result) => (logs, Ok (Some result))
      | (logs, Throw e) =>
          (logs ++ [ {| log_text := "Error getting health record: ";
                        log_subject := None; log_error := e |} ],
           Throw "Failed to fetch health record.")
      end
  end.

(** [new Date(b.date).getTime() - new Date(a.date).getTime()]; a [NaN]
    result counts as zero in a sort. *)
Definition byDateDescending (a b : HealthRecord) : Z :=
  match Date_construct (VStr (rec_date b)), Date_construct (VStr (rec_date a)) with
  | Some tb, Some ta => tb - ta
  | _, _ => 0
  end.

(** The documents matched by [where('userId', '==', userId)]. *)
Definition queryByUserId (w : World) (userId : string) : list (string * Doc) :=
  filter (fun d => field_is_string (d.2 !! "userId") userId = true)
         (map_to_list (healthRecords w)).

Definition getHealthRecords (w : World) (env : Env) (now : Z) (userId : string)
    : list LogEntry * Result (list HealthRecord) :=
  let docs := queryByUserId w userId in
  let outcomes := (fun d => readRecord env now d.1 d.2) <$> docs in
  let logs := concat (fst <$> outcomes) in
  match mapM_Result snd outcomes with
  | Ok records => (logs, Ok (Array_sort byDateDescending records))
  | Throw e =>
      (logs ++ [ {| log_text := "Error getting health records: ";
                    log_subject := None; log_error := e |} ],
       Throw "Failed to fetch health records.")
  end.

Definition createConnectionRequest (w : World) (doctorId patientId : string)
    : World * ActionResult :=
  match getUserDocument w doctorId, getUserDocument w patientId with
  | Some doctorDoc, Some patientDoc =>
      if includes (successfulConnections doctorDoc) patientId then
        (w, failed "You are already connected with this patient.")
      else if includes (pendingConnections doctorDoc) patientId then
        (w, failed "A connection request has already been sent.")
      else
        match updateDoc_user w doctorId (with_pending (arrayUnion patientId)) with
        | Throw _ => (w, failed "Failed to send connection request.")
        | Ok w1 =>
            match updateDoc_user w1 patientId (with_pending (arrayUnion doctorId)) with
            | Throw _ => (w1, failed "Failed to send connection request.")
            | Ok w2 => (w2, succeeded)
            end
        end
  | _, _ => (w, failed "Doctor or patient not found.")
  end.

Inductive Status : Type := approved | denied.

(** Each [updateDoc] that went through stays in effect when a later one
    rejects. *)
Definition updateConnectionRequest (w : World) (patientId doctorId : string)
    (status : Status) : World * ActionResult :=
  let fail w' := (w', failed "Failed to update connection request.") in
  match updateDoc_user w patientId (with_pending (arrayRemove doctorId)) with
  | Throw _ => fail w
  | Ok w1 =>
      match updateDoc_user w1 doctorId (with_pending (arrayRemove patientId)) with
      | Throw _ => fail w1
      | Ok w2 =>
          match status with
          | denied => (w2, succeeded)
          | approved =>
              match updateDoc_user w2 patientId (with_successful (arrayUnion doctorId)) with
              | Throw _ => fail w2
              | Ok w3 =>
                  match updateDoc_user w3 doctorId (with_successful (arrayUnion patientId)) with
                  | Throw _ => fail w3
                  | Ok w4 => (w4, succeeded)
                  end
              end
          end
      end
  end.

(** [{ ...decrypted, diagnosis: { ...diagnosis, createdAt } }]. *)
Definition updatedPayload (now : Z) (decrypted diagnosis : jsval) : jsval :=
  VObj (assoc_set "diagnosis"
          (VObj (assoc_set "createdAt" (VStr (Date_toISOString now)) (own_props diagnosis)))
          (own_props decrypted)).

Definition addDiagnosisToRecord (w : World) (env : Env) (iv : bytes) (now : Z)
    (recordId : string) (diagnosis : jsval) : World * ActionResult :=
  match healthRecords w !! recordId with
  | None => (w, failed "Record not found.")
  | Some data =>
      let encrypted :=
        decrypted ← (if field_truthy (data !! "encryptedData")
                     then decryptObject env (as_EncryptedBlob (data !! "encryptedData"))
                     else Ok (VObj []));
        encryptObject env iv (updatedPayload now decrypted diagnosis) in
      match encrypted with
      | Ok encryptedData =>
          (set_healthRecords w
             (<[recordId := <["encryptedData" := FEncrypted encryptedData]> data]>
                (healthRecords w)),
           succeeded)
      | Throw _ => (w, failed "Failed to add diagnosis.")
      end
  end.

End Store.
End firestore.

(** ** src/lib/actions.ts

    [revalidatePath] only invalidates rendered pages and is left out. *)
Module actions.
Section Actions.
Context {P : Platform}.

(** [arr?.includes(record.userId)]: the arrays hold strings. *)
Definition includes_field (arr : option (list string)) (x : option FieldValue) : bool :=
  match x with
  | Some (FPlain (VStr s)) => includes arr s
  | _ => false
  end.

Definition getPatientRecordForDoctor (w : World) (env : Env) (now : Z)
    (doctorId recordId : string) : list LogEntry * Result HealthRecord :=
  match firestore.getHealthRecord w env now recordId with
  | (logs, Throw e) => (logs, Throw e)
  | (logs, Ok None) => (logs, Throw "Record not found.")
  | (logs, Ok (Some record)) =>
      match firestore.getUserDocument w doctorId with
      | None => (logs, Throw "You do not have permission to view this record.")
      | Some doctorDoc =>
          if negb (includes_field (successfulConnections doctorDoc) (rec_userId record))
          then (logs, Throw "You do not have permission to view this record.")
          else (logs, Ok record)
      end
  end.

(** [{ ...diagnosisData, doctorId: doctor.uid, doctorEmail: doctor.email }]. *)
Definition signedDiagnosis (doctor : UserDocument) (diagnosisData : jsval) : jsval :=
  VObj (assoc_set "doctorEmail" (VStr (email doctor))
          (assoc_set "doctorId" (VStr (uid doctor)) (own_props diagnosisData))).

Definition addDiagnosisToRecord (w : World) (env : Env) (iv : bytes) (now : Z)
    (doctorId recordId : string) (diagnosisData : jsval)
    : list LogEntry * Result (World * ActionResult) :=
  match firestore.getHealthRecord w env now recordId with
  | (logs, Throw e) => (logs, Throw e)
  | (logs, Ok None) => (logs, Ok (w, failed "Record not found."))
  | (logs, Ok (Some record)) =>
      match firestore.getUserDocument w doctorId with
      | None => (logs, Ok (w, failed "Doctor not found."))
      | Some doctor =>
          if negb (includes_field (successfulConnections doctor) (rec_userId record))
          then (logs, Ok (w, failed "You are not connected with this patient."))
          else
            (logs, Ok (firestore.addDiagnosisToRecord w env iv now recordId
                         (signedDiagnosis doctor diagnosisData)))
      end
  end.

Definition getPatientRecordsForDoctor (w : World) (env : Env) (now : Z)
    (doctorId patientId : string) : list LogEntry * Result (list HealthRecord) :=
  if String.eqb doctorId "" then
    ([], Throw "Authentication error. You must be logged in.")
  else
    match firestore.getUserDocument w doctorId with
    | None => ([], Throw "You do not have permission to view these records.")
    | Some doctorDoc =>
        if negb (includes (successfulConnections doctorDoc) patientId)
        then ([], Throw "You do not have permission to view these records.")
        else firestore.getHealthRecords w env now patientId
    end.

Definition requestPatientConnection (w : World) (doctorId patientId : string)
    : World * ActionResult :=
  firestore.createConnectionRequest w doctorId patientId.

End Actions.
End actions.

(** ** The network *)

(** An HTTP response: status line and the outcome of reading the body. *)
Record Response : Type := {
  res_status : Z;
  res_statusText : string;
  res_body : Result bytes;
}.

Inductive Reply : Type :=
  | NetworkError (message : string)
  | Responded (res : Response).

(** What a GET to a URL leads to, and after how many milliseconds. *)
Record Exchange : Type := {
  latency : Z;
  reply : Reply;
}.

Abbreviation Network := (string -> Exchange).

(** One request as issued: the URL and the delay after which its
    [AbortController] fires. *)
Record Attempt : Type := {
  attempt_url : string;
  attempt_timeout : Z;
}.

(** [fetch(url, { signal })] with [setTimeout(() => controller.abort(), timeout)]. *)
Definition fetch_with_abort (net : Network) (url : string) (timeout : Z) : Result Response :=
  let x := net url in
  if timeout <=? latency x then Throw "This operation was aborted"
  else
    match reply x with
    | NetworkError m => Throw m
    | Responded res => Ok res
    end.

(** [res.ok]. *)
Definition res_ok (res : Response) : bool :=
  (200 <=? res_status res) && (res_status res <=? 299).

(** [s.trim()].  A string is held as the bytes of its UTF-8 form, so the
    white space and line terminator characters that [trim] removes are
    recognised by their encodings: U+0009 to U+000D and U+0020 in one
    byte, U+00A0 in two, and U+1680, U+2000 to U+200A, U+2028, U+2029,
    U+202F, U+205F, U+3000 and U+FEFF in three. *)
Definition is_space1 (c : ascii) : bool :=
  let n := nat_of_ascii c in
  (Nat.eqb n 32 || (Nat.leb 9 n && Nat.leb n 13))%bool.

Definition is_space2 (c1 c2 : ascii) : bool :=
  (Nat.eqb (nat_of_ascii c1) 194 && Nat.eqb (nat_of_ascii c2) 160)%bool.

Definition is_space3 (c1 c2 c3 : ascii) : bool :=
  let n1 := nat_of_ascii c1 in
  let n2 := nat_of_ascii c2 in
  let n3 := nat_of_ascii c3 in
  ((Nat.eqb n1 225 && Nat.eqb n2 154 && Nat.eqb n3 128)
   || (Nat.eqb n1 226 && Nat.eqb n2 128
       && ((Nat.leb 128 n3 && Nat.leb n3 138) || Nat.eqb n3 168 || Nat.eqb n3 169
           || Nat.eqb n3 175))
   || (Nat.eqb n1 226 && Nat.eqb n2 129 && Nat.eqb n3 159)
   || (Nat.eqb n1 227 && Nat.eqb n2 128 && Nat.eqb n3 128)
   || (Nat.eqb n1 239 && Nat.eqb n2 187 && Nat.eqb n3 191))%bool.

Fixpoint trim_start (s : string) : string :=
  match s with
  | EmptyString => EmptyString
  | String c1 s1 =>
      if is_space1 c1 then trim_start s1
      else
        match s1 with
        | EmptyString => s
        | String c2 s2 =>
            if is_space2 c1 c2 then trim_start s2
            else
              match s2 with
              | EmptyString => s
              | String c3 s3 => if is_space3 c1 c2 c3 then trim_start s3 else s
              end
        end
  end.

(** From the first position after which only white space follows, the
    rest is dropped. *)
Fixpoint trim_end (s : string) : string :=
  match s with
  | EmptyString => EmptyString
  | String c s' =>
      if String.eqb (trim_start s) "" then EmptyString else String c (trim_end s')
  end.

Definition trim (s : string) : string := trim_end (trim_start s).

(** The no-break space U+00A0 and the byte order mark U+FEFF. *)
Definition NBSP : string := bytes_string [194; 160]%nat.
Definition BOM : string := bytes_string [239; 187; 191]%nat.

(** [a || b] on strings. *)
Definition or_else (a b : string) : string :=
  if String.eqb a "" then b else a.

(** ** src/lib/pinata.ts *)
Module pinata.
Section Retrieval.
Context {P : Platform}.

Definition DEFAULT_GATEWAY : string := "https://gateway.pinata.cloud/ipfs".

Definition getGatewayBase (env : Env) : string :=
  match trim <$> PINATA_GATEWAY_SUBDOMAIN env with
  | None => DEFAULT_GATEWAY
  | Some subdomain =>
      if String.eqb subdomain "" then DEFAULT_GATEWAY
      else "https://" +:+ subdomain +:+ ".mypinata.cloud/ipfs"
  end.

Definition gateways (env : Env) : list string :=
  [ getGatewayBase env;
    "https://ipfs.io/ipfs";
    "https://gateway.ipfs.io/ipfs";
    "https://dweb.link/ipfs" ].

(** The body of the [try] block for one gateway. *)
Definition fetchFromGateway (net : Network) (gatewayBase cid : string) : Result bytes :=
  let url := gatewayBase +:+ "/" +:+ cid in
  res ← fetch_with_abort net url 30000;
  if negb (res_ok res) then
    let text := match res_body res with
                | Ok b => TextDecoder_decode b
                | Throw _ => ""
                end in
    Throw ("Gateway " +:+ gatewayBase +:+ " returned " +:+ pretty (res_status res)
           +:+ ": " +:+ or_else text (res_statusText res))
  else
    arrayBuffer ← res_body res;
    if Nat.eqb (length arrayBuffer) 0 then Throw "Gateway returned empty response"
    else Ok arrayBuffer.

Definition allGatewaysFailed (lastError : option string) (cid : string) : string :=
  "Failed to fetch file from all IPFS gateways. Last error: "
  +:+ or_else (default "" lastError) "Unknown error" +:+ ". "
  +:+ "CID: " +:+ cid +:+ ". Please verify the file is pinned in Pinata.".

(** The [for] loop: the requests issued, in order, and the outcome. *)
Fixpoint tryGateways (net : Network) (cid : string) (remaining : list string)
    (lastError : option string) : list Attempt * Result bytes :=
  match remaining with
  | [] => ([], Throw (allGatewaysFailed lastError cid))
  | gatewayBase :: rest =>
      let attempt := {| attempt_url := gatewayBase +:+ "/" +:+ cid;
                        attempt_timeout := 30000 |} in
      match fetchFromGateway net gatewayBase cid with
      | Ok arrayBuffer => ([attempt], Ok arrayBuffer)
      | Throw err =>
          let (attempts, outcome) := tryGateways net cid rest (Some err) in
          (attempt :: attempts, outcome)
      end
  end.

Definition getEncryptedFile (net : Network) (env : Env) (cid : string)
    : list Attempt * Result bytes :=
  if String.eqb cid "" then ([], Throw "Invalid CID")
  else tryGateways net cid (gateways env) None.

Definition gatewayUrlForCid (env : Env) (cid : string) : string :=
  getGatewayBase env +:+ "/" +:+ cid.

End Retrieval.
End pinata.

(** ** src/lib/contract.ts *)
Module contract.

(** A decoded event argument. *)
Inductive ArgValue : Type :=
  | ABigInt (n : Z)
  | AAddress (a : string)
  | AString (s : string).

Definition arg_truthy (a : ArgValue) : bool :=
  match a with
  | ABigInt n => negb (n =? 0)
  | AAddress a => negb (String.eqb a "")
  | AString s => negb (String.eqb s "")
  end.

Record LogDescription : Type := {
  name : string;
  args : list ArgValue;
}.

(** [contract.interface.parseLog(log)] throws, returns [null], or decodes. *)
Inductive ParseOutcome : Type :=
  | ParseThrows (message : string)
  | ParseNull
  | Parsed (d : LogDescription).

Record ReceiptLog : Type := {
  topics : list string;
  data : string;
}.

Record Receipt : Type := {
  hash : string;
  logs : list ReceiptLog;
}.

Record TransactionResponse : Type := {
  wait : Result Receipt;
}.

(** The registry contract bound to a signer, as far as this call uses it. *)
Record Contract : Type := {
  createFile : string -> string -> string -> Z -> Result TransactionResponse;
  parseLog : ReceiptLog -> ParseOutcome;
  getTotalFiles : Result Z;
}.

Record Created : Type := {
  txHash : string;
  fileId : ArgValue;
}.

(** The predicate given to [receipt.logs.find]. *)
Definition isFileCreated (contract : Contract) (log : ReceiptLog) : bool :=
  match parseLog contract log with
  | Parsed parsed => String.eqb (name parsed) "FileCreated"
  | _ => false
  end.

(** [parsed?.args[0] || BigInt(0)]. *)
Definition firstArgOrZero (parsed : option LogDescription) : ArgValue :=
  match parsed with
  | Some d =>
      match args d with
      | a :: _ => if arg_truthy a then a else ABigInt 0
      | [] => ABigInt 0
      end
  | None => ABigInt 0
  end.

Definition createFileOnChain (getContractWithSigner : Result Contract)
    (cid hash_ mimeType : string) (size : Z) : Result Created :=
  contract ← getContractWithSigner;
  tx ← createFile contract cid hash_ mimeType size;
  receipt ← wait tx;
  let event := find (isFileCreated contract) (logs receipt) in
  fileId ← match event with
           | Some event =>
               match parseLog contract event with
               | ParseThrows m => Throw m
               | ParseNull => Ok (firstArgOrZero None)
               | Parsed parsed => Ok (firstArgOrZero (Some parsed))
               end
           | None =>
               totalFiles ← getTotalFiles contract;
               Ok (ABigInt totalFiles)
           end;
  Ok {| txHash := hash receipt; fileId := fileId |}.

End contract.

(** ** Files and observable effects *)

(** A [File] picked in the browser; its [size] is the length of its bytes. *)
Record File : Type := {
  file_name : string;
  file_type : string;
  file_bytes : bytes;
}.

(** What [fs.promises.writeFile] does: it writes the file, or it throws,
    having created nothing or a file with part of the content. *)
Inductive WriteOutcome : Type :=
  | Written
  | WriteFails (remains : option bytes).

(** The directory [public/uploads]: for each user directory, the files in
    it; and what the file system answers to a [mkdir] of a user
    directory and to a [writeFile] of a name in it (a name too long, a
    full disk, missing permissions).  Firebase user ids are single path
    segments, so [path.join(process.cwd(), 'public', 'uploads', userId)]
    is the directory named [userId]. *)
Record Disk : Type := {
  dirs : gmap string (gmap string bytes);
  mkdir_fails : string -> bool;
  writeFile_outcome : string -> string -> bytes -> WriteOutcome;
}.

#[global] Instance Disk_lookup : Lookup string (gmap string bytes) Disk :=
  fun userId disk => dirs disk !! userId.

Definition set_dirs (disk : Disk) (d : gmap string (gmap string bytes)) : Disk :=
  {| dirs := d; mkdir_fails := mkdir_fails disk;
     writeFile_outcome := writeFile_outcome disk |}.

(** The disk with [content] under [name] in the directory of [userId]. *)
Definition with_file (disk : Disk) (userId name : string) (content : bytes) : Disk :=
  set_dirs disk (<[userId := <[name := content]> (default ∅ (disk !! userId))]> (dirs disk)).

(** What the client code does to the outside, in the order it does it. *)
Inductive Effect : Type :=
  | PostUpload (userId : string) (file : File)
  | Digest (input : bytes)
  | PostStorageUpload (ciphertext : bytes) (fileName mimeType sha256 : string)
  | AddRecord (recordId : string)
  | GatewayGet (url : string) (timeout : Z)
  | Decrypt (key iv ciphertext : bytes)
  | OpenBlob (content : bytes) (mimeType : string)
  | DownloadBlob (fileName : string) (content : bytes).

(** [haystack.includes(needle)]. *)
Fixpoint str_includes (needle haystack : string) : bool :=
  if String.prefix needle haystack then true
  else match haystack with
       | EmptyString => false
       | String _ rest => str_includes needle rest
       end.

(** ** src/app/api/upload/route.ts *)
Module upload_route.

Definition MAX_FILE_SIZE : Z := 10 * 1024 * 1024.
Definition ALLOWED_MIME : list string :=
  ["application/pdf"; "image/png"; "image/jpeg"; "image/jpg"].

Inductive FormEntry : Type :=
  | EntryString (s : string)
  | EntryFile (file : File).

Record UploadForm : Type := {
  form_file : option FormEntry;
  form_userId : option string;
}.

Inductive Json : Type :=
  | ErrorJson (error : string)
  | UploadedJson (url filename originalName : string).

Record HttpResponse : Type := {
  http_status : Z;
  http_json : Json;
}.

(** [/[^a-zA-Z0-9.-]/]. *)
Definition safe_char (c : ascii) : bool :=
  let n := nat_of_ascii c in
  ((Nat.leb 48 n && Nat.leb n 57) || (Nat.leb 65 n && Nat.leb n 90)
   || (Nat.leb 97 n && Nat.leb n 122) || Nat.eqb n 46 || Nat.eqb n 45)%bool.

Definition underscore : ascii := "_"%char.

(** [.replace(/[^a-zA-Z0-9.-]/g, '_')]. *)
Fixpoint replace_unsafe (s : string) : string :=
  match s with
  | EmptyString => EmptyString
  | String c s' => String (if safe_char c then c else underscore) (replace_unsafe s')
  end.

(** [.replace(/_+/g, '_')]. *)
Fixpoint collapse_underscores (s : string) : string :=
  match s with
  | EmptyString => EmptyString
  | String c s' =>
      match s' with
      | String c' _ =>
          if (Ascii.eqb c underscore && Ascii.eqb c' underscore)%bool
          then collapse_underscores s'
          else String c (collapse_underscores s')
      | EmptyString => String c EmptyString
      end
  end.

(** [.replace(/^_|_$/g, '')]. *)
Definition strip_leading (s : string) : string :=
  match s with
  | String c s' => if Ascii.eqb c underscore then s' else s
  | EmptyString => EmptyString
  end.

Fixpoint strip_trailing (s : string) : string :=
  match s with
  | EmptyString => EmptyString
  | String c EmptyString => if Ascii.eqb c underscore then EmptyString else s
  | String c s' => String c (strip_trailing s')
  end.

Definition safeFilename (originalName : string) : string :=
  strip_trailing (strip_leading (collapse_underscores (replace_unsafe originalName))).

Fixpoint last_dot_from (i : nat) (s : string) : option nat :=
  match s with
  | EmptyString => None
  | String c s' =>
      match last_dot_from (S i) s' with
      | Some j => Some j
      | None => if Ascii.eqb c "."%char then Some i else None
      end
  end.

(** [path.extname] of a name without separators: from the last dot on,
    unless that dot starts the name or the name is [".."]. *)
Definition extname (s : string) : string :=
  match last_dot_from 0 s with
  | None => ""
  | Some O => ""
  | Some d => if String.eqb s ".." then "" else String.substring d (String.length s - d) s
  end.

(** [path.basename(s, ext)] of a name without separators, for [ext] empty
    or a proper suffix of [s]. *)
Definition basename (s ext : string) : string :=
  String.substring 0 (String.length s - String.length ext) s.

(** The names [existsSync] finds in a user directory: its files, and the
    names that resolve to the directory itself or to its parent. *)
Definition taken (dir : gmap string bytes) : gset string :=
  dom dir ∪ {[ ""%string; "."%string; ".."%string ]}.

(** The [while (fs.existsSync(...))] loop, run for at most [fuel] rounds. *)
Fixpoint uniqueFilename (fuel : nat) (names : gset string)
    (nameWithoutExt ext finalFilename : string) (counter : nat) : option string :=
  if bool_decide (finalFilename ∈ names) then
    match fuel with
    | O => None
    | S fuel' =>
        uniqueFilename fuel' names nameWithoutExt ext
          (nameWithoutExt +:+ "_" +:+ pretty counter +:+ ext) (S counter)
    end
  else Some finalFilename.

(** [ensureDir]: [None] when [mkdir] throws. *)
Definition ensureDir (disk : Disk) (userId : string) : option Disk :=
  match disk !! userId with
  | Some _ => Some disk
  | None =>
      if mkdir_fails disk userId then None
      else Some (set_dirs disk (<[userId := ∅]> (dirs disk)))
  end.

Definition respond (status : Z) (json : Json) : HttpResponse :=
  {| http_status := status; http_json := json |}.

(** A [mkdir] that throws is caught by the outer [catch], a [writeFile]
    that throws by the inner one.  The loop ends within [S (size names)]
    rounds (lemma [uniqueFilename_total]), so the last branch is never
    taken. *)
Definition POST (disk : Disk) (form : UploadForm) : Disk * HttpResponse :=
  let userId := default "" (form_userId form) in
  if String.eqb userId "" then
    (disk, respond 400 (ErrorJson "User ID is required"))
  else
    match ensureDir disk userId with
    | None => (disk, respond 500 (ErrorJson "Upload error"))
    | Some disk =>
        let dir := default ∅ (disk !! userId) in
        match form_file form with
        | None | Some (EntryString _) => (disk, respond 400 (ErrorJson "No file uploaded"))
        | Some (EntryFile file) =>
            let fileSize := Z.of_nat (length (file_bytes file)) in
            let mime := file_type file in
            if MAX_FILE_SIZE <? fileSize then
              (disk, respond 413 (ErrorJson "File too large (max 10MB)"))
            else if (negb (String.eqb mime "")
                     && negb (bool_decide (mime ∈ ALLOWED_MIME)))%bool then
              (disk, respond 415 (ErrorJson "Unsupported file type"))
            else
              let originalName := or_else (file_name file) "file" in
              let safe := safeFilename originalName in
              let ext := extname safe in
              let nameWithoutExt := basename safe ext in
              match uniqueFilename (S (size (taken dir))) (taken dir)
                      nameWithoutExt ext safe 1 with
              | Some finalFilename =>
                  match writeFile_outcome disk userId finalFilename (file_bytes file) with
                  | Written =>
                      (with_file disk userId finalFilename (file_bytes file),
                       respond 200
                         (UploadedJson ("/uploads/" +:+ userId +:+ "/" +:+ finalFilename)
                            finalFilename originalName))
                  | WriteFails remains =>
                      (match remains with
                       | Some part => with_file disk userId finalFilename part
                       | None => disk
                       end,
                       respond 500 (ErrorJson "Could not save file"))
                  end
              | None => (disk, respond 500 (ErrorJson "Upload error"))
              end
        end
    end.

End upload_route.

(** ** src/components/dashboard/HealthRecordForm.tsx *)
Module HealthRecordForm.
Section Form.
Context {P : Platform}.

(** The validated form values; [attachment] is the file list of the
    input. *)
Record Values : Type := {
  values_type : jsval;
  values_title : jsval;
  values_content : jsval;
  values_date : Z;
  values_bloodPressure : jsval;
  values_pulseRate : jsval;
  values_attachment : list File;
}.

(** The wallet hook and the services reached during one submission: the
    pinning service behind [/api/storage/upload], and the ledger. *)
Record Services : Type := {
  uploadEncryptedFile : bytes -> string -> string -> string -> Result (string * Z);
  isConnected : bool;
  walletAddress : option string;
  isSepolia : bool;
  switchToSepolia : Result unit;
  getContractWithSigner : Result contract.Contract;
}.

(** The values drawn at random during one submission, and the id and
    clock reading the store will use. *)
Record Draws : Type := {
  fileKey : bytes;
  fileIv : bytes;
  recordIv : bytes;
  newId : string;
  now : Z;
}.

Record Toast : Type := {
  toast_title : string;
  toast_description : string;
}.

Record PinResult : Type := {
  pin_cid : string;
  pin_size : Z;
  pin_sha256 : string;
  pin_keyBase64 : string;
  pin_ivBase64 : string;
}.

(** The state left behind by [onSubmit]. *)
Record Outcome : Type := {
  out_disk : Disk;
  out_world : World;
  out_effects : list Effect;
  out_toasts : list Toast;
}.

(** [uploadFile]: the request reaches the route handler above. *)
Definition uploadFile (disk : Disk) (userId : string) (file : File) : Disk * Result string :=
  let (disk', res) :=
    upload_route.POST disk
      {| upload_route.form_file := Some (upload_route.EntryFile file);
         upload_route.form_userId := Some userId |} in
  match upload_route.http_json res with
  | upload_route.UploadedJson url _ _ => (disk', Ok url)
  | upload_route.ErrorJson e => (disk', Throw (or_else e "File upload failed"))
  end.

(** The client's [arrayBufferToBase64]. *)
Definition arrayBufferToBase64 (buf : bytes) : string := btoa buf.

Definition getSubtle : Result unit :=
  if webcrypto_available then Ok tt
  else Throw "Web Crypto API is not available in this environment. Please use a modern browser over HTTPS.".

(** [/api/storage/upload] answers 500 with the error's details when the
    pinning service fails, and the client throws the response text. *)
Definition uploadEncryptedToPinata (svc : Services) (draws : Draws) (file : File)
    : list Effect * Result PinResult :=
  match getSubtle with
  | Throw e => ([], Throw e)
  | Ok _ =>
      let ciphertext := subtle_encrypt (fileKey draws) (fileIv draws) (file_bytes file) in
      let sha256 := subtle_digest_hex ciphertext in
      let mimeType := or_else (file_type file) "application/pdf" in
      let effects :=
        [ Digest ciphertext;
          PostStorageUpload ciphertext (file_name file) mimeType sha256 ] in
      match uploadEncryptedFile svc ciphertext
              (or_else (file_name file) "encrypted.bin") mimeType sha256 with
      | Throw details =>
          let text := default ""
            (JSON_stringify (VObj [("error", VStr "Upload failed"); ("details", VStr details)])) in
          (effects, Throw (or_else text "Pinata upload failed"))
      | Ok (cid, size) =>
          (effects,
           Ok {| pin_cid := cid; pin_size := size; pin_sha256 := sha256;
                 pin_keyBase64 := arrayBufferToBase64 (fileKey draws);
                 pin_ivBase64 := arrayBufferToBase64 (fileIv draws) |})
      end
  end.

(** The ledger step: a toast, whatever happens. *)
Definition recordOnChain (svc : Services) (pin : PinResult) (file : File) : Toast :=
  if (isConnected svc && negb (String.eqb (default "" (walletAddress svc)) ""))%bool then
    match (_ ← (if isSepolia svc then Ok tt else switchToSepolia svc);
           contract.createFileOnChain (getContractWithSigner svc)
             (pin_cid pin) (pin_sha256 pin)
             (or_else (file_type file) "application/pdf")
             (Z.of_nat (length (file_bytes file)))) with
    | Ok result =>
        {| toast_title := "Blockchain Record Created";
           toast_description :=
             "File recorded on-chain. TX: "
             +:+ first_units 10 (contract.txHash result) +:+ "..." |}
    | Throw _ =>
        {| toast_title := "Blockchain Upload Warning";
           toast_description :=
             "File uploaded to Pinata but blockchain record failed. You can retry later." |}
    end
  else
    {| toast_title := "Wallet Not Connected";
       toast_description :=
         "File uploaded to Pinata. Connect wallet to record on blockchain." |}.

(** The attachment block of [onSubmit]: the local upload, then the
    encrypted upload, then the ledger. *)
Definition uploadAttachment (svc : Services) (draws : Draws) (disk : Disk)
    (userId : string) (file : File)
    : Disk * list Effect * Result (string * PinResult * Toast) :=
  match uploadFile disk userId file with
  | (disk', Throw e) => (disk', [PostUpload userId file], Throw e)
  | (disk', Ok fileUrl) =>
      match uploadEncryptedToPinata svc draws file with
      | (effects, Throw e) => (disk', PostUpload userId file :: effects, Throw e)
      | (effects, Ok pin) =>
          (disk', PostUpload userId file :: effects,
           Ok (fileUrl, pin, recordOnChain svc pin file))
      end
  end.

Definition recordData (values : Values)
    (attachmentUrl attachmentCid attachmentEncryptionKey attachmentEncryptionIv : jsval)
    : firestore.RecordData :=
  {| firestore.data_type := values_type values;
     firestore.data_date := values_date values;
     firestore.data_title := values_title values;
     firestore.data_content := values_content values;
     firestore.data_bloodPressure := values_bloodPressure values;
     firestore.data_pulseRate := values_pulseRate values;
     firestore.data_diagnosis := VUndefined;
     firestore.data_attachmentUrl := attachmentUrl;
     firestore.data_attachmentCid := attachmentCid;
     firestore.data_attachmentEncryptionKey := attachmentEncryptionKey;
     firestore.data_attachmentEncryptionIv := attachmentEncryptionIv |}.

(** The closing [addHealthRecord] call with its toasts. *)
Definition saveRecord (env : Env) (draws : Draws) (disk : Disk) (w : World)
    (userId : string) (data : firestore.RecordData)
    (effects : list Effect) (toasts : list Toast) : Outcome :=
  match firestore.addHealthRecord w env (recordIv draws) (now draws) (newId draws) userId data with
  | Ok (recordId, w') =>
      {| out_disk := disk; out_world := w';
         out_effects := effects ++ [AddRecord recordId];
         out_toasts := toasts ++ [ {| toast_title := "Success";
                                      toast_description := "Health record added successfully." |} ] |}
  | Throw _ =>
      {| out_disk := disk; out_world := w; out_effects := effects;
         out_toasts := toasts ++ [ {| toast_title := "Error";
                                      toast_description := "Failed to add health record." |} ] |}
  end.

Definition onSubmit (env : Env) (svc : Services) (draws : Draws) (disk : Disk) (w : World)
    (user : option string) (values : Values) : Outcome :=
  match user with
  | None =>
      {| out_disk := disk; out_world := w; out_effects := [];
         out_toasts := [ {| toast_title := "Error";
                            toast_description := "You must be logged in to add a record." |} ] |}
  | Some userId =>
      match values_attachment values with
      | [] =>
          saveRecord env draws disk w userId
            (recordData values VUndefined VUndefined VUndefined VUndefined) [] []
      | file :: _ =>
          match uploadAttachment svc draws disk userId file with
          | (disk', effects, Throw e) =>
              {| out_disk := disk'; out_world := w; out_effects := effects;
                 out_toasts := [ {| toast_title := "File Upload Error";
                                    toast_description := e |} ] |}
          | (disk', effects, Ok (fileUrl, pin, toast)) =>
              saveRecord env draws disk' w userId
                (recordData values (VStr fileUrl) (VStr (pin_cid pin))
                   (VStr (pin_keyBase64 pin)) (VStr (pin_ivBase64 pin)))
                effects [toast]
          end
      end
  end.

End Form.
End HealthRecordForm.

(** ** src/components/PinataFileViewer.tsx *)
Module PinataFileViewer.
Section Viewer.
Context {P : Platform}.

Record Props : Type := {
  cid : string;
  fileName : string;
  mimeType : string;
  encryptionKey : option string;
  iv : option string;
}.

(** The component state after a handler has run, and what it did. *)
Record View : Type := {
  view_error : option string;
  view_effects : list Effect;
}.

(** Web Crypto imports a raw AES key of 128, 192 or 256 bits. *)
Definition importKey (keyBytes : bytes) : Result bytes :=
  if bool_decide (length keyBytes ∈ [16; 24; 32]%nat) then Ok keyBytes
  else Throw "Invalid key length".

Definition base64ToArrayBuffer (base64 : string) : Result bytes := atob base64.

(** [decryptFile], with the decryption it attempts. *)
Definition decryptFile (encryptedData : bytes) (keyBase64 ivBase64 : string)
    : list Effect * Result bytes :=
  if negb webcrypto_available then
    ([], Throw "Web Crypto API not available. Please use HTTPS or localhost.")
  else
    match base64ToArrayBuffer keyBase64 with
    | Throw e => ([], Throw e)
    | Ok keyBytes =>
        match base64ToArrayBuffer ivBase64 with
        | Throw e => ([], Throw e)
        | Ok ivBytes =>
            match importKey keyBytes with
            | Throw e => ([], Throw e)
            | Ok key =>
                ([Decrypt key ivBytes encryptedData],
                 subtle_decrypt key ivBytes encryptedData)
            end
        end
    end.

Definition gets (attempts : list Attempt) : list Effect :=
  map (fun a => GatewayGet (attempt_url a) (attempt_timeout a)) attempts.

Definition newline : string := String (ascii_of_nat 10) EmptyString.

Definition networkErrorText (cid : string) : string :=
  "Network error: Could not fetch file from IPFS. This might be due to:" +:+ newline
  +:+ "1. File not pinned in Pinata" +:+ newline
  +:+ "2. Network connectivity issues" +:+ newline
  +:+ "3. CORS restrictions" +:+ newline +:+ newline
  +:+ "CID: " +:+ first_units 20 cid +:+ "..." +:+ newline
  +:+ "Try checking Pinata dashboard to verify the file is pinned.".

(** The [catch] branch of a handler. *)
Definition fetchErrorText (cid fallback e : string) : string :=
  let errorMessage := or_else e fallback in
  if str_includes "Failed to fetch" errorMessage then networkErrorText cid
  else errorMessage.

(** What [handleView] and [handleDownload] share: fetch, then decrypt
    with the keys of the props; [deliver] is what is done with the
    decrypted bytes. *)
Definition fetchAndDecrypt (net : Network) (env : Env) (props : Props)
    (fallback : string) (deliver : bytes -> Effect) : View :=
  if String.eqb (cid props) "" then
    {| view_error := Some "No CID provided"; view_effects := [] |}
  else
    match pinata.getEncryptedFile net env (cid props) with
    | (attempts, Throw e) =>
        {| view_error := Some (fetchErrorText (cid props) fallback e);
           view_effects := gets attempts |}
    | (attempts, Ok encryptedData) =>
        let keyBase64 := default "" (encryptionKey props) in
        let ivBase64 := default "" (iv props) in
        if (negb (String.eqb keyBase64 "") && negb (String.eqb ivBase64 ""))%bool then
          match decryptFile encryptedData keyBase64 ivBase64 with
          | (effects, Throw e) =>
              {| view_error := Some ("Decryption failed: " +:+ e);
                 view_effects := gets attempts ++ effects |}
          | (effects, Ok decryptedData) =>
              {| view_error := None;
                 view_effects := gets attempts ++ effects ++ [deliver decryptedData] |}
          end
        else
          {| view_error := Some "Encryption keys not available. Cannot decrypt file.";
             view_effects := gets attempts |}
    end.

Definition handleView (net : Network) (env : Env) (props : Props) : View :=
  fetchAndDecrypt net env props "Failed to fetch file from Pinata"
    (fun decryptedData => OpenBlob decryptedData (mimeType props)).

Definition handleDownload (net : Network) (env : Env) (props : Props) : View :=
  fetchAndDecrypt net env props "Failed to download file"
    (fun decryptedData => DownloadBlob (or_else (fileName props) "attachment") decryptedData).

End Viewer.
End PinataFileViewer.

(** ** Laws of the platform services *)

(** AES-256-GCM decrypts what it encrypted under the same key and nonce. *)
Definition aes_gcm_correct (P : Platform) : Prop :=
  forall key iv plaintext,
    length key = 32%nat -> length iv = 12%nat ->
    subtle_decrypt key iv (subtle_encrypt key iv plaintext) = Ok plaintext.

Definition base64_roundtrip (P : Platform) : Prop :=
  forall b, Buffer_from_base64 (Buffer_toString_base64 b) = b.

(** [JSON.stringify] produces well-formed text, which UTF-8 encoding and
    decoding preserve. *)
Definition utf8_roundtrip (P : Platform) : Prop :=
  forall v s, JSON_stringify v = Some s -> TextDecoder_decode (TextEncoder_encode s) = s.

Definition json_roundtrip (P : Platform) : Prop :=
  forall v, is_json v -> exists s, JSON_stringify v = Some s /\ JSON_parse s = Ok v.

(** Parsing an ISO string gives back the time value it was printed from. *)
Definition iso_roundtrip (P : Platform) : Prop :=
  forall t, Date_construct (VStr (Date_toISOString t)) = Some t.

(** The key variable holds base64 text that decodes to exactly 32 bytes. *)
Definition key_configured (P : Platform) (env : Env) : Prop :=
  exists keyB64, ENCRYPTION_KEY env = Some keyB64 /\ keyB64 <> ""%string /\
                 length (Buffer_from_base64 keyB64) = 32%nat.

(** ** A reference platform

    An executable instance of [Platform] satisfying the laws above: the
    codecs are injective encodings with their inverses and the cipher is a
    keyed seal that opens only under the key and nonce it was made with.
    It gives the laws a model and lets the embedding run on examples. *)
Module reference.

#[global] Instance byte_eq_dec : EqDecision byte := Byte.byte_eq_dec.

Definition seal_error : string := "The operation failed for an operation-specific reason".

Definition seal (key iv plaintext : bytes) : bytes := key ++ iv ++ plaintext.

Definition unseal (key iv ciphertext : bytes) : Result bytes :=
  if bool_decide (take (length key + length iv) ciphertext = key ++ iv)
  then Ok (drop (length key + length iv) ciphertext)
  else Throw seal_error.

Definition leaf : Type := Z + string.

Definition float_to_tree (x : float) : gen_tree leaf :=
  match Prim2SF x with
  | S754_zero s => GenNode (if s then 10 else 11) []
  | S754_infinity s => GenNode (if s then 12 else 13) []
  | S754_nan => GenNode 14 []
  | S754_finite s m e =>
      GenNode (if s then 15 else 16) [GenLeaf (inl (Z.pos m)); GenLeaf (inl e)]
  end.

Definition float_of_tree (t : gen_tree leaf) : option float :=
  match t with
  | GenNode 10 [] => Some (SF2Prim (S754_zero true))
  | GenNode 11 [] => Some (SF2Prim (S754_zero false))
  | GenNode 12 [] => Some (SF2Prim (S754_infinity true))
  | GenNode 13 [] => Some (SF2Prim (S754_infinity false))
  | GenNode 14 [] => Some (SF2Prim S754_nan)
  | GenNode 15 [GenLeaf (inl (Z.pos m)); GenLeaf (inl e)] => Some (SF2Prim (S754_finite true m e))
  | GenNode 16 [GenLeaf (inl (Z.pos m)); GenLeaf (inl e)] => Some (SF2Prim (S754_finite false m e))
  | _ => None
  end.

Fixpoint to_tree (v : jsval) : gen_tree leaf :=
  match v with
  | VUndefined => GenNode 0 []
  | VNull => GenNode 1 []
  | VBool b => GenNode (if b then 2 else 3) []
  | VNum x => GenNode 4 [float_to_tree x]
  | VStr s => GenLeaf (inr s)
  | VArr elems => GenNode 5 (map to_tree elems)
  | VObj props =>
      GenNode 6 (map (fun p => GenNode 7 [GenLeaf (inr (fst p)); to_tree (snd p)]) props)
  end.

Fixpoint of_tree (t : gen_tree leaf) : option jsval :=
  match t with
  | GenLeaf (inr s) => Some (VStr s)
  | GenLeaf (inl _) => None
  | GenNode 0 [] => Some VUndefined
  | GenNode 1 [] => Some VNull
  | GenNode 2 [] => Some (VBool true)
  | GenNode 3 [] => Some (VBool false)
  | GenNode 4 [t'] => VNum <$> float_of_tree t'
  | GenNode 5 ts => VArr <$> mapM of_tree ts
  | GenNode 6 ts =>
      VObj <$> mapM (fun t' =>
                 match t' with
                 | GenNode 7 [GenLeaf (inr k); tv] => pair k <$> of_tree tv
                 | _ => None
                 end) ts
  | _ => None
  end.

Definition stringify (v : jsval) : option string :=
  match v with
  | VUndefined => None
  | _ => Some (NilEmpty.string_of_uint (Pos.to_uint (encode (to_tree v))))
  end.

Definition parse (s : string) : Result jsval :=
  match NilEmpty.uint_of_string s with
  | Some d =>
      match Pos.of_uint d with
      | Npos p =>
          match decode p ≫= of_tree with
          | Some v => Ok v
          | None => Throw "Unexpected token"
          end
      | N0 => Throw "Unexpected token"
      end
  | None => Throw "Unexpected end of JSON input"
  end.

Definition date_of (v : jsval) : option Z :=
  match v with
  | VStr s => Z.of_int <$> NilEmpty.int_of_string s
  | _ => None
  end.

Definition iso_of (t : Z) : string := NilEmpty.string_of_int (Z.to_int t).

#[global] Instance platform : Platform := {|
  subtle_encrypt := seal;
  subtle_decrypt := unseal;
  subtle_digest_hex := string_of_list_byte;
  Buffer_toString_base64 := string_of_list_byte;
  Buffer_from_base64 := list_byte_of_string;
  btoa := string_of_list_byte;
  atob := fun s => Ok (list_byte_of_string s);
  TextEncoder_encode := list_byte_of_string;
  TextDecoder_decode := string_of_list_byte;
  JSON_stringify := stringify;
  JSON_parse := parse;
  Date_construct := date_of;
  Date_toISOString := iso_of;
  Timestamp_plain_toDate := fun _ _ => Ok InvalidDate;
  webcrypto_available := true;
|}.

(** Sample data: a 32-byte key, a second one, and a 12-byte nonce. *)
Definition key1 : bytes := replicate 32 "a"%byte.
Definition key2 : bytes := replicate 32 "b"%byte.
Definition iv1 : bytes := replicate 12 "n"%byte.

Definition env1 : Env :=
  {| ENCRYPTION_KEY := Some (string_of_list_byte key1);
     PINATA_GATEWAY_SUBDOMAIN := None |}.
Definition env2 : Env :=
  {| ENCRYPTION_KEY := Some (string_of_list_byte key2);
     PINATA_GATEWAY_SUBDOMAIN := None |}.

End reference.

(** ** Sample data for the examples below *)

Definition sample_value : jsval :=
  VObj [ ("title", VStr "Annual check-up");
         ("tags", VArr [VStr "a"; VNull; VBool true]);
         ("diagnosis", VObj [("doctorId", VStr "d1")]) ].

Definition sample_doctor : UserDocument :=
  {| uid := "doc1"; email := "doc1@example.org"; role := role_doctor;
     pendingConnections := Some []; successfulConnections := Some [] |}.

Definition sample_patient : UserDocument :=
  {| uid := "pat1"; email := "pat1@example.org"; role := role_patient;
     pendingConnections := None; successfulConnections := None |}.

Definition sample_data : firestore.RecordData :=
  {| firestore.data_type := VStr "note";
     firestore.data_date := 1700000000000;
     firestore.data_title := VStr "Annual check-up";
     firestore.data_content := VStr "All fine";
     firestore.data_bloodPressure := VStr "120/80";
     firestore.data_pulseRate := VUndefined;
     firestore.data_diagnosis := VUndefined;
     firestore.data_attachmentUrl := VUndefined;
     firestore.data_attachmentCid := VUndefined;
     firestore.data_attachmentEncryptionKey := VUndefined;
     firestore.data_attachmentEncryptionIv := VUndefined |}.

(** The same record with another date. *)
Definition sample_data_dated (date : Z) : firestore.RecordData :=
  {| firestore.data_type := firestore.data_type sample_data;
     firestore.data_date := date;
     firestore.data_title := firestore.data_title sample_data;
     firestore.data_content := firestore.data_content sample_data;
     firestore.data_bloodPressure := firestore.data_bloodPressure sample_data;
     firestore.data_pulseRate := firestore.data_pulseRate sample_data;
     firestore.data_diagnosis := firestore.data_diagnosis sample_data;
     firestore.data_attachmentUrl := firestore.data_attachmentUrl sample_data;
     firestore.data_attachmentCid := firestore.data_attachmentCid sample_data;
     firestore.data_attachmentEncryptionKey :=
       firestore.data_attachmentEncryptionKey sample_data;
     firestore.data_attachmentEncryptionIv :=
       firestore.data_attachmentEncryptionIv sample_data |}.

Definition empty_blob : EncryptedBlob :=
  {| blob_ciphertext := ""; blob_iv := ""; blob_alg := ""; blob_v := 0 |}.

(** The payload of [sample_data], encrypted on the reference platform
    under [reference.key1]. *)
Definition sample_blob : EncryptedBlob :=
  match encryptObject (P := reference.platform) reference.env1 reference.iv1
          (firestore.sensitivePayload sample_data) with
  | Ok blob => blob
  | Throw _ => empty_blob
  end.

Definition sample_doc : Doc :=
  firestore.newRecordDoc 1700000001000 "pat1" sample_data sample_blob.

(** One doctor, one patient, not connected; one record of the patient;
    a ledger that grants every access query. *)
Definition sample_world : World :=
  {| users := {[ "doc1"%string := sample_doctor; "pat1"%string := sample_patient ]};
     healthRecords := {[ "rec1"%string := sample_doc ]};
     ledger_hasAccess := fun _ _ => true |}.

Definition sample_diagnosis : jsval :=
  VObj [ ("diagnosisText", VStr "Flu"); ("treatmentPlan", VStr "Rest");
         ("recommendations", VStr "Fluids") ].

(** A registry whose receipt holds a log of another contract followed by
    the [FileCreated] event for file 7. *)
Definition sample_parseLog (log : contract.ReceiptLog) : contract.ParseOutcome :=
  match contract.topics log with
  | ["FileCreated"%string] =>
      contract.Parsed
        {| contract.name := "FileCreated";
           contract.args := [contract.ABigInt 7; contract.AAddress "0xowner";
                             contract.AString (contract.data log)] |}
  | ["Transfer"%string] => contract.ParseThrows "no matching event"
  | _ => contract.ParseNull
  end.

Definition sample_receipt : contract.Receipt :=
  {| contract.hash := "0xabc";
     contract.logs :=
       [ {| contract.topics := ["Transfer"%string]; contract.data := "" |};
         {| contract.topics := ["FileCreated"%string]; contract.data := "bafy1" |} ] |}.

Definition sample_contract : contract.Contract :=
  {| contract.createFile := fun _ _ _ _ =>
       Ok {| contract.wait := Ok sample_receipt |};
     contract.parseLog := sample_parseLog;
     contract.getTotalFiles := Ok 9 |}.

(** ** Reading the order of a result *)

(** [new Date(r.date).getTime()], when the date parses. *)
Definition getTime {P : Platform} (r : HealthRecord) : option Z :=
  Date_construct (VStr (rec_date r)).

(** Both dates parse and [a] is dated no earlier than [b]. *)
Definition not_older {P : Platform} (a b : HealthRecord) : Prop :=
  exists ta tb, getTime a = Some ta /\ getTime b = Some tb /\ tb <= ta.

(** A stored record like [sample_doc] with another owner and date. *)
Definition sample_doc_of (userId : string) (date : Z) : Doc :=
  <["userId" := FPlain (VStr userId)]>
    (<["date" := Timestamp_of date]> sample_doc).

(** Three records of one patient and one of another, stored out of
    order. *)
Definition sample_archive : World :=
  {| users := ∅;
     healthRecords :=
       {[ "rec1"%string := sample_doc_of "pat1" 1700000000000;
          "rec2"%string := sample_doc_of "pat1" 1600000000000;
          "rec3"%string := sample_doc_of "pat1" 1800000000000;
          "rec4"%string := sample_doc_of "pat2" 1900000000000 ]};
     ledger_hasAccess := fun _ _ => false |}.

(** ** Field names of a stored record *)




(** ** Reading the trace of a retrieval *)

(** The gateway answers within the time limit with a 2xx status and a
    body of at least one byte. *)
Definition gateway_serves (net : Network) (gatewayBase cid : string) (b : bytes) : Prop :=
  let x := net (gatewayBase +:+ "/" +:+ cid) in
  latency x < 30000 /\
  exists res, reply x = Responded res /\ res_ok res = true /\
              res_body res = Ok b /\ b <> [].

(** One GET per gateway of the list, each limited to 30 seconds. *)
Definition requestsTo (cid : string) (gatewayBases : list string) : list Attempt :=
  (fun g => {| attempt_url := g +:+ "/" +:+ cid; attempt_timeout := 30000 |})
    <$> gatewayBases.

(** A network where the first two gateways are unreachable, the third
    answers with two bytes and the fourth would need 40 seconds. *)
Definition sample_net (url : string) : Exchange :=
  if String.eqb url "https://gateway.ipfs.io/ipfs/bafy1" then
    {| latency := 120;
       reply := Responded {| res_status := 200; res_statusText := "OK";
                             res_body := Ok ["x"%byte; "y"%byte] |} |}
  else if String.eqb url "https://dweb.link/ipfs/bafy1" then
    {| latency := 40000;
       reply := Responded {| res_status := 200; res_statusText := "OK";
                             res_body := Ok ["z"%byte] |} |}
  else {| latency := 15; reply := NetworkError "fetch failed" |}.

(** ** Sample attachment *)

(** An attachment sealed under [reference.key1]; the digest recorded for
    it at upload; and the same bytes with the first one damaged. *)
Definition sample_ciphertext : bytes :=
  reference.seal reference.key1 reference.iv1 ["h"%byte; "i"%byte].

Definition sample_sha256 : string :=
  subtle_digest_hex (Platform := reference.platform) sample_ciphertext.

Definition damaged_ciphertext : bytes :=
  match sample_ciphertext with
  | _ :: rest => "?"%byte :: rest
  | [] => []
  end.

(** The pinning gateway serves the damaged bytes. *)
Definition damaged_net (url : string) : Exchange :=
  {| latency := 80;
     reply := Responded {| res_status := 200; res_statusText := "OK";
                           res_body := Ok damaged_ciphertext |} |}.

Definition sample_props : PinataFileViewer.Props :=
  {| PinataFileViewer.cid := "bafy1";
     PinataFileViewer.fileName := "scan.pdf";
     PinataFileViewer.mimeType := "application/pdf";
     PinataFileViewer.encryptionKey := Some (string_of_list_byte reference.key1);
     PinataFileViewer.iv := Some (string_of_list_byte reference.iv1) |}.

(** An effect other than the computation of a digest. *)
Definition not_a_digest (e : Effect) : Prop := forall input, e <> Digest input.

(** ** Sample submission *)

Definition sample_file : File :=
  {| file_name := "scan 1.pdf"; file_type := "application/pdf";
     file_bytes := ["h"%byte; "i"%byte] |}.

Definition sample_values : HealthRecordForm.Values :=
  {| HealthRecordForm.values_type := VStr "lab_report";
     HealthRecordForm.values_title := VStr "Blood panel";
     HealthRecordForm.values_content := VStr "See attachment";
     HealthRecordForm.values_date := 1700000000000;
     HealthRecordForm.values_bloodPressure := VUndefined;
     HealthRecordForm.values_pulseRate := VUndefined;
     HealthRecordForm.values_attachment := [sample_file] |}.

(** The pinning service accepts the upload; no wallet is connected. *)
Definition sample_services : HealthRecordForm.Services :=
  {| HealthRecordForm.uploadEncryptedFile := fun _ _ _ _ => Ok ("bafy1"%string, 46);
     HealthRecordForm.isConnected := false;
     HealthRecordForm.walletAddress := None;
     HealthRecordForm.isSepolia := false;
     HealthRecordForm.switchToSepolia := Throw "User rejected the request";
     HealthRecordForm.getContractWithSigner := Throw "MetaMask is not installed." |}.

Definition sample_draws : HealthRecordForm.Draws :=
  {| HealthRecordForm.fileKey := reference.key2;
     HealthRecordForm.fileIv := reference.iv1;
     HealthRecordForm.recordIv := reference.iv1;
     HealthRecordForm.newId := "rec9";
     HealthRecordForm.now := 1700000002000 |}.

(** The uploads directory already holds a file of the same name. *)
Definition sample_disk : Disk :=
  {| dirs := {[ "pat1"%string := {[ "scan_1.pdf"%string := ["o"%byte; "l"%byte; "d"%byte] ]} ]};
     mkdir_fails := fun _ => false;
     writeFile_outcome := fun _ _ _ => Written |}.

(** ** src/lib/firebase/firestore.ts: the lists of connected users

    [getDocs] over [where(documentId(), 'in', ids)] is refused by the
    store for some lists of ids (more values than an [in] filter takes, a
    value that is no document id); [refuses] tells which.  What
    [console.error] prints is left out. *)
Module firestore_lists.
Section Lists.
Variable refuses : list string -> bool.

(** The documents of [users] whose id is among [ids], in the store's
    order. *)
Definition usersWithIdIn (w : World) (ids : list string) : Result (list UserDocument) :=
  if refuses ids then Throw "Invalid Query."
  else Ok (snd <$> filter (fun d => bool_decide (d.1 ∈ ids)) (map_to_list (users w))).

Definition getPendingConnections (w : World) (userId : string) : list UserDocument :=
  match firestore.getUserDocument w userId with
  | None => []
  | Some userDoc =>
      match pendingConnections userDoc with
      | None | Some [] => []
      | Some userIds =>
          match usersWithIdIn w userIds with
          | Ok docs => docs
          | Throw _ => []
          end
      end
  end.

Definition getConnectedPatients (w : World) (doctorId : string) : list UserDocument :=
  match firestore.getUserDocument w doctorId with
  | None => []
  | Some doctorDoc =>
      match successfulConnections doctorDoc with
      | None | Some [] => []
      | Some patientIds =>
          match usersWithIdIn w patientIds with
          | Ok docs => docs
          | Throw _ => []
          end
      end
  end.

Definition getConnectedDoctors (w : World) (patientId : string) : list UserDocument :=
  match firestore.getUserDocument w patientId with
  | None => []
  | Some patientDoc =>
      match successfulConnections patientDoc with
      | None | Some [] => []
      | Some doctorIds =>
          match usersWithIdIn w doctorIds with
          | Ok docs => docs
          | Throw _ => []
          end
      end
  end.

End Lists.
End firestore_lists.

(** ** Reading the users before and after an operation *)

(** Every user is still there, with at least the successful connections
    held before. *)
Definition keeps_connections (m m' : gmap string UserDocument) : Prop :=
  forall id u, m !! id = Some u ->
    exists u', m' !! id = Some u' /\
               forall x, includes (successfulConnections u) x = true ->
                         includes (successfulConnections u') x = true.

(** A store that takes an [in] filter of at most thirty values. *)
Definition sample_refuses (ids : list string) : bool := (30 <? length ids)%nat.

(** ** Reading back what was written *)

Definition is_undefined (v : jsval) : bool :=
  match v with
  | VUndefined => true
  | _ => false
  end.

(** The properties [JSON.stringify] writes out: those whose value is not
    [undefined]. *)
Definition defined_props (props : list (string * jsval)) : list (string * jsval) :=
  List.filter (fun p => negb (is_undefined (snd p))) props.

(** [JSON.stringify] leaves out the properties of an object whose value
    is [undefined]; parsing the text gives the object without them. *)
Definition json_omits_undefined (P : Platform) : Prop :=
  forall props,
    NoDup (map fst props) ->
    is_json (VObj (defined_props props)) ->
    exists s, JSON_stringify (VObj props) = Some s /\
              JSON_parse s = Ok (VObj (defined_props props)).

(** A field that is left out or holds a JSON value. *)
Definition optional_json (v : jsval) : Prop := v = VUndefined \/ is_json v.

(** [{ ...record, diagnosis }]. *)
Definition set_diagnosis (r : HealthRecord) (diagnosis : jsval) : HealthRecord :=
  {| rec_id := rec_id r;
     rec_userId := rec_userId r;
     rec_type := rec_type r;
     rec_title := rec_title r;
     rec_content := rec_content r;
     rec_date := rec_date r;
     rec_createdAt := rec_createdAt r;
     rec_bloodPressure := rec_bloodPressure r;
     rec_pulseRate := rec_pulseRate r;
     rec_diagnosis := diagnosis;
     rec_attachmentUrl := rec_attachmentUrl r;
     rec_attachmentCid := rec_attachmentCid r;
     rec_attachmentEncryptionKey := rec_attachmentEncryptionKey r;
     rec_attachmentEncryptionIv := rec_attachmentEncryptionIv r |}.

(** The record a reader is expected to return for the data handed to
    [addHealthRecord] at time [now] under the id [newId]. *)
Definition written_record {P : Platform} (now : Z) (newId userId : string)
    (recordData : firestore.RecordData) : HealthRecord :=
  {| rec_id := newId;
     rec_userId := Some (FPlain (VStr userId));
     rec_type := Some (FPlain (firestore.data_type recordData));
     rec_title := nullish_coalesce (firestore.data_title recordData) (VStr "");
     rec_content := nullish_coalesce (firestore.data_content recordData) (VStr "");
     rec_date := Date_toISOString (firestore.data_date recordData);
     rec_createdAt := Date_toISOString now;
     rec_bloodPressure := firestore.data_bloodPressure recordData;
     rec_pulseRate := firestore.data_pulseRate recordData;
     rec_diagnosis := firestore.data_diagnosis recordData;
     rec_attachmentUrl := firestore.data_attachmentUrl recordData;
     rec_attachmentCid := firestore.data_attachmentCid recordData;
     rec_attachmentEncryptionKey := firestore.data_attachmentEncryptionKey recordData;
     rec_attachmentEncryptionIv := firestore.data_attachmentEncryptionIv recordData |}.

(** The reference platform with a [JSON.stringify] that leaves out the
    undefined properties of the object it is given. *)
Definition stringify_defined (v : jsval) : option string :=
  match v with
  | VObj props => reference.stringify (VObj (defined_props props))
  | _ => reference.stringify v
  end.

Definition reference_omitting : Platform :=
  {| subtle_encrypt := reference.seal;
     subtle_decrypt := reference.unseal;
     subtle_digest_hex := string_of_list_byte;
     Buffer_toString_base64 := string_of_list_byte;
     Buffer_from_base64 := list_byte_of_string;
     btoa := string_of_list_byte;
     atob := fun s => Ok (list_byte_of_string s);
     TextEncoder_encode := list_byte_of_string;
     TextDecoder_decode := string_of_list_byte;
     JSON_stringify := stringify_defined;
     JSON_parse := reference.parse;
     Date_construct := reference.date_of;
     Date_toISOString := reference.iso_of;
     Timestamp_plain_toDate := fun _ _ => Ok InvalidDate;
     webcrypto_available := true |}.

(** A stored record whose payload holds a title and a content, and a
    world where the doctor is connected to its owner. *)
Definition sample_json_blob : EncryptedBlob :=
  match encryptObject (P := reference.platform) reference.env1 reference.iv1
          (VObj [("title", VStr "Annual check-up"); ("content", VStr "All fine")]) with
  | Ok blob => blob
  | Throw _ => empty_blob
  end.

Definition sample_connected_world : World :=
  {| users := {[ "doc1"%string := with_successful (arrayUnion "pat1") sample_doctor;
                 "pat1"%string := with_successful (arrayUnion "doc1") sample_patient ]};
     healthRecords :=
       {[ "rec1"%string :=
            firestore.newRecordDoc 1700000001000 "pat1" sample_data sample_json_blob ]};
     ledger_hasAccess := fun _ _ => false |}.

(** ** src/lib/firebase/firestore.ts and src/lib/actions.ts: share links *)
Module shares.

(** A document of the [shares] collection. *)
Record ShareDocument : Type := {
  share_userId : string;
  share_createdAt : Z;
}.

Abbreviation Shares := (gmap string ShareDocument).

Section Shares.
Context {P : Platform}.

(** [createShare]: the store files the document under the id it
    generates, [newId], with the server time [now]. *)
Definition createShare (sharesCollection : Shares) (now : Z) (newId userId : string)
    : Shares * string :=
  (<[newId := {| share_userId := userId; share_createdAt := now |}]> sharesCollection,
   newId).

Record SharedRecords : Type := {
  records : list HealthRecord;
  userId : string;
}.

Definition getSharedRecords (w : World) (env : Env) (now : Z) (shareId : string)
    : list LogEntry * Result SharedRecords :=
  match firestore.getHealthRecords w env now shareId with
  | (logs, Ok records) => (logs, Ok {| records := records; userId := shareId |})
  | (logs, Throw e) =>
      (logs ++ [ {| log_text := "Error getting shared records: ";
                    log_subject := None; log_error := e |} ],
       Throw e)
  end.

(** What [createShareLink] returns: [{ error }] or [{ url, error: null }]
    (the store answers every request, so the [catch] branch is not
    entered). *)
Inductive ShareLink : Type :=
  | NotLoggedIn (error : string)
  | Link (url : string).

(** [host] is the [Host] header of the request, [NODE_ENV] the
    environment variable. *)
Definition createShareLink (sharesCollection : Shares) (now : Z) (newId : string)
    (host NODE_ENV : option string) (userId : string) : Shares * ShareLink :=
  if String.eqb userId "" then
    (sharesCollection, NotLoggedIn "You must be logged in to share records.")
  else
    let (sharesCollection', shareId) := createShare sharesCollection now newId userId in
    let protocol :=
      match NODE_ENV with
      | Some "production"%string => "https"
      | _ => "http"
      end in
    (sharesCollection',
     Link (protocol +:+ "://" +:+ default "null" host +:+ "/share/" +:+ shareId)).

End Shares.
End shares.

(** ** More laws and sample data for attachments *)

(** [btoa] encodes no bytes as the empty string, and [atob] decodes what
    [btoa] encoded. *)
Definition browser_base64_roundtrip (P : Platform) : Prop :=
  btoa [] = ""%string /\ forall b, atob (btoa b) = Ok b.

(** A connected wallet on Sepolia and the sample registry. *)
Definition sample_wallet_services : HealthRecordForm.Services :=
  {| HealthRecordForm.uploadEncryptedFile := fun _ _ _ _ => Ok ("bafy1"%string, 46);
     HealthRecordForm.isConnected := true;
     HealthRecordForm.walletAddress := Some "0xpatient"%string;
     HealthRecordForm.isSepolia := true;
     HealthRecordForm.switchToSepolia := Ok tt;
     HealthRecordForm.getContractWithSigner := Ok sample_contract |}.

(** A pinning service that is down. *)
Definition sample_failing_services : HealthRecordForm.Services :=
  {| HealthRecordForm.uploadEncryptedFile := fun _ _ _ _ => Throw "Pinata upload failed (401): Unauthorized.";
     HealthRecordForm.isConnected := false;
     HealthRecordForm.walletAddress := None;
     HealthRecordForm.isSepolia := false;
     HealthRecordForm.switchToSepolia := Throw "User rejected the request";
     HealthRecordForm.getContractWithSigner := Throw "MetaMask is not installed." |}.

(** The pinning gateway serves the ciphertext of [sample_file] under the
    key and nonce of [sample_draws]. *)
Definition sample_pinned_net (url : string) : Exchange :=
  {| latency := 80;
     reply := Responded
       {| res_status := 200; res_statusText := "OK";
          res_body := Ok (reference.seal reference.key2 reference.iv1 (file_bytes sample_file)) |} |}.

(** The handler ended without an error and opened (resp. saved) these
    bytes. *)
Definition view_opens (v : PinataFileViewer.View) (content : bytes) : Prop :=
  PinataFileViewer.view_error v = None /\
  exists mimeType, OpenBlob content mimeType ∈ PinataFileViewer.view_effects v.

Definition view_downloads (v : PinataFileViewer.View) (fileName : string) (content : bytes)
    : Prop :=
  PinataFileViewer.view_error v = None /\
  DownloadBlob fileName content ∈ PinataFileViewer.view_effects v.

(** ** The attachment checks of the form (HealthRecordForm.tsx)

    The two refinements of the [attachment] field of [formSchema]. *)
Module formSchema.

Definition MAX_FILE_SIZE : Z := 5 * 1024 * 1024.
Definition ACCEPTED_FILE_TYPES : list string :=
  ["image/jpeg"; "image/png"; "application/pdf"].

(** [files[0]?.size <= MAX_FILE_SIZE], for a list of files. *)
Definition sizeAccepted (files : list File) : bool :=
  match files with
  | [] => true
  | file :: _ => Z.of_nat (length (file_bytes file)) <=? MAX_FILE_SIZE
  end.

(** [ACCEPTED_FILE_TYPES.includes(files[0]?.type)]. *)
Definition typeAccepted (files : list File) : bool :=
  match files with
  | [] => true
  | file :: _ => bool_decide (file_type file ∈ ACCEPTED_FILE_TYPES)
  end.

End formSchema.

(** ** Reading a file name *)

(** Every character of [s] satisfies [p]. *)
Fixpoint all_chars (p : ascii -> bool) (s : string) : bool :=
  match s with
  | EmptyString => true
  | String c s' => p c && all_chars p s'
  end.

(** A letter, a digit, a dot, a hyphen or an underscore. *)
Definition name_char (c : ascii) : bool :=
  upload_route.safe_char c || Ascii.eqb c upload_route.underscore.

(** The file system makes the user's directory where it is missing, and
    takes the file under any name. *)
Definition takes_upload (disk : Disk) (userId : string) (file : File) : Prop :=
  (disk !! userId = None -> mkdir_fails disk userId = false) /\
  forall name, writeFile_outcome disk userId name (file_bytes file) = Written.

(** The bytes stored under [userId]/[name], if any. *)
Definition stored (disk : Disk) (userId name : string) : option bytes :=
  disk !! userId ≫= fun dir => dir !! name.

(** A file system that takes no name longer than 255 bytes, with the
    uploads directory empty; and a file that passes the checks of the
    form under a name of 304 characters. *)
Definition sample_strict_disk : Disk :=
  {| dirs := ∅;
     mkdir_fails := fun userId => (255 <? String.length userId)%nat;
     writeFile_outcome := fun _ name _ =>
       if (255 <? String.length name)%nat then WriteFails None else Written |}.

Definition sample_long_file : File :=
  {| file_name := string_of_list_ascii (repeat "a"%char 300) +:+ ".pdf";
     file_type := "application/pdf";
     file_bytes := ["h"%byte; "i"%byte] |}.

(** An upload whose file name tries to leave the directory. *)
Definition sample_hostile_form : upload_route.UploadForm :=
  {| upload_route.form_file :=
       Some (upload_route.EntryFile
               {| file_name := "../evil name.pdf"; file_type := "application/pdf";
                  file_bytes := ["h"%byte; "i"%byte] |});
     upload_route.form_userId := Some "pat1"%string |}.

(** ** src/hooks/useWallet.ts and src/components/WalletStatus.tsx

    The hook's state and the functions that replace it.  [window.ethereum]
    is represented by what it answers; what [console.error] prints is
    left out. *)
Module useWallet.

(** [SEPOLIA_NETWORK.chainId] of contract.ts. *)
Definition SEPOLIA_chainId : string := "0xaa36a7".

Definition hex_value (c : ascii) : option N :=
  let n := N_of_ascii c in
  if ((48 <=? n) && (n <=? 57))%N then Some (n - 48)%N
  else if ((97 <=? n) && (n <=? 102))%N then Some (n - 87)%N
  else if ((65 <=? n) && (n <=? 70))%N then Some (n - 55)%N
  else None.

(** The value of the longest run of hexadecimal digits at the start of
    [s], continuing from [acc]. *)
Fixpoint hex_digits (s : string) (acc : option N) : option N :=
  match s with
  | EmptyString => acc
  | String c s' =>
      match hex_value c with
      | Some d => hex_digits s' (Some (16 * default 0%N acc + d)%N)
      | None => acc
      end
  end.

(** [parseInt(s, 16)] of a string without sign or surrounding space:
    an optional [0x] prefix, then digits up to the first character that
    is none; [None] is [NaN].  (Exact below 2^53.) *)
Definition parseInt16 (s : string) : option N :=
  match s with
  | String "0" (String "x" s') | String "0" (String "X" s') => hex_digits s' None
  | _ => hex_digits s None
  end.

Definition hex_char (d : N) : ascii :=
  if (d <? 10)%N then ascii_of_N (48 + d) else ascii_of_N (87 + d).

(** The hexadecimal digits of a positive number, most significant
    first, before [acc]. *)
Fixpoint hex_of_positive (p : positive) (fuel : nat) (acc : string) : string :=
  match fuel with
  | O => acc
  | S fuel' =>
      let acc' := String (hex_char (Npos p mod 16)%N) acc in
      match (Npos p / 16)%N with
      | N0 => acc'
      | Npos q => hex_of_positive q fuel' acc'
      end
  end.

(** [n.toString(16)], with [None] for [NaN]. *)
Definition toString16 (n : option N) : string :=
  match n with
  | None => "NaN"
  | Some N0 => "0"
  | Some (Npos p) => hex_of_positive p (Pos.size_nat p) ""
  end.

(** [chainId === '0xaa36a7' ||
     chainId === '0x' + parseInt(SEPOLIA_NETWORK.chainId, 16).toString(16)]. *)
Definition onSepolia (chainId : string) : bool :=
  String.eqb chainId "0xaa36a7"
  || String.eqb chainId ("0x" +:+ toString16 (parseInt16 SEPOLIA_chainId)).

Record WalletState : Type := {
  address : option string;
  isConnected : bool;
  isConnecting : bool;
  chainId : option string;
  isSepolia : bool;
  error : option string;
}.

Definition initialState : WalletState :=
  {| address := None; isConnected := false; isConnecting := false;
     chainId := None; isSepolia := false; error := None |}.

(** The answer to a wallet request that returns nothing. *)
Inductive RpcAnswer : Type :=
  | RpcDone
  | RpcError (code : Z) (message : string).

(** [window.ethereum]: its [isMetaMask] and [chainId] properties and its
    answers to the requests the hook sends. *)
Record Ethereum : Type := {
  isMetaMask : bool;
  chainId_property : option string;
  eth_accounts : Result (list string);
  eth_requestAccounts : Result (list string);
  eth_chainId : Result string;
  wallet_switchEthereumChain : RpcAnswer;
  wallet_addEthereumChain : RpcAnswer;
}.

(** [window.ethereum.chainId || await window.ethereum.request({ method: 'eth_chainId' })]. *)
Definition currentChainId (ethereum : Ethereum) : Result string :=
  match chainId_property ethereum with
  | Some c => if String.eqb c "" then eth_chainId ethereum else Ok c
  | None => eth_chainId ethereum
  end.

(** The state set once the accounts and the chain are known. *)
Definition connectedState (account chainId : string) : WalletState :=
  {| address := Some account;
     isConnected := true;
     isConnecting := false;
     chainId := if String.eqb chainId "" then None else Some chainId;
     isSepolia := onSepolia chainId;
     error := None |}.

Definition with_error (s : WalletState) (isConnecting : bool) (error : option string)
    : WalletState :=
  {| address := address s; isConnected := isConnected s; isConnecting := isConnecting;
     chainId := chainId s; isSepolia := isSepolia s; error := error |}.

Definition checkConnection (ethereum : option Ethereum) (s : WalletState) : WalletState :=
  match ethereum with
  | None => s
  | Some ethereum =>
      match eth_accounts ethereum with
      | Throw _ => s
      | Ok accounts =>
          match currentChainId ethereum with
          | Throw _ => s
          | Ok chainId =>
              match accounts with
              | account :: _ => connectedState account chainId
              | [] => s
              end
          end
      end
  end.

(** [typeof window !== 'undefined' && !!window.ethereum?.isMetaMask]. *)
Definition isMetaMaskInstalled (ethereum : option Ethereum) : bool :=
  match ethereum with
  | Some ethereum => isMetaMask ethereum
  | None => false
  end.

Definition connect (ethereum : option Ethereum) (s : WalletState) : WalletState :=
  match ethereum with
  | Some ethereum =>
      if isMetaMask ethereum then
        let connecting := with_error s true None in
        let failed e := with_error connecting false (Some (or_else e "Failed to connect wallet")) in
        match eth_requestAccounts ethereum with
        | Throw e => failed e
        | Ok [] => failed "No accounts found"
        | Ok (account :: _) =>
            match currentChainId ethereum with
            | Throw e => failed e
            | Ok chainId => connectedState account chainId
            end
        end
      else
        with_error s (isConnecting s)
          (Some "MetaMask is not installed. Please install MetaMask extension.")
  | None =>
      with_error s (isConnecting s)
        (Some "MetaMask is not installed. Please install MetaMask extension.")
  end.

Definition disconnect : WalletState := initialState.

Definition switchToSepolia (ethereum : option Ethereum) (s : WalletState) : WalletState :=
  match ethereum with
  | None => s
  | Some ethereum =>
      match wallet_switchEthereumChain ethereum with
      | RpcDone => s
      | RpcError code _ =>
          if code =? 4902 then
            match wallet_addEthereumChain ethereum with
            | RpcDone => s
            | RpcError _ _ =>
                with_error s (isConnecting s) (Some "Failed to add Sepolia network")
            end
          else with_error s (isConnecting s) (Some "Failed to switch network")
      end
  end.

Definition handleAccountsChanged (accounts : list string) (s : WalletState) : WalletState :=
  match accounts with
  | [] => disconnect
  | account :: _ =>
      {| address := Some account; isConnected := isConnected s;
         isConnecting := isConnecting s; chainId := chainId s;
         isSepolia := isSepolia s; error := error s |}
  end.

Definition handleChainChanged (newChainId : string) (s : WalletState) : WalletState :=
  {| address := address s; isConnected := isConnected s; isConnecting := isConnecting s;
     chainId := Some newChainId; isSepolia := onSepolia newChainId; error := error s |}.

(** One change of the hook's state: a call of one of its functions or
    one of the two wallet events. *)
Inductive step : WalletState -> WalletState -> Prop :=
  | step_checkConnection ethereum s : step s (checkConnection ethereum s)
  | step_connect ethereum s : step s (connect ethereum s)
  | step_disconnect s : step s disconnect
  | step_switchToSepolia ethereum s : step s (switchToSepolia ethereum s)
  | step_accountsChanged accounts s : step s (handleAccountsChanged accounts s)
  | step_chainChanged newChainId s : step s (handleChainChanged newChainId s).

(** The states the hook can be in. *)
Definition reachable (s : WalletState) : Prop := rtc step initialState s.

End useWallet.

(** What [WalletStatus] renders. *)
Module WalletStatus.

Inductive Rendered : Type :=
  | NotInstalled
  | Connecting
  | ConnectButton
  | SwitchButton
  | ConnectedBadge (address : option string).

Definition render (ethereum : option useWallet.Ethereum) (s : useWallet.WalletState)
    : Rendered :=
  if negb (useWallet.isMetaMaskInstalled ethereum) then NotInstalled
  else if useWallet.isConnecting s then Connecting
  else if negb (useWallet.isConnected s) then ConnectButton
  else if negb (useWallet.isSepolia s) then SwitchButton
  else ConnectedBadge (useWallet.address s).

End WalletStatus.

(** The flag [isSepolia] says what the chain id says, and a connected
    wallet has an address. *)
Definition wallet_consistent (s : useWallet.WalletState) : Prop :=
  (useWallet.isSepolia s = true <-> useWallet.chainId s = Some useWallet.SEPOLIA_chainId) /\
  (useWallet.isConnected s = true -> exists account, useWallet.address s = Some account).

(** A wallet with one account on the main network, which knows Sepolia. *)
Definition sample_ethereum : useWallet.Ethereum :=
  {| useWallet.isMetaMask := true;
     useWallet.chainId_property := Some "0x1"%string;
     useWallet.eth_accounts := Ok ["0xpatient"%string];
     useWallet.eth_requestAccounts := Ok ["0xpatient"%string];
     useWallet.eth_chainId := Ok "0x1"%string;
     useWallet.wallet_switchEthereumChain := useWallet.RpcDone;
     useWallet.wallet_addEthereumChain := useWallet.RpcDone |}.

(** The state after connecting this wallet, asking it to switch and
    receiving the wallet's [chainChanged] event. *)
Definition sample_wallet_state : useWallet.WalletState :=
  useWallet.handleChainChanged "0xaa36a7"
    (useWallet.switchToSepolia (Some sample_ethereum)
       (useWallet.connect (Some sample_ethereum) useWallet.initialState)).

(** ** src/lib/pinata.ts: pinning, and src/app/api/storage/upload/route.ts *)

(** [s.toLowerCase()] as far as the search for the word [scope] can
    tell: the letters A to Z are lowered, and no other character lowers
    to a letter of that word. *)
Definition lower_char (c : ascii) : ascii :=
  let n := nat_of_ascii c in
  if (Nat.leb 65 n && Nat.leb n 90)%bool then ascii_of_nat (n + 32) else c.

Fixpoint toLowerCase (s : string) : string :=
  match s with
  | EmptyString => EmptyString
  | String c s' => String (lower_char c) (toLowerCase s')
  end.

Module pinning.

(** The three variables of [process.env] that [getAuthHeaders] reads. *)
Record Credentials : Type := {
  PINATA_JWT : option string;
  PINATA_API_KEY : option string;
  PINATA_API_SECRET : option string;
}.

Record UploadMetadata : Type := {
  fileName : option string;
  mimeType : option string;
  sha256 : option string;
}.

(** [ciphertext: Blob | Uint8Array]. *)
Inductive Ciphertext : Type :=
  | ABlob (content : bytes) (type : string)
  | AUint8Array (content : bytes).

(** The multipart request sent to the pinning API. *)
Record PinRequest : Type := {
  req_url : string;
  req_headers : list (string * string);
  req_file : bytes;
  req_fileType : string;
  req_filename : string;
  req_pinataMetadata : string;
  req_pinataOptions : string;
}.

Record UploadResult : Type := {
  cid : jsval;
  size : jsval;
}.

(** What the storage route answers, with its status. *)
Inductive Json : Type :=
  | PinnedJson (cid size : jsval)
  | MissingFileJson (error : string)
  | FailedJson (error details : string).

Record StorageForm : Type := {
  form_file : option upload_route.FormEntry;
  form_fileName : option string;
  form_mimeType : option string;
  form_sha256 : option string;
}.

Section Pinning.
Context {P : Platform}.

Definition PIN_FILE_URL : string := "https://api.pinata.cloud/pinning/pinFileToIPFS".

(** [a || b] for an optional string [a]. *)
Definition or_default (a : option string) (b : string) : string :=
  or_else (default "" a) b.

Definition getAuthHeaders (env : Credentials) : Result (list (string * string)) :=
  let jwt := default "" (PINATA_JWT env) in
  let apiKey := default "" (PINATA_API_KEY env) in
  let apiSecret := default "" (PINATA_API_SECRET env) in
  if (negb (String.eqb jwt "") && (0 <? String.length (trim jwt))%nat)%bool then
    Ok [("Authorization"%string, ("Bearer " +:+ jwt)%string)]
  else if (negb (String.eqb apiKey "") && negb (String.eqb apiSecret ""))%bool then
    Ok [("pinata_api_key"%string, apiKey); ("pinata_secret_api_key"%string, apiSecret)]
  else
    Throw "Pinata credentials missing. Set PINATA_JWT or PINATA_API_KEY and PINATA_API_SECRET.".

(** [JSON.stringify] of an object literal, as text for a form field. *)
Definition stringified (v : jsval) : string := default "undefined" (JSON_stringify v).

Definition pinRequest (authHeaders : list (string * string)) (ciphertext : Ciphertext)
    (metadata : UploadMetadata) : PinRequest :=
  let filename := or_default (fileName metadata) "encrypted.bin" in
  {| req_url := PIN_FILE_URL;
     req_headers := authHeaders;
     req_file := match ciphertext with
                 | ABlob content _ | AUint8Array content => content
                 end;
     req_fileType := match ciphertext with
                     | ABlob _ type => type
                     | AUint8Array _ => or_default (mimeType metadata) "application/octet-stream"
                     end;
     req_filename := filename;
     req_pinataMetadata :=
       stringified
         (VObj [ ("name", VStr filename);
                 ("keyvalues",
                  VObj [ ("mimeType",
                          VStr (or_default (mimeType metadata) "application/octet-stream"));
                         ("sha256", VStr (or_default (sha256 metadata) ""));
                         ("encrypted", VStr "true");
                         ("app", VStr "LY-Project") ]) ]);
     req_pinataOptions := stringified (VObj [ ("cidVersion", VNum 1%float) ]) |}.

Definition scopeHint : string :=
  " Hint: Ensure your Pinata JWT has the pinFileToIPFS scope, or use API key/secret.".

(** [uploadEncryptedFile], with the requests it sent; [api] is the
    pinning API. *)
Definition uploadEncryptedFile (env : Credentials) (api : PinRequest -> Reply)
    (ciphertext : Ciphertext) (metadata : UploadMetadata)
    : list PinRequest * Result UploadResult :=
  match getAuthHeaders env with
  | Throw e => ([], Throw e)
  | Ok authHeaders =>
      let request := pinRequest authHeaders ciphertext metadata in
      ([request],
       match api request with
       | NetworkError m => Throw m
       | Responded response =>
           if negb (res_ok response) then
             let text := match res_body response with
                         | Ok b => TextDecoder_decode b
                         | Throw _ => ""
                         end in
             let hint := if str_includes "scope" (toLowerCase text) then scopeHint else "" in
             Throw ("Pinata upload failed (" +:+ pretty (res_status response) +:+ "): "
                    +:+ or_else text (res_statusText response) +:+ "." +:+ hint)
           else
             body ← res_body response;
             json ← JSON_parse (TextDecoder_decode body);
             ipfsHash ← get_prop json "IpfsHash";
             pinSize ← get_prop json "PinSize";
             Ok {| cid := ipfsHash; size := nullish_coalesce pinSize (VNum 0%float) |}
       end)
  end.

(** The text [Missing file field (must be Blob/File) named "file"]. *)
Definition missingFile : string :=
  let quote := String (ascii_of_nat 34) EmptyString in
  "Missing file field (must be Blob/File) named " +:+ quote +:+ "file" +:+ quote.

(** [POST] of the storage route: the requests sent on, the status and
    the body of the answer. *)
Definition POST (env : Credentials) (api : PinRequest -> Reply) (form : StorageForm)
    : list PinRequest * (Z * Json) :=
  let fileName := or_default (form_fileName form) "encrypted.bin" in
  let mimeType := or_default (form_mimeType form) "application/octet-stream" in
  let sha256 := or_default (form_sha256 form) "" in
  match form_file form with
  | Some (upload_route.EntryFile file) =>
      match uploadEncryptedFile env api (ABlob (file_bytes file) (file_type file))
              {| fileName := Some fileName; mimeType := Some mimeType;
                 sha256 := Some sha256 |} with
      | (sent, Ok result) => (sent, (200, PinnedJson (cid result) (size result)))
      | (sent, Throw message) => (sent, (500, FailedJson "Upload failed" message))
      end
  | _ => ([], (400, MissingFileJson missingFile))
  end.

End Pinning.
End pinning.

(** ** Reading the configuration of the pinning client *)

(** The token variable holds more than white space. *)
Definition has_token (env : pinning.Credentials) (jwt : string) : Prop :=
  pinning.PINATA_JWT env = Some jwt /\ trim jwt <> ""%string.

(** Both variables of the key pair are set and not empty. *)
Definition has_key_pair (env : pinning.Credentials) : Prop :=
  exists apiKey apiSecret,
    pinning.PINATA_API_KEY env = Some apiKey /\ apiKey <> ""%string /\
    pinning.PINATA_API_SECRET env = Some apiSecret /\ apiSecret <> ""%string.

(** A pinning API that accepts every upload. *)
Definition sample_api (request : pinning.PinRequest) : Reply :=
  Responded {| res_status := 200; res_statusText := "OK";
               res_body := Ok (list_byte_of_string "pinned") |}.

Definition sample_storage_form : pinning.StorageForm :=
  {| pinning.form_file := Some (upload_route.EntryFile sample_file);
     pinning.form_fileName := Some "scan 1.pdf"%string;
     pinning.form_mimeType := Some "application/pdf"%string;
     pinning.form_sha256 := Some "abc"%string |}.

(** ** The file name shown for an attachment
    (doctor/view-records/[patientId]/page.tsx, HealthTimeline.tsx) *)
Module record_pages.

(** [s.split('/')]. *)
Fixpoint split_slash (s : string) : list string :=
  match s with
  | EmptyString => [EmptyString]
  | String c s' =>
      if Ascii.eqb c "/" then EmptyString :: split_slash s'
      else match split_slash s' with
           | segment :: rest => String c segment :: rest
           | [] => [String c EmptyString]
           end
  end.

(** [getFileName] of the doctor's page. *)
Definition getFileName (url : string) : string :=
  let parts := split_slash url in
  let filename := default "" (parts !! (length parts - 1)%nat) in
  or_else filename "Attachment".

(** [url.split('/').pop()] of the timeline. *)
Definition lastSegment (url : string) : option string :=
  list.last (split_slash url).

End record_pages.

(** * Properties *)

(** ** The reference platform satisfies the laws *)

(** Induction on values, with the hypothesis available for every element
    of an array and every property value of an object. *)
Fixpoint jsval_nested_ind (Q : jsval -> Prop)
    (Hundef : Q VUndefined) (Hnull : Q VNull) (Hbool : forall b, Q (VBool b))
    (Hnum : forall x, Q (VNum x)) (Hstr : forall s, Q (VStr s))
    (Harr : forall elems, Forall Q elems -> Q (VArr elems))
    (Hobj : forall props, Forall (fun p => Q (snd p)) props -> Q (VObj props))
    (v : jsval) {struct v} : Q v :=
  let rec := jsval_nested_ind Q Hundef Hnull Hbool Hnum Hstr Harr Hobj in
  match v with
  | VUndefined => Hundef
  | VNull => Hnull
  | VBool b => Hbool b
  | VNum x => Hnum x
  | VStr s => Hstr s
  | VArr elems =>
      Harr elems
        ((fix all (l : list jsval) : Forall Q l :=
            match l with
            | [] => Forall_nil Q
            | e :: l' => Forall_cons Q e l' (rec e) (all l')
            end) elems)
  | VObj props =>
      Hobj props
        ((fix all (l : list (string * jsval)) : Forall (fun p => Q (snd p)) l :=
            match l with
            | [] => Forall_nil _
            | p :: l' => Forall_cons (fun p => Q (snd p)) p l' (rec (snd p)) (all l')
            end) props)
  end.

Lemma reference_float_tree (x : float) :
  reference.float_of_tree (reference.float_to_tree x) = Some x.
Proof.
  unfold reference.float_to_tree.
  pose proof (SF2Prim_Prim2SF x) as Hx.
  destruct (Prim2SF x) as [s|s| |s m e]; try destruct s;
    rewrite <- Hx; reflexivity.
Qed.

Lemma reference_of_to_tree (v : jsval) :
  reference.of_tree (reference.to_tree v) = Some v.
Proof.
  induction v using jsval_nested_ind; simpl; try reflexivity.
  - destruct b; reflexivity.
  - rewrite reference_float_tree. reflexivity.
  - rewrite mapM_fmap_Forall_Some by assumption. reflexivity.
  - rewrite (mapM_fmap_Forall_Some _ _ props).
    + reflexivity.
    + induction H as [|[k v] props' Hv _ IH]; constructor; [|exact IH].
      simpl in *. rewrite Hv. reflexivity.
Qed.

Lemma reference_parse_stringify (v : jsval) (s : string) :
  reference.stringify v = Some s -> reference.parse s = Ok v.
Proof.
  intros Hs.
  assert (s = NilEmpty.string_of_uint (Pos.to_uint (encode (reference.to_tree v)))) as ->.
  { destruct v; unfold reference.stringify in Hs; try discriminate;
      injection Hs as <-; reflexivity. }
  unfold reference.parse.
  rewrite NilEmpty.usu, Unsigned.of_to, decode_encode. simpl.
  rewrite reference_of_to_tree. reflexivity.
Qed.

Lemma reference_aes_gcm_correct : aes_gcm_correct reference.platform.
Proof.
  intros key iv plaintext _ _. simpl. unfold reference.unseal, reference.seal.
  rewrite app_assoc, <- length_app, take_app_length, drop_app_length.
  rewrite bool_decide_eq_true_2 by reflexivity. reflexivity.
Qed.

Lemma reference_base64_roundtrip : base64_roundtrip reference.platform.
Proof. intros b. apply list_byte_of_string_of_list_byte. Qed.

Lemma reference_utf8_roundtrip : utf8_roundtrip reference.platform.
Proof. intros v s _. apply string_of_list_byte_of_string. Qed.

Lemma reference_json_roundtrip : json_roundtrip reference.platform.
Proof.
  intros v Hv. simpl.
  destruct (reference.stringify v) as [s|] eqn:Hs.
  - exists s. split; [reflexivity|]. apply reference_parse_stringify, Hs.
  - destruct v; simpl in *; try discriminate. contradiction.
Qed.

Lemma reference_iso_roundtrip : iso_roundtrip reference.platform.
Proof.
  intros t. simpl. unfold reference.iso_of.
  rewrite NilEmpty.isi. simpl. rewrite DecimalZ.of_to. reflexivity.
Qed.

Lemma reference_key_configured : key_configured reference.platform reference.env1.
Proof.
  exists (string_of_list_byte reference.key1).
  split; [reflexivity|]. split; [discriminate|].
  vm_compute. reflexivity.
Qed.

(** ** The application-record cipher (crypto.ts) *)

Section CryptoFacts.
Context {P : Platform}.

Lemma getCryptoKey_configured (env : Env) :
  key_configured P env ->
  exists key, getCryptoKey env = Ok key /\ length key = 32%nat.
Proof.
  intros (keyB64 & Henv & Hne & Hlen). unfold getCryptoKey. rewrite Henv.
  destruct (String.eqb_spec keyB64 "") as [->|_]; [contradiction|].
  rewrite Hlen. simpl. eauto.
Qed.

(** Encryption succeeds exactly when the key is configured. *)
Lemma encryptObject_Ok (env : Env) (iv : bytes) (data : jsval) :
  key_configured P env -> exists blob, encryptObject env iv data = Ok blob.
Proof.
  intros Hkey. destruct (getCryptoKey_configured env Hkey) as (key & Hk & _).
  unfold encryptObject. rewrite Hk. simpl. eauto.
Qed.


(** C7. With a configured key that decodes to exactly 32 bytes, and the
    platform codecs and cipher inverting what they produce, decrypting the
    blob that [encryptObject] returns for a JSON value [v] (under any
    12-byte nonce) gives back [v]. *)
Theorem decryptObject_encryptObject (env : Env) (iv : bytes) (v : jsval) :
  aes_gcm_correct P -> base64_roundtrip P -> utf8_roundtrip P -> json_roundtrip P ->
  key_configured P env ->
  length iv = 12%nat ->
  is_json v ->
  exists blob, encryptObject env iv v = Ok blob /\ decryptObject env (Some blob) = Ok v.
Proof.
  intros Haes Hb64 Hutf Hjson Hkey Hiv Hv.
  destruct (getCryptoKey_configured env Hkey) as (key & Hk & Hlen).
  destruct (Hjson v Hv) as (s & Hs & Hparse).
  unfold encryptObject. rewrite Hk. simpl. eexists. split; [reflexivity|].
  unfold decryptObject. simpl. rewrite Hk. simpl.
  unfold base64ToArrayBuffer, arrayBufferToBase64. rewrite !Hb64.
  rewrite Haes by assumption. simpl.
  rewrite Hs. simpl. rewrite (Hutf v s Hs). exact Hparse.
Qed.

End CryptoFacts.

Lemma decryptObject_encryptObject_witness :
  exists blob,
    encryptObject reference.env1 reference.iv1 sample_value = Ok blob /\
    decryptObject reference.env1 (Some blob) = Ok sample_value.
Proof.
  apply (decryptObject_encryptObject (P := reference.platform)).
  - exact reference_aes_gcm_correct.
  - exact reference_base64_roundtrip.
  - exact reference_utf8_roundtrip.
  - exact reference_json_roundtrip.
  - exact reference_key_configured.
  - reflexivity.
  - simpl. repeat split; apply (bool_decide_unpack _); vm_compute; reflexivity.
Defined.

(** ** The connection workflow (firestore.ts) *)

Lemma includes_arrayUnion (x : string) (arr : option (list string)) :
  includes (arrayUnion x arr) x = true.
Proof.
  destruct arr as [l|]; simpl.
  - destruct (bool_decide (x ∈ l)) eqn:E; simpl.
    + exact E.
    + apply bool_decide_eq_true. set_solver.
  - apply bool_decide_eq_true. set_solver.
Qed.

Lemma includes_arrayUnion_mono (x y : string) (arr : option (list string)) :
  includes arr x = true -> includes (arrayUnion y arr) x = true.
Proof.
  destruct arr as [l|]; simpl; [|discriminate].
  intros H%bool_decide_eq_true.
  destruct (bool_decide (y ∈ l)); simpl; apply bool_decide_eq_true; set_solver.
Qed.

Lemma updateDoc_user_Some (w : World) (userId : string) (u : UserDocument)
    (f : UserDocument -> UserDocument) :
  users w !! userId = Some u ->
  updateDoc_user w userId f = Ok (set_users w (<[userId := f u]> (users w))).
Proof. intros H. unfold updateDoc_user. rewrite H. reflexivity. Qed.

Lemma createConnectionRequest_connected (w : World) (doctorId patientId : string)
    (doctorDoc patientDoc : UserDocument) :
  users w !! doctorId = Some doctorDoc ->
  users w !! patientId = Some patientDoc ->
  includes (successfulConnections doctorDoc) patientId = true ->
  firestore.createConnectionRequest w doctorId patientId =
    (w, failed "You are already connected with this patient.").
Proof.
  intros Hd Hp Hs. unfold firestore.createConnectionRequest, firestore.getUserDocument.
  rewrite Hd, Hp, Hs. reflexivity.
Qed.


(** The two writes of a request that goes through. *)
Lemma createConnectionRequest_fresh (w : World) (doctorId patientId : string)
    (doctorDoc patientDoc : UserDocument) :
  users w !! doctorId = Some doctorDoc ->
  users w !! patientId = Some patientDoc ->
  includes (successfulConnections doctorDoc) patientId = false ->
  includes (pendingConnections doctorDoc) patientId = false ->
  let d1 := with_pending (arrayUnion patientId) doctorDoc in
  let p0 := if decide (doctorId = patientId) then d1 else patientDoc in
  firestore.createConnectionRequest w doctorId patientId =
    (set_users w (<[patientId := with_pending (arrayUnion doctorId) p0]>
                    (<[doctorId := d1]> (users w))), succeeded).
Proof.
  intros Hd Hp Hs Hq d1 p0.
  unfold firestore.createConnectionRequest, firestore.getUserDocument.
  rewrite Hd, Hp, Hs, Hq, (updateDoc_user_Some _ _ _ _ Hd). fold d1.
  assert (users (set_users w (<[doctorId := d1]> (users w))) !! patientId = Some p0) as H1.
  { simpl. subst p0. destruct (decide (doctorId = patientId)) as [->|Hne].
    - apply lookup_insert_eq.
    - rewrite lookup_insert_ne by assumption. exact Hp. }
  rewrite (updateDoc_user_Some _ _ _ _ H1). reflexivity.
Qed.



(** ** Converting the dates of a stored record (firestore.ts) *)

Section ConvertFacts.
Context {P : Platform}.

(** The conversion copies the owner and the type. *)
Lemma convertRecordTimestamps_Ok (now : Z) (data : Doc) (meta : firestore.RecordMeta) :
  firestore.convertRecordTimestamps now data = Ok meta ->
  firestore.meta_userId meta = data !! "userId" /\
  firestore.meta_type meta = data !! "type".
Proof.
  unfold firestore.convertRecordTimestamps. intros H.
  repeat match type of H with
         | (?m ≫= _) = Ok _ => destruct m; simpl in H; [|discriminate]
         end.
  injection H as <-. split; reflexivity.
Qed.

(** The converted dates are printed time values. *)
Lemma convertRecordTimestamps_dates (now : Z) (data : Doc) (meta : firestore.RecordMeta) :
  firestore.convertRecordTimestamps now data = Ok meta ->
  (exists t, firestore.meta_date meta = Date_toISOString t) /\
  (exists t, firestore.meta_createdAt meta = Date_toISOString t).
Proof.
  assert (forall d s, firestore.isoOrNow now d = Ok s -> exists t, s = Date_toISOString t)
    as Hiso.
  { intros [[t|]|] s; simpl; try discriminate; intros [= <-]; eauto. }
  unfold firestore.convertRecordTimestamps. intros H.
  destruct (firestore.getDate (data !! "date")) as [date|]; simpl in H; [|discriminate].
  destruct (firestore.getDate (data !! "createdAt")) as [createdAt|]; simpl in H;
    [|discriminate].
  destruct (if field_truthy (data !! "diagnosis") then _ else _); simpl in H;
    [|discriminate].
  destruct (firestore.isoOrNow now date) as [s1|] eqn:E1; simpl in H; [|discriminate].
  destruct (firestore.isoOrNow now createdAt) as [s2|] eqn:E2; simpl in H; [|discriminate].
  injection H as <-. simpl. split; eapply Hiso; eassumption.
Qed.

(** Whether the conversion throws does not depend on the clock. *)
Lemma convertRecordTimestamps_clock (now now' : Z) (data : Doc) (meta : firestore.RecordMeta) :
  firestore.convertRecordTimestamps now data = Ok meta ->
  exists meta', firestore.convertRecordTimestamps now' data = Ok meta'.
Proof.
  assert (forall d s, firestore.isoOrNow now d = Ok s ->
                      exists s', firestore.isoOrNow now' d = Ok s') as Hiso.
  { intros [[t|]|] s; simpl; try discriminate; eauto. }
  unfold firestore.convertRecordTimestamps. intros H.
  destruct (firestore.getDate (data !! "date")) as [date|]; simpl in *; [|discriminate].
  destruct (firestore.getDate (data !! "createdAt")) as [createdAt|]; simpl in *;
    [|discriminate].
  destruct (field_truthy (data !! "diagnosis")).
  - destruct (firestore.getDate_value _) as [d|]; simpl in *; [|discriminate].
    destruct (firestore.isoOrNow now d) as [s0|] eqn:E0; simpl in *; [|discriminate].
    destruct (Hiso _ _ E0) as [s0' ->]. simpl.
    destruct (firestore.isoOrNow now date) as [s1|] eqn:E1; simpl in *; [|discriminate].
    destruct (Hiso _ _ E1) as [s1' ->]. simpl.
    destruct (firestore.isoOrNow now createdAt) as [s2|] eqn:E2; simpl in *; [|discriminate].
    destruct (Hiso _ _ E2) as [s2' ->]. simpl. eauto.
  - simpl in *.
    destruct (firestore.isoOrNow now date) as [s1|] eqn:E1; simpl in *; [|discriminate].
    destruct (Hiso _ _ E1) as [s1' ->]. simpl.
    destruct (firestore.isoOrNow now createdAt) as [s2|] eqn:E2; simpl in *; [|discriminate].
    destruct (Hiso _ _ E2) as [s2' ->]. simpl. eauto.
Qed.

(** A record that was read had its dates converted. *)
Lemma readRecord_Ok_converted (env : Env) (now : Z) (recordId : string) (data : Doc)
    (logs : list LogEntry) (r : HealthRecord) :
  firestore.readRecord env now recordId data = (logs, Ok r) ->
  exists meta,
    firestore.convertRecordTimestamps now data = Ok meta /\
    logs = (firestore.decryptedPayload env recordId data).1 /\
    firestore.buildRecord recordId meta (firestore.decryptedPayload env recordId data).2 = Ok r.
Proof.
  unfold firestore.readRecord.
  destruct (firestore.convertRecordTimestamps now data) as [meta|e]; [|discriminate].
  destruct (firestore.decryptedPayload env recordId data) as [l d]. intros [= <- H].
  exists meta. repeat split. exact H.
Qed.

Lemma readRecord_converted (env : Env) (now : Z) (recordId : string) (data : Doc)
    (meta : firestore.RecordMeta) :
  firestore.convertRecordTimestamps now data = Ok meta ->
  firestore.readRecord env now recordId data =
    ((firestore.decryptedPayload env recordId data).1,
     firestore.buildRecord recordId meta (firestore.decryptedPayload env recordId data).2).
Proof.
  unfold firestore.readRecord. intros ->.
  destruct (firestore.decryptedPayload env recordId data). reflexivity.
Qed.

End ConvertFacts.

(** ** The consent gate (actions.ts) *)

Section ConsentGate.
Context {P : Platform}.

(** A record that is read carries the stored [userId]. *)
Lemma getHealthRecord_owner (w : World) (env : Env) (now : Z) (recordId : string)
    (record : HealthRecord) :
  (firestore.getHealthRecord w env now recordId).2 = Ok (Some record) ->
  exists data, healthRecords w !! recordId = Some data /\
               rec_userId record = data !! "userId" /\
               rec_id record = recordId.
Proof.
  unfold firestore.getHealthRecord.
  destruct (healthRecords w !! recordId) as [data|]; [|discriminate].
  destruct (firestore.readRecord env now recordId data) as [logs [r|e]] eqn:Hread;
    [|discriminate].
  simpl. intros [= <-]. exists data. split; [reflexivity|].
  destruct (readRecord_Ok_converted _ _ _ _ _ _ Hread) as (meta & Hmeta & _ & E).
  apply convertRecordTimestamps_Ok in Hmeta as [Hu _].
  unfold firestore.buildRecord in E.
  repeat match type of E with
         | context [get_prop ?o ?k] => destruct (get_prop o k); simpl in E; [|discriminate]
         end.
  injection E as <-. split; [exact Hu|reflexivity].
Qed.

(** The answers of the three guarded actions do not depend on the ledger. *)
Lemma getHealthRecord_ledger (w : World) (l : Z -> string -> bool) (env : Env)
    (now : Z) (recordId : string) :
  firestore.getHealthRecord (set_ledger w l) env now recordId =
  firestore.getHealthRecord w env now recordId.
Proof. reflexivity. Qed.

(** C1. Let the doctor's document not list the patient among its
    successful connections.  Then, whatever the ledger answers to access
    queries, reading the patient's records fails with the permission
    error, reading any single record of the patient fails with the
    permission error, and adding a diagnosis to such a record returns the
    unsuccessful not-connected result and leaves the stores as they
    were. *)
Theorem consent_gate_denies (w : World) (env : Env) (iv : bytes) (now : Z)
    (doctorId patientId : string) (doctorDoc : UserDocument)
    (hasAccess : Z -> string -> bool) :
  doctorId <> ""%string ->
  users w !! doctorId = Some doctorDoc ->
  includes (successfulConnections doctorDoc) patientId = false ->
  let w' := set_ledger w hasAccess in
  actions.getPatientRecordsForDoctor w' env now doctorId patientId =
    ([], Throw "You do not have permission to view these records.") /\
  forall (recordId : string) (record : HealthRecord) (diagnosisData : jsval),
    (firestore.getHealthRecord w' env now recordId).2 = Ok (Some record) ->
    rec_userId record = Some (FPlain (VStr patientId)) ->
    (actions.getPatientRecordForDoctor w' env now doctorId recordId).2 =
      Throw "You do not have permission to view this record." /\
    (actions.addDiagnosisToRecord w' env iv now doctorId recordId diagnosisData).2 =
      Ok (w', failed "You are not connected with this patient.").
Proof.
  intros Hne Hd Hs w'. split.
  - unfold actions.getPatientRecordsForDoctor, firestore.getUserDocument.
    destruct (String.eqb_spec doctorId "") as [->|_]; [contradiction|].
    simpl. rewrite Hd, Hs. reflexivity.
  - intros recordId record diagnosisData Hrec Hown.
    unfold actions.getPatientRecordForDoctor, actions.addDiagnosisToRecord.
    destruct (firestore.getHealthRecord w' env now recordId) as [logs res].
    simpl in Hrec. subst res.
    unfold firestore.getUserDocument. simpl. rewrite Hd, Hown. simpl. rewrite Hs.
    split; reflexivity.
Qed.

(** The gate opens for a connected doctor: the records are those of
    [getHealthRecords]. *)
Lemma consent_gate_admits (w : World) (env : Env) (now : Z)
    (doctorId patientId : string) (doctorDoc : UserDocument) :
  doctorId <> ""%string ->
  users w !! doctorId = Some doctorDoc ->
  includes (successfulConnections doctorDoc) patientId = true ->
  actions.getPatientRecordsForDoctor w env now doctorId patientId =
    firestore.getHealthRecords w env now patientId.
Proof.
  intros Hne Hd Hs. unfold actions.getPatientRecordsForDoctor, firestore.getUserDocument.
  destruct (String.eqb_spec doctorId "") as [->|_]; [contradiction|].
  rewrite Hd, Hs. reflexivity.
Qed.

(** Even a record that cannot be read gives nothing away: for any stored
    record of the patient, the read never returns and the write never
    changes the stores. *)
Lemma consent_gate_no_access (w : World) (env : Env) (iv : bytes) (now : Z)
    (doctorId patientId recordId : string) (doctorDoc : UserDocument) (data : Doc)
    (diagnosisData : jsval) :
  users w !! doctorId = Some doctorDoc ->
  includes (successfulConnections doctorDoc) patientId = false ->
  healthRecords w !! recordId = Some data ->
  data !! "userId" = Some (FPlain (VStr patientId)) ->
  (exists e, (actions.getPatientRecordForDoctor w env now doctorId recordId).2 = Throw e) /\
  (forall w' res,
     (actions.addDiagnosisToRecord w env iv now doctorId recordId diagnosisData).2 =
       Ok (w', res) ->
     w' = w /\ success res = false).
Proof.
  intros Hd Hs Hdata Hown.
  unfold actions.getPatientRecordForDoctor, actions.addDiagnosisToRecord.
  destruct (firestore.getHealthRecord w env now recordId) as [logs [[record|]|e]] eqn:E;
    simpl.
  - destruct (getHealthRecord_owner w env now recordId record) as (data' & Hd' & Hu & _).
    { rewrite E. reflexivity. }
    rewrite Hdata in Hd'. injection Hd' as <-.
    unfold firestore.getUserDocument. rewrite Hd, Hu, Hown. simpl. rewrite Hs. simpl.
    split; [eauto|]. intros w' res [= <- <-]. split; reflexivity.
  - split; [eauto|]. intros w' res [= <- <-]. split; reflexivity.
  - split; [eauto|]. discriminate.
Qed.

End ConsentGate.

Lemma consent_gate_denies_witness :
  ledger_hasAccess sample_world 0 "doc1" = true /\
  (actions.getPatientRecordsForDoctor (P := reference.platform)
     sample_world reference.env1 0 "doc1" "pat1").2 =
    Throw "You do not have permission to view these records." /\
  (actions.getPatientRecordForDoctor (P := reference.platform)
     sample_world reference.env1 0 "doc1" "rec1").2 =
    Throw "You do not have permission to view this record." /\
  (actions.addDiagnosisToRecord (P := reference.platform)
     sample_world reference.env1 reference.iv1 0 "doc1" "rec1" sample_diagnosis).2 =
    Ok (sample_world, failed "You are not connected with this patient.").
Proof.
  split; [reflexivity|].
  destruct (consent_gate_denies (P := reference.platform) sample_world reference.env1
              reference.iv1 0 "doc1" "pat1" sample_doctor (fun _ _ => true))
    as [Hall Hone]; [discriminate|reflexivity|reflexivity|].
  split; [exact (f_equal snd Hall)|].
  destruct (firestore.getHealthRecord (P := reference.platform)
              sample_world reference.env1 0 "rec1") as [logs res] eqn:E.
  assert (exists record, res = Ok (Some record) /\
                         rec_userId record = Some (FPlain (VStr "pat1"))) as (record & -> & Hown).
  { vm_compute in E. injection E as _ <-. eexists. split; reflexivity. }
  refine (Hone "rec1"%string record sample_diagnosis _ Hown).
  exact (f_equal snd E).
Defined.

(** ** File registration (contract.ts) *)

Lemma find_first {A} (p : A -> bool) (pre : list A) (x : A) (post : list A) :
  Forall (fun a => p a = false) pre -> p x = true ->
  find p (pre ++ x :: post) = Some x.
Proof.
  intros Hpre Hx. induction Hpre as [|a pre Ha _ IH]; simpl.
  - rewrite Hx. reflexivity.
  - rewrite Ha. exact IH.
Qed.

Lemma find_none {A} (p : A -> bool) (l : list A) :
  Forall (fun a => p a = false) l -> find p l = None.
Proof.
  intros H. induction H as [|a l Ha _ IH]; simpl; [reflexivity|].
  rewrite Ha. exact IH.
Qed.

(** C9. Once the [createFile] transaction is submitted and its receipt
    obtained, [createFileOnChain] returns the receipt's hash together with
    the file id decoded from the first log that parses as [FileCreated];
    when no log of the receipt parses as [FileCreated], the file id is the
    contract's total file count. *)
Theorem createFileOnChain_fileId (c : contract.Contract) (cid hash_ mimeType : string)
    (size : Z) (tx : contract.TransactionResponse) (receipt : contract.Receipt) :
  contract.createFile c cid hash_ mimeType size = Ok tx ->
  contract.wait tx = Ok receipt ->
  (forall pre event post parsed fid rest,
     contract.logs receipt = pre ++ event :: post ->
     Forall (fun log => contract.isFileCreated c log = false) pre ->
     contract.parseLog c event = contract.Parsed parsed ->
     contract.name parsed = "FileCreated"%string ->
     contract.args parsed = contract.ABigInt fid :: rest ->
     contract.createFileOnChain (Ok c) cid hash_ mimeType size =
       Ok {| contract.txHash := contract.hash receipt;
             contract.fileId := contract.ABigInt fid |}) /\
  (forall totalFiles,
     Forall (fun log => contract.isFileCreated c log = false) (contract.logs receipt) ->
     contract.getTotalFiles c = Ok totalFiles ->
     contract.createFileOnChain (Ok c) cid hash_ mimeType size =
       Ok {| contract.txHash := contract.hash receipt;
             contract.fileId := contract.ABigInt totalFiles |}).
Proof.
  intros Htx Hwait. split.
  - intros pre event post parsed fid rest Hlogs Hpre Hparse Hname Hargs.
    unfold contract.createFileOnChain. simpl. rewrite Htx. simpl. rewrite Hwait. simpl.
    rewrite Hlogs, (find_first _ pre event post Hpre).
    + rewrite Hparse. simpl. unfold contract.firstArgOrZero. rewrite Hargs. simpl.
      destruct (Z.eqb_spec fid 0) as [->|_]; reflexivity.
    + unfold contract.isFileCreated. rewrite Hparse, Hname. reflexivity.
  - intros totalFiles Hnone Htotal.
    unfold contract.createFileOnChain. simpl. rewrite Htx. simpl. rewrite Hwait. simpl.
    rewrite (find_none _ _ Hnone), Htotal. reflexivity.
Qed.

Lemma createFileOnChain_fileId_witness :
  contract.createFileOnChain (Ok sample_contract) "bafy1" "9f2c" "application/pdf" 2048 =
    Ok {| contract.txHash := "0xabc"; contract.fileId := contract.ABigInt 7 |}.
Proof.
  destruct (createFileOnChain_fileId sample_contract "bafy1" "9f2c" "application/pdf" 2048
              {| contract.wait := Ok sample_receipt |} sample_receipt eq_refl eq_refl)
    as [Hevent _].
  apply (Hevent [ {| contract.topics := ["Transfer"%string]; contract.data := "" |} ]
                {| contract.topics := ["FileCreated"%string]; contract.data := "bafy1" |}
                []
                {| contract.name := "FileCreated";
                   contract.args := [contract.ABigInt 7; contract.AAddress "0xowner";
                                     contract.AString "bafy1"] |}
                7 [contract.AAddress "0xowner"; contract.AString "bafy1"]).
  - reflexivity.
  - repeat constructor.
  - reflexivity.
  - reflexivity.
  - reflexivity.
Defined.

(** ** Sorting *)

Section SortFacts.
Context {A : Type} (cmp : A -> A -> Z).

Lemma sort_insert_Permutation (x : A) (l : list A) :
  sort_insert cmp x l ≡ₚ x :: l.
Proof.
  induction l as [|y l IH]; simpl; [reflexivity|].
  destruct (cmp x y <=? 0); [reflexivity|].
  rewrite IH. apply Permutation_swap.
Qed.

Lemma Array_sort_Permutation (l : list A) : Array_sort cmp l ≡ₚ l.
Proof.
  induction l as [|x l IH]; simpl; [reflexivity|].
  unfold Array_sort in *. simpl. rewrite sort_insert_Permutation, IH. reflexivity.
Qed.

(** Sorting by a comparator that agrees, on the elements at hand, with a
    total preorder given by an integer key. *)
Context (key : A -> Z).

Lemma sort_insert_sorted (x : A) (l : list A) :
  (forall y, y ∈ l -> cmp x y <= 0 <-> key y <= key x) ->
  StronglySorted (fun a b => key b <= key a) l ->
  StronglySorted (fun a b => key b <= key a) (sort_insert cmp x l).
Proof.
  intros Hcmp Hl. induction Hl as [|y l Hl IH Hy]; simpl.
  - repeat constructor.
  - assert (y ∈ y :: l) as Hin by (apply elem_of_cons; left; reflexivity).
    destruct (Z.leb_spec (cmp x y) 0) as [Hle|Hgt].
    + apply (Hcmp y Hin) in Hle.
      constructor; [constructor; assumption|].
      constructor; [exact Hle|].
      eapply Forall_impl; [|exact Hy]. simpl. intros z Hz. lia.
    + assert (key x < key y) as Hlt.
      { destruct (Z.le_gt_cases (key y) (key x)) as [H|H]; [|lia].
        apply (Hcmp y Hin) in H. lia. }
      constructor.
      * apply IH. intros z Hz. apply Hcmp, elem_of_cons. right. exact Hz.
      * rewrite sort_insert_Permutation. constructor; [lia|exact Hy].
Qed.

Lemma Array_sort_sorted (l : list A) :
  (forall x y, x ∈ l -> y ∈ l -> cmp x y <= 0 <-> key y <= key x) ->
  StronglySorted (fun a b => key b <= key a) (Array_sort cmp l).
Proof.
  induction l as [|x l IH]; intros Hcmp.
  - constructor.
  - unfold Array_sort in *. simpl. apply sort_insert_sorted.
    + intros y Hy. apply Hcmp; apply elem_of_cons; [left; reflexivity|right].
      rewrite <- (Array_sort_Permutation l). exact Hy.
    + apply IH. intros a b Ha Hb. apply Hcmp; apply elem_of_cons; right; assumption.
Qed.

End SortFacts.

Lemma mapM_Result_Ok {A B} (f : A -> Result B) (l : list A) (ys : list B) :
  mapM_Result f l = Ok ys -> Forall2 (fun x y => f x = Ok y) l ys.
Proof.
  revert ys. induction l as [|x l IH]; simpl; intros ys H.
  - injection H as <-. constructor.
  - destruct (f x) as [y|] eqn:Hx; [|discriminate].
    destruct (mapM_Result f l) as [ys'|]; [|discriminate].
    injection H as <-. constructor; [exact Hx|]. apply IH. reflexivity.
Qed.

Lemma mapM_Result_Throw {A B} (f : A -> Result B) (l : list A) (e : string) :
  mapM_Result f l = Throw e -> exists x, x ∈ l /\ f x = Throw e.
Proof.
  induction l as [|x l IH]; simpl; [discriminate|].
  destruct (f x) as [y|e'] eqn:Hx.
  - destruct (mapM_Result f l) as [ys'|e'']; [discriminate|].
    intros [= <-]. destruct IH as (x' & Hin & Hx'); [reflexivity|].
    exists x'. split; [apply elem_of_cons; right; exact Hin|exact Hx'].
  - intros [= <-]. exists x. split; [apply elem_of_cons; left; reflexivity|exact Hx].
Qed.

(** ** Reading records (firestore.ts) *)

Section ReadFacts.
Context {P : Platform}.

Lemma field_is_string_true (f : option FieldValue) (s : string) :
  field_is_string f s = true <-> f = Some (FPlain (VStr s)).
Proof.
  split.
  - destruct f as [[| |[]]|]; simpl; try discriminate.
    intros H%String.eqb_eq. subst. reflexivity.
  - intros ->. simpl. apply String.eqb_refl.
Qed.

Lemma queryByUserId_spec (w : World) (userId recordId : string) (data : Doc) :
  (recordId, data) ∈ firestore.queryByUserId w userId <->
  healthRecords w !! recordId = Some data /\
  data !! "userId" = Some (FPlain (VStr userId)).
Proof.
  unfold firestore.queryByUserId.
  rewrite list_elem_of_filter, elem_of_map_to_list. simpl.
  rewrite field_is_string_true. tauto.
Qed.

(** What [buildRecord] keeps from the metadata. *)
Lemma buildRecord_meta (recordId : string) (meta : firestore.RecordMeta)
    (decrypted : jsval) (r : HealthRecord) :
  firestore.buildRecord recordId meta decrypted = Ok r ->
  rec_id r = recordId /\ rec_userId r = firestore.meta_userId meta /\
  rec_date r = firestore.meta_date meta.
Proof.
  unfold firestore.buildRecord. intros E.
  repeat match type of E with
         | context [get_prop ?o ?k] => destruct (get_prop o k); simpl in E; [|discriminate]
         end.
  injection E as <-. repeat split.
Qed.

Lemma readRecord_Ok (env : Env) (now : Z) (recordId : string) (data : Doc)
    (r : HealthRecord) :
  (firestore.readRecord env now recordId data).2 = Ok r ->
  rec_id r = recordId /\
  exists t, rec_date r = Date_toISOString t.
Proof.
  destruct (firestore.readRecord env now recordId data) as [logs res] eqn:Hread.
  simpl. intros ->.
  destruct (readRecord_Ok_converted _ _ _ _ _ _ Hread) as (meta & Hmeta & _ & H).
  apply buildRecord_meta in H. destruct H as (H1 & _ & H2). split; [exact H1|].
  rewrite H2. apply (convertRecordTimestamps_dates _ _ _ Hmeta).
Qed.

(** C10. When [getHealthRecords] returns, its result lists exactly the
    stored records whose [userId] is the given one, each once, ordered by
    the [date] field from newest to oldest.  It fails only when one of
    these records cannot be assembled. *)
Theorem getHealthRecords_newest_first (w : World) (env : Env) (now : Z) (userId : string) :
  iso_roundtrip P ->
  match (firestore.getHealthRecords w env now userId).2 with
  | Ok records =>
      StronglySorted not_older records /\
      rec_id <$> records ≡ₚ fst <$> firestore.queryByUserId w userId /\
      NoDup (rec_id <$> records) /\
      (forall recordId, recordId ∈ rec_id <$> records <->
         exists data, healthRecords w !! recordId = Some data /\
                      data !! "userId" = Some (FPlain (VStr userId)))
  | Throw _ =>
      exists d e, d ∈ firestore.queryByUserId w userId /\
                  (firestore.readRecord env now d.1 d.2).2 = Throw e
  end.
Proof.
  intros Hiso. unfold firestore.getHealthRecords.
  set (docs := firestore.queryByUserId w userId).
  destruct (mapM_Result snd _) as [records|e] eqn:E; simpl.
  - apply mapM_Result_Ok, Forall2_fmap_l in E.
    assert (rec_id <$> records = fst <$> docs) as Hids.
    { clear -E. induction E as [|d r docs' records' Hr _ IH]; simpl; [reflexivity|].
      apply readRecord_Ok in Hr. destruct Hr as [-> _]. f_equal. exact IH. }
    assert (Forall (fun r => exists t, getTime r = Some t) records) as Htimes.
    { clear -E Hiso. induction E as [|d r docs' records' Hr _ IH]; [constructor|].
      constructor; [|exact IH].
      apply readRecord_Ok in Hr. destruct Hr as [_ [t Hdate]].
      unfold getTime. rewrite Hdate, Hiso. eauto. }
    set (sorted := Array_sort firestore.byDateDescending records).
    assert (sorted ≡ₚ records) as Hperm by apply Array_sort_Permutation.
    assert (NoDup (fst <$> docs)) as Hnodup.
    { subst docs. unfold firestore.queryByUserId.
      apply NoDup_fmap_fst.
      - intros k d1 d2 [_ H1]%list_elem_of_filter [_ H2]%list_elem_of_filter.
        apply elem_of_map_to_list in H1, H2. congruence.
      - apply list.NoDup_filter, NoDup_map_to_list. }
    split; [|split; [|split]].
    + pose (key := fun r : HealthRecord => default 0 (getTime r)).
      assert (StronglySorted (fun a b => key b <= key a) sorted) as Hs.
      { apply Array_sort_sorted. intros x y Hx Hy.
        rewrite list.Forall_forall in Htimes.
        destruct (Htimes x Hx) as [tx Htx], (Htimes y Hy) as [ty Hty].
        unfold firestore.byDateDescending, key. unfold getTime in *.
        rewrite Htx, Hty. simpl. lia. }
      assert (Forall (fun r => exists t, getTime r = Some t) sorted) as Hts
        by (rewrite Hperm; exact Htimes).
      clearbody sorted. clear -Hs Hts.
      induction Hs as [|a l Hl IH Ha]; [constructor|]. constructor.
      * apply IH. inversion Hts; assumption.
      * inversion Hts as [|? ? [ta Hta] Htl]; subst.
        rewrite list.Forall_forall in Ha, Htl |- *. intros b Hb.
        destruct (Htl b Hb) as [tb Htb]. exists ta, tb.
        specialize (Ha b Hb). unfold key in Ha. rewrite Hta, Htb in Ha.
        split; [exact Hta|]. split; [exact Htb|exact Ha].
    + rewrite Hperm, Hids. reflexivity.
    + rewrite Hperm, Hids. exact Hnodup.
    + intros recordId. rewrite Hperm, Hids.
      rewrite list_elem_of_fmap. split.
      * intros ([k data] & -> & Hin). exists data. apply queryByUserId_spec, Hin.
      * intros (data & Hdata). exists (recordId, data).
        split; [reflexivity|]. apply queryByUserId_spec, Hdata.
  - apply mapM_Result_Throw in E. destruct E as (o & Hin & Ho).
    apply list_elem_of_fmap in Hin. destruct Hin as (d & -> & Hd).
    exists d, e. split; assumption.
Qed.

End ReadFacts.

Lemma getHealthRecords_newest_first_witness :
  exists records,
    (firestore.getHealthRecords (P := reference.platform)
       sample_archive reference.env1 0 "pat1").2 = Ok records /\
    rec_date <$> records = ["1800000000000"; "1700000000000"; "1600000000000"]%string /\
    StronglySorted (not_older (P := reference.platform)) records.
Proof.
  pose proof (getHealthRecords_newest_first (P := reference.platform)
                sample_archive reference.env1 0 "pat1" reference_iso_roundtrip) as H.
  destruct (firestore.getHealthRecords sample_archive reference.env1 0 "pat1").2
    as [records|e] eqn:E.
  - exists records. split; [reflexivity|]. split; [|apply H].
    vm_compute in E. injection E as <-. reflexivity.
  - vm_compute in E. discriminate.
Defined.

(** ** Decryption failures while reading (firestore.ts) *)

Lemma concat_fmap_elem {A B} (f : A -> list B) (l : list A) (a : A) (b : B) :
  a ∈ l -> b ∈ f a -> b ∈ concat (f <$> l).
Proof.
  intros Ha Hb. induction l as [|a' l IH]; simpl.
  - inversion Ha.
  - apply elem_of_app. apply elem_of_cons in Ha as [<-|Ha]; [left|right; apply IH]; assumption.
Qed.

Lemma Forall2_elem_l {A B} (R : A -> B -> Prop) (l : list A) (k : list B) (a : A) :
  Forall2 R l k -> a ∈ l -> exists b, b ∈ k /\ R a b.
Proof.
  intros H Ha. induction H as [|a' b' l k Hab _ IH].
  - inversion Ha.
  - apply elem_of_cons in Ha as [->|Ha].
    + exists b'. split; [apply elem_of_cons; left; reflexivity|exact Hab].
    + destruct (IH Ha) as (b & Hb & Hr). exists b.
      split; [apply elem_of_cons; right; exact Hb|exact Hr].
Qed.

Section DecryptFailure.
Context {P : Platform}.

(** The record assembled from an empty payload. *)
Lemma buildRecord_empty (recordId : string) (meta : firestore.RecordMeta) :
  firestore.buildRecord recordId meta (VObj []) =
    Ok {| rec_id := recordId;
          rec_userId := firestore.meta_userId meta;
          rec_type := firestore.meta_type meta;
          rec_title := VStr "";
          rec_content := VStr "";
          rec_date := firestore.meta_date meta;
          rec_createdAt := firestore.meta_createdAt meta;
          rec_bloodPressure := VUndefined;
          rec_pulseRate := VUndefined;
          rec_diagnosis := VUndefined;
          rec_attachmentUrl := VUndefined;
          rec_attachmentCid := VUndefined;
          rec_attachmentEncryptionKey := VUndefined;
          rec_attachmentEncryptionIv := VUndefined |}.
Proof. reflexivity. Qed.

(** When the dates of a stored record do not convert, the reader throws
    before it decrypts anything. *)
Lemma getHealthRecord_conversion_throws (w : World) (env : Env) (now : Z)
    (recordId : string) (data : Doc) (e : string) :
  healthRecords w !! recordId = Some data ->
  firestore.convertRecordTimestamps now data = Throw e ->
  firestore.getHealthRecord w env now recordId =
    ([ {| log_text := "Error getting health record: "; log_subject := None;
          log_error := e |} ], Throw "Failed to fetch health record.").
Proof.
  intros Hdata Hconv. unfold firestore.getHealthRecord, firestore.readRecord.
  rewrite Hdata, Hconv. reflexivity.
Qed.

(** A date stored as a plain map of the year 10000 makes the reader
    throw, whatever the key. *)
Example getHealthRecord_date_out_of_range :
  firestore.getHealthRecord (P := reference.platform)
    (set_healthRecords sample_world
       {[ "rec1"%string := <["date" := FTimestamp 253402300800 0]> sample_doc ]})
    reference.env1 0 "rec1" =
    ([ {| log_text := "Error getting health record: "; log_subject := None;
          log_error := "Timestamp seconds out of range: 253402300800" |} ],
     Throw "Failed to fetch health record.").
Proof. vm_compute. reflexivity. Qed.

(** C4, as the code has it.  When the date fields of a stored record
    convert and its [encryptedData] fails to decrypt, both readers write
    one "Decryption failed for record" line with the record id and the
    error, and return the record with its metadata, an empty title, an
    empty content and every other sensitive field undefined; the failure
    does not reach the caller. *)
Theorem decrypt_failure_logged_and_blanked (w : World) (env : Env) (now : Z)
    (recordId : string) (data : Doc) (meta : firestore.RecordMeta) (e : string) :
  healthRecords w !! recordId = Some data ->
  firestore.convertRecordTimestamps now data = Ok meta ->
  field_truthy (data !! "encryptedData") = true ->
  decryptObject env (as_EncryptedBlob (data !! "encryptedData")) = Throw e ->
  let entry := {| log_text := "Decryption failed for record";
                  log_subject := Some recordId; log_error := e |} in
  exists r,
    firestore.buildRecord recordId meta (VObj []) = Ok r /\
    rec_title r = VStr "" /\ rec_content r = VStr "" /\
    rec_bloodPressure r = VUndefined /\ rec_pulseRate r = VUndefined /\
    rec_diagnosis r = VUndefined /\ rec_attachmentUrl r = VUndefined /\
    rec_attachmentCid r = VUndefined /\
    rec_attachmentEncryptionKey r = VUndefined /\
    rec_attachmentEncryptionIv r = VUndefined /\
    firestore.getHealthRecord w env now recordId = ([entry], Ok (Some r)) /\
    forall userId,
      data !! "userId" = Some (FPlain (VStr userId)) ->
      entry ∈ (firestore.getHealthRecords w env now userId).1 /\
      forall records,
        (firestore.getHealthRecords w env now userId).2 = Ok records -> r ∈ records.
Proof.
  intros Hdata Hmeta Htruthy Hfail entry.
  assert (firestore.readRecord env now recordId data =
            ([entry], firestore.buildRecord recordId meta (VObj []))) as Hread.
  { unfold firestore.readRecord, firestore.decryptedPayload.
    rewrite Hmeta, Htruthy, Hfail. reflexivity. }
  rewrite buildRecord_empty in Hread.
  eexists. split; [apply buildRecord_empty|]. simpl.
  do 9 (split; [reflexivity|]). split.
  - unfold firestore.getHealthRecord. rewrite Hdata, Hread. reflexivity.
  - intros userId Hown.
    assert ((recordId, data) ∈ firestore.queryByUserId w userId) as Hin
      by (apply queryByUserId_spec; split; assumption).
    unfold firestore.getHealthRecords.
    set (docs := firestore.queryByUserId w userId) in *.
    set (f := fun d : string * Doc => firestore.readRecord env now d.1 d.2).
    assert (entry ∈ concat (fst <$> (f <$> docs))) as Hlog.
    { rewrite <- list_fmap_compose.
      apply (concat_fmap_elem _ docs (recordId, data)); [exact Hin|].
      simpl. unfold f. simpl. rewrite Hread. simpl.
      apply elem_of_cons. left. reflexivity. }
    destruct (mapM_Result snd (f <$> docs)) as [records|e'] eqn:E; simpl.
    + split; [exact Hlog|]. intros records' [= <-].
      apply mapM_Result_Ok, Forall2_fmap_l in E.
      destruct (Forall2_elem_l _ _ _ _ E Hin) as (r' & Hr' & Hrec).
      simpl in Hrec. unfold f in Hrec. simpl in Hrec. rewrite Hread in Hrec.
      injection Hrec as <-.
      rewrite (Array_sort_Permutation firestore.byDateDescending records). exact Hr'.
    + split; [apply elem_of_app; left; exact Hlog|]. discriminate.
Qed.

End DecryptFailure.

(** Against C4 as the specification states it: with the record key changed, the sealed payload
    of the sample record no longer opens, and both readers still return the
    record, with an empty title and content, where reading under the right
    key gives the stored title. *)
Lemma decrypt_failure_not_surfaced :
  decryptObject (P := reference.platform) reference.env2
      (as_EncryptedBlob (sample_doc !! "encryptedData")) =
    Throw reference.seal_error /\
  (exists r, (firestore.getHealthRecord (P := reference.platform)
                sample_world reference.env1 0 "rec1").2 = Ok (Some r) /\
             rec_title r = VStr "Annual check-up") /\
  (exists r, (firestore.getHealthRecord (P := reference.platform)
                sample_world reference.env2 0 "rec1").2 = Ok (Some r) /\
             rec_title r = VStr "" /\ rec_content r = VStr "" /\
             rec_bloodPressure r = VUndefined) /\
  (exists r, (firestore.getHealthRecords (P := reference.platform)
                sample_world reference.env2 0 "pat1").2 = Ok [r] /\
             rec_title r = VStr "" /\ rec_content r = VStr "" /\
             rec_bloodPressure r = VUndefined).
Proof.
  vm_compute. split; [reflexivity|].
  split; [eexists; split; reflexivity|].
  split; eexists; repeat split.
Qed.

Lemma decrypt_failure_logged_and_blanked_witness :
  exists r,
    firestore.getHealthRecord (P := reference.platform) sample_world reference.env2 0 "rec1" =
      ([ {| log_text := "Decryption failed for record"; log_subject := Some "rec1"%string;
            log_error := reference.seal_error |} ], Ok (Some r)) /\
    rec_title r = VStr "".
Proof.
  destruct (firestore.convertRecordTimestamps (P := reference.platform) 0 sample_doc)
    as [meta|e] eqn:Hmeta; [|vm_compute in Hmeta; discriminate].
  destruct (decrypt_failure_logged_and_blanked (P := reference.platform)
              sample_world reference.env2 0 "rec1" sample_doc meta reference.seal_error)
    as (r & _ & Htitle & _ & _ & _ & _ & _ & _ & _ & _ & Hget & _).
  - reflexivity.
  - exact Hmeta.
  - reflexivity.
  - vm_compute. reflexivity.
  - exists r. split; [exact Hget|exact Htitle].
Defined.

(** ** What the store holds in plaintext (firestore.ts) *)

Lemma assoc_lookup_assoc_set {A} (k : string) (a : A) (l : list (string * A)) :
  assoc_lookup k (assoc_set k a l) = Some a.
Proof.
  induction l as [|[k' a'] l IH]; simpl.
  - rewrite String.eqb_refl. reflexivity.
  - destruct (String.eqb k k') eqn:E; simpl; rewrite ?String.eqb_refl, ?E; auto.
Qed.

Section StoredFields.
Context {P : Platform}.



(** The payload written by [addDiagnosisToRecord] carries the diagnosis. *)
Lemma updatedPayload_diagnosis (now : Z) (decrypted diagnosis : jsval) :
  get_prop (firestore.updatedPayload now decrypted diagnosis) "diagnosis" =
    Ok (VObj (assoc_set "createdAt" (VStr (Date_toISOString now)) (own_props diagnosis))).
Proof.
  unfold firestore.updatedPayload. simpl. rewrite assoc_lookup_assoc_set. reflexivity.
Qed.

(** [Timestamp.fromDate] returns the timestamp of the time value for a
    date of the years 0001 to 9999, and throws for any other. *)
Lemma Timestamp_fromDate_range (ms : Z) :
  Timestamp_range ms -> Timestamp_fromDate ms = Ok (Timestamp_of ms).
Proof.
  unfold Timestamp_range, Timestamp_fromDate, Timestamp_new, Timestamp_of. intros [Hlo Hhi].
  pose proof (Z.mod_pos_bound ms 1000 ltac:(lia)) as Hmod.
  destruct (Z.ltb_spec ((ms mod 1000) * 1000000) 0); [lia|].
  destruct (Z.leb_spec 1000000000 ((ms mod 1000) * 1000000)); [lia|].
  destruct (Z.ltb_spec (ms / 1000) MIN_SECONDS); [lia|].
  destruct (Z.leb_spec 253402300800 (ms / 1000)); [lia|]. reflexivity.
Qed.

Lemma Timestamp_fromDate_Ok (ms : Z) (f : FieldValue) :
  Timestamp_fromDate ms = Ok f -> Timestamp_range ms /\ f = Timestamp_of ms.
Proof.
  unfold Timestamp_range, Timestamp_fromDate, Timestamp_new, Timestamp_of.
  destruct (Z.ltb_spec ((ms mod 1000) * 1000000) 0); [discriminate|].
  destruct (Z.leb_spec 1000000000 ((ms mod 1000) * 1000000)); [discriminate|].
  destruct (Z.ltb_spec (ms / 1000) MIN_SECONDS); [discriminate|].
  destruct (Z.leb_spec 253402300800 (ms / 1000)); [discriminate|].
  intros [= <-]. split; [lia|reflexivity].
Qed.

(** What a successful [addHealthRecord] has written. *)
Lemma addHealthRecord_Ok (w w' : World) (env : Env) (iv : bytes) (now : Z)
    (newId userId recordId : string) (recordData : firestore.RecordData) :
  firestore.addHealthRecord w env iv now newId userId recordData = Ok (recordId, w') ->
  recordId = newId /\
  exists blob,
    encryptObject env iv (firestore.sensitivePayload recordData) = Ok blob /\
    w' = set_healthRecords w
           (<[newId := firestore.newRecordDoc now userId recordData blob]> (healthRecords w)).
Proof.
  unfold firestore.addHealthRecord.
  destruct (encryptObject env iv _) as [blob|]; [|discriminate].
  simpl.
  destruct (Timestamp_fromDate (firestore.data_date recordData)) as [date|] eqn:Hdate;
    [|discriminate].
  apply Timestamp_fromDate_Ok in Hdate as [_ ->].
  simpl. unfold firestore.addDoc. destruct (bool_decide _); [discriminate|].
  simpl. intros [= <- <-]. split; [reflexivity|]. exists blob. split; reflexivity.
Qed.

(** With a configured key, a record type and a date that a timestamp can
    hold, [addHealthRecord] goes through. *)
Lemma addHealthRecord_succeeds (w : World) (env : Env) (iv : bytes) (now : Z)
    (newId userId : string) (recordData : firestore.RecordData) :
  key_configured P env ->
  firestore.data_type recordData <> VUndefined ->
  Timestamp_range (firestore.data_date recordData) ->
  exists w', firestore.addHealthRecord w env iv now newId userId recordData = Ok (newId, w').
Proof.
  intros Hkey Htype Hrange. unfold firestore.addHealthRecord.
  destruct (encryptObject_Ok env iv (firestore.sensitivePayload recordData) Hkey) as [blob ->].
  simpl. rewrite (Timestamp_fromDate_range _ Hrange). simpl. unfold firestore.addDoc.
  rewrite bool_decide_eq_false_2; [simpl; eauto|].
  intros (k & f & Hk & Hf). unfold firestore.recordDoc in Hk.
  repeat (apply lookup_insert_Some in Hk as [[_ <-]|[_ Hk]]; [try discriminate|]).
  - destruct (firestore.data_type recordData); try discriminate. contradiction.
  - rewrite lookup_empty in Hk. discriminate.
Qed.


End StoredFields.


(** ** Retrieval with gateway fallback (pinata.ts) *)

Lemma length_append (s t : string) :
  String.length (s +:+ t) = (String.length s + String.length t)%nat.
Proof. induction s as [|c s IH]; simpl; [reflexivity|]. rewrite IH. reflexivity. Qed.

Lemma append_inj_r (s1 s2 t : string) : s1 +:+ t = s2 +:+ t -> s1 = s2.
Proof.
  revert s2. induction s1 as [|c1 s1 IH]; intros [|c2 s2] H; simpl in H.
  - reflexivity.
  - apply (f_equal String.length) in H. simpl in H. rewrite !length_append in H.
    simpl in H. lia.
  - apply (f_equal String.length) in H. simpl in H. rewrite !length_append in H.
    simpl in H. lia.
  - injection H as -> H. f_equal. apply IH, H.
Qed.

Lemma prefix_append (s t : string) : String.prefix s (s +:+ t) = true.
Proof.
  induction s as [|c s IH]; simpl; [destruct t; reflexivity|].
  destruct (ascii_dec c c); [exact IH|contradiction].
Qed.

Lemma str_includes_prefix (needle haystack : string) :
  String.prefix needle haystack = true -> str_includes needle haystack = true.
Proof. intros H. destruct haystack; cbn [str_includes]; rewrite H; reflexivity. Qed.

Lemma str_includes_append (needle before after : string) :
  str_includes needle (before +:+ needle +:+ after) = true.
Proof.
  induction before as [|c before IH].
  - change ("" +:+ needle +:+ after) with (needle +:+ after).
    apply str_includes_prefix, prefix_append.
  - change (String c before +:+ needle +:+ after)
      with (String c (before +:+ needle +:+ after)).
    cbn [str_includes]. destruct (String.prefix needle _); [reflexivity|exact IH].
Qed.

Lemma str_includes_skip (needle before rest : string) :
  str_includes needle rest = true -> str_includes needle (before +:+ rest) = true.
Proof.
  intros H. induction before as [|c before IH]; [exact H|].
  change (String c before +:+ rest) with (String c (before +:+ rest)).
  cbn [str_includes]. destruct (String.prefix needle _); [reflexivity|exact IH].
Qed.

Section RetrievalFacts.
Context {P : Platform}.

(** The final error names the last error (or says that it is unknown)
    and the CID. *)
Lemma allGatewaysFailed_carries (lastError : option string) (cid : string) :
  str_includes (or_else (default "" lastError) "Unknown error")
    (pinata.allGatewaysFailed lastError cid) = true /\
  str_includes cid (pinata.allGatewaysFailed lastError cid) = true.
Proof.
  unfold pinata.allGatewaysFailed. split.
  - apply str_includes_append.
  - do 4 apply str_includes_skip. apply str_includes_prefix, prefix_append.
Qed.

Lemma getGatewayBase_length (env : Env) :
  (29 <= String.length (pinata.getGatewayBase env))%nat.
Proof.
  unfold pinata.getGatewayBase.
  destruct (trim <$> PINATA_GATEWAY_SUBDOMAIN env) as [sub|]; [|simpl; lia].
  destruct (String.eqb_spec sub "") as [->|Hne]; [simpl; lia|].
  rewrite !length_append. destruct sub; [contradiction|]. simpl. lia.
Qed.

(** The gateway list never names a gateway twice. *)
Lemma gateways_NoDup (env : Env) : NoDup (pinata.gateways env).
Proof.
  unfold pinata.gateways. pose proof (getGatewayBase_length env) as Hlen.
  apply NoDup_cons_2.
  - intros Hin. repeat (apply elem_of_cons in Hin as [Hin|Hin];
      [rewrite Hin in Hlen; simpl in Hlen; lia|]).
    inversion Hin.
  - apply (bool_decide_unpack _). vm_compute. reflexivity.
Qed.

(** A gateway yields bytes exactly when it answers in time with a 2xx
    status and a non-empty body: a time-out, a network error, another
    status, an unreadable or an empty body all make the attempt throw. *)
Lemma fetchFromGateway_Ok_iff (net : Network) (gatewayBase cid : string) (b : bytes) :
  pinata.fetchFromGateway net gatewayBase cid = Ok b <->
  gateway_serves net gatewayBase cid b.
Proof.
  unfold pinata.fetchFromGateway, fetch_with_abort, gateway_serves.
  set (x := net _). simpl.
  destruct (Z.leb_spec 30000 (latency x)) as [Hslow|Hfast]; simpl.
  - split; [discriminate|]. intros [H _]. lia.
  - destruct (reply x) as [m|res]; simpl.
    + split; [discriminate|]. intros (_ & res & H & _). discriminate.
    + destruct (res_ok res) eqn:Hok; simpl.
      * destruct (res_body res) as [body|m] eqn:Hbody; simpl.
        -- destruct body as [|c body]; simpl.
           ++ split; [discriminate|].
              intros (_ & res' & [= <-] & _ & Hb & Hne).
              rewrite Hbody in Hb. injection Hb as <-. contradiction.
           ++ split.
              ** intros [= <-]. split; [assumption|]. exists res.
                 repeat split; try assumption. discriminate.
              ** intros (_ & res' & [= <-] & _ & Hb & _).
                 rewrite Hbody in Hb. exact Hb.
        -- split; [discriminate|].
           intros (_ & res' & [= <-] & _ & Hb & _).
           rewrite Hbody in Hb. discriminate.
      * split; [discriminate|].
        intros (_ & res' & [= <-] & Hok' & _). congruence.
Qed.

Lemma fetchFromGateway_fails (net : Network) (gatewayBase cid : string) :
  (forall b, ~ gateway_serves net gatewayBase cid b) ->
  exists e, pinata.fetchFromGateway net gatewayBase cid = Throw e.
Proof.
  intros H. destruct (pinata.fetchFromGateway net gatewayBase cid) as [b|e] eqn:E.
  - apply fetchFromGateway_Ok_iff in E. destruct (H b E).
  - eauto.
Qed.

(** The loop stops at the first gateway that serves the file. *)
Lemma tryGateways_first (net : Network) (cid : string) (pre : list string)
    (g : string) (post : list string) (b : bytes) (lastError : option string) :
  Forall (fun g' => forall b', ~ gateway_serves net g' cid b') pre ->
  gateway_serves net g cid b ->
  pinata.tryGateways net cid (pre ++ g :: post) lastError =
    (requestsTo cid (pre ++ [g]), Ok b).
Proof.
  intros Hpre Hg. revert lastError.
  induction Hpre as [|g' pre Hg' _ IH]; intros lastError; simpl.
  - apply fetchFromGateway_Ok_iff in Hg. rewrite Hg. reflexivity.
  - destruct (fetchFromGateway_fails net g' cid Hg') as [e ->].
    rewrite IH. reflexivity.
Qed.

(** With every gateway failing, the loop asks each once and reports the
    error of the last one. *)
Lemma tryGateways_exhausted (net : Network) (cid : string) (gs : list string)
    (lastError : option string) :
  Forall (fun g => forall b, ~ gateway_serves net g cid b) gs ->
  exists final,
    pinata.tryGateways net cid gs lastError =
      (requestsTo cid gs, Throw (pinata.allGatewaysFailed final cid)) /\
    match list.last gs with
    | Some g => exists e, pinata.fetchFromGateway net g cid = Throw e /\ final = Some e
    | None => final = lastError
    end.
Proof.
  intros Hall. revert lastError.
  induction Hall as [|g gs Hg _ IH]; intros lastError; simpl.
  - exists lastError. split; reflexivity.
  - destruct (fetchFromGateway_fails net g cid Hg) as [e He]. rewrite He.
    destruct (IH (Some e)) as (final & -> & Hfinal). exists final.
    split; [reflexivity|].
    destruct gs as [|g' gs'].
    + simpl in Hfinal. subst final. simpl. eauto.
    + change (list.last (g :: g' :: gs')) with (list.last (g' :: gs')).
      destruct (list.last (g' :: gs')) eqn:Hlast; [exact Hfinal|].
      apply last_None in Hlast. discriminate.
Qed.

(** The requests of a call go to an initial part of the gateway list. *)
Lemma tryGateways_attempts (net : Network) (cid : string) (gs : list string)
    (lastError : option string) :
  exists k, (pinata.tryGateways net cid gs lastError).1 = requestsTo cid (take k gs).
Proof.
  revert lastError. induction gs as [|g gs IH]; intros lastError; simpl.
  - exists 0%nat. reflexivity.
  - destruct (pinata.fetchFromGateway net g cid) as [b|e].
    + exists 1%nat. reflexivity.
    + destruct (IH (Some e)) as [k Hk].
      destruct (pinata.tryGateways net cid gs (Some e)) as [attempts outcome].
      simpl in *. exists (S k). rewrite Hk. reflexivity.
Qed.

(** C5. For a CID (a non-empty string), [getEncryptedFile] walks the
    gateway list (the pinning gateway, then three public ones, no gateway
    twice) in order, each request limited to 30 seconds.  A gateway that
    times out, is unreachable, answers outside 2xx or with an empty or
    unreadable body is passed over; the bytes of the first gateway that
    serves the file are the result, and no later gateway is asked.  When
    no gateway serves it, every gateway has been asked once and the error
    carries the last gateway's error and the CID. *)
Theorem getEncryptedFile_fallback (net : Network) (env : Env) (cid : string) :
  cid <> ""%string ->
  (exists fallback, pinata.gateways env = pinata.getGatewayBase env :: fallback /\
                    (2 <= length fallback)%nat) /\
  NoDup (pinata.gateways env) /\
  NoDup (attempt_url <$> (pinata.getEncryptedFile net env cid).1) /\
  Forall (fun a => attempt_timeout a = 30000) (pinata.getEncryptedFile net env cid).1 /\
  (forall pre g post b,
     pinata.gateways env = pre ++ g :: post ->
     Forall (fun g' => forall b', ~ gateway_serves net g' cid b') pre ->
     gateway_serves net g cid b ->
     pinata.getEncryptedFile net env cid = (requestsTo cid (pre ++ [g]), Ok b)) /\
  (Forall (fun g => forall b, ~ gateway_serves net g cid b) (pinata.gateways env) ->
     exists e,
       pinata.fetchFromGateway net "https://dweb.link/ipfs" cid = Throw e /\
       pinata.getEncryptedFile net env cid =
         (requestsTo cid (pinata.gateways env),
          Throw (pinata.allGatewaysFailed (Some e) cid)) /\
       str_includes (or_else e "Unknown error") (pinata.allGatewaysFailed (Some e) cid) = true /\
       str_includes cid (pinata.allGatewaysFailed (Some e) cid) = true).
Proof.
  intros Hcid.
  assert (pinata.getEncryptedFile net env cid =
            pinata.tryGateways net cid (pinata.gateways env) None) as Hget.
  { unfold pinata.getEncryptedFile.
    destruct (String.eqb_spec cid "") as [->|_]; [contradiction|reflexivity]. }
  rewrite Hget.
  destruct (tryGateways_attempts net cid (pinata.gateways env) None) as [k Hk].
  split; [eexists; split; [reflexivity|simpl; lia]|].
  split; [apply gateways_NoDup|].
  split; [|split; [|split]].
  - rewrite Hk. unfold requestsTo. rewrite <- list_fmap_compose.
    apply NoDup_fmap_2.
    + intros g1 g2 H. simpl in H. apply append_inj_r in H. exact H.
    + pose proof (gateways_NoDup env) as Hnd.
      rewrite <- (take_drop k (pinata.gateways env)) in Hnd.
      apply list.NoDup_app in Hnd as [Hnd _]. exact Hnd.
  - rewrite Hk. unfold requestsTo. apply Forall_fmap, Forall_true. reflexivity.
  - intros pre g post b Hsplit Hpre Hg. rewrite Hsplit.
    apply tryGateways_first; assumption.
  - intros Hall.
    destruct (tryGateways_exhausted net cid _ None Hall) as (final & Htry & e & He & ->).
    exists e. split; [exact He|]. split; [exact Htry|].
    apply (allGatewaysFailed_carries (Some e) cid).
Qed.

End RetrievalFacts.

Lemma getEncryptedFile_fallback_witness :
  pinata.getEncryptedFile (P := reference.platform) sample_net reference.env1 "bafy1" =
    (requestsTo "bafy1" [ "https://gateway.pinata.cloud/ipfs"%string;
                          "https://ipfs.io/ipfs"%string;
                          "https://gateway.ipfs.io/ipfs"%string ],
     Ok ["x"%byte; "y"%byte]).
Proof.
  destruct (getEncryptedFile_fallback (P := reference.platform)
              sample_net reference.env1 "bafy1") as (_ & _ & _ & _ & Hfirst & _);
    [discriminate|].
  apply (Hfirst [ "https://gateway.pinata.cloud/ipfs"%string; "https://ipfs.io/ipfs"%string ]
                "https://gateway.ipfs.io/ipfs"%string
                [ "https://dweb.link/ipfs"%string ]).
  - reflexivity.
  - repeat constructor; intros b' (_ & res & Hreply & _); vm_compute in Hreply; discriminate.
  - split; [reflexivity|]. eexists. repeat split. discriminate.
Defined.

(** When no gateway has the file, each of the four is asked once and the
    error names the last failure and the CID. *)
Example getEncryptedFile_exhausted :
  pinata.getEncryptedFile (P := reference.platform) sample_net reference.env1 "bafy2" =
    (requestsTo "bafy2" (pinata.gateways reference.env1),
     Throw ("Failed to fetch file from all IPFS gateways. Last error: fetch failed. "
            +:+ "CID: bafy2. Please verify the file is pinned in Pinata.")).
Proof. vm_compute. reflexivity. Qed.

(** A gateway that needs more than 30 seconds counts as failed. *)
Example getEncryptedFile_timeout :
  pinata.fetchFromGateway (P := reference.platform) sample_net "https://dweb.link/ipfs" "bafy1" =
    Throw "This operation was aborted".
Proof. vm_compute. reflexivity. Qed.

(** ** Reading an attachment (PinataFileViewer.tsx) *)

Section ViewerFacts.
Context {P : Platform}.

Lemma gets_no_digest (attempts : list Attempt) :
  Forall not_a_digest (PinataFileViewer.gets attempts).
Proof.
  unfold PinataFileViewer.gets. induction attempts as [|a attempts IH]; simpl.
  - constructor.
  - constructor; [intros input; discriminate|exact IH].
Qed.

Lemma decryptFile_no_digest (encryptedData : bytes) (keyBase64 ivBase64 : string) :
  Forall not_a_digest (PinataFileViewer.decryptFile encryptedData keyBase64 ivBase64).1.
Proof.
  unfold PinataFileViewer.decryptFile.
  destruct webcrypto_available; simpl; [|constructor].
  destruct (PinataFileViewer.base64ToArrayBuffer keyBase64); simpl; [|constructor].
  destruct (PinataFileViewer.base64ToArrayBuffer ivBase64); simpl; [|constructor].
  destruct (PinataFileViewer.importKey _); simpl; [|constructor].
  constructor; [intros input; discriminate|constructor].
Qed.

Lemma fetchAndDecrypt_no_digest (net : Network) (env : Env)
    (props : PinataFileViewer.Props) (fallback : string) (deliver : bytes -> Effect) :
  (forall b, not_a_digest (deliver b)) ->
  Forall not_a_digest
    (PinataFileViewer.view_effects
       (PinataFileViewer.fetchAndDecrypt net env props fallback deliver)).
Proof.
  intros Hdeliver. unfold PinataFileViewer.fetchAndDecrypt.
  destruct (String.eqb _ ""); simpl; [constructor|].
  destruct (pinata.getEncryptedFile net env _) as [attempts [encryptedData|e]]; simpl;
    [|apply gets_no_digest].
  destruct (_ && _)%bool; simpl; [|apply gets_no_digest].
  pose proof (decryptFile_no_digest encryptedData
                (default "" (PinataFileViewer.encryptionKey props))
                (default "" (PinataFileViewer.iv props))) as Hd.
  destruct (PinataFileViewer.decryptFile _ _ _) as [effects [decryptedData|e]]; simpl in *.
  - apply Forall_app. split; [apply gets_no_digest|].
    apply Forall_app. split; [exact Hd|]. constructor; [apply Hdeliver|constructor].
  - apply Forall_app. split; [apply gets_no_digest|exact Hd].
Qed.

(** C6, as the code has it.  Viewing or downloading an attachment computes
    no digest at all.  Once a gateway has delivered bytes and the props
    carry a usable key and nonce, these bytes go to AES-GCM decryption as
    they are: when it accepts them the result is opened (or downloaded),
    when it rejects them the handler reports "Decryption failed: ..."; a
    failed fetch is reported by the text for fetch errors. *)
Theorem attachment_read_decrypts_unverified (net : Network) (env : Env)
    (props : PinataFileViewer.Props) :
  Forall not_a_digest (PinataFileViewer.view_effects (PinataFileViewer.handleView net env props)) /\
  Forall not_a_digest (PinataFileViewer.view_effects (PinataFileViewer.handleDownload net env props)) /\
  (forall attempts encryptedData keyBase64 ivBase64 key ivBytes,
     PinataFileViewer.cid props <> ""%string ->
     pinata.getEncryptedFile net env (PinataFileViewer.cid props) = (attempts, Ok encryptedData) ->
     PinataFileViewer.encryptionKey props = Some keyBase64 -> keyBase64 <> ""%string ->
     PinataFileViewer.iv props = Some ivBase64 -> ivBase64 <> ""%string ->
     webcrypto_available = true ->
     atob keyBase64 = Ok key -> atob ivBase64 = Ok ivBytes ->
     PinataFileViewer.importKey key = Ok key ->
     match subtle_decrypt key ivBytes encryptedData with
     | Ok decryptedData =>
         PinataFileViewer.handleView net env props =
           {| PinataFileViewer.view_error := None;
              PinataFileViewer.view_effects :=
                PinataFileViewer.gets attempts ++
                [ Decrypt key ivBytes encryptedData;
                  OpenBlob decryptedData (PinataFileViewer.mimeType props) ] |} /\
         PinataFileViewer.handleDownload net env props =
           {| PinataFileViewer.view_error := None;
              PinataFileViewer.view_effects :=
                PinataFileViewer.gets attempts ++
                [ Decrypt key ivBytes encryptedData;
                  DownloadBlob (or_else (PinataFileViewer.fileName props) "attachment")
                    decryptedData ] |}
     | Throw e =>
         PinataFileViewer.handleView net env props =
           {| PinataFileViewer.view_error := Some ("Decryption failed: " +:+ e);
              PinataFileViewer.view_effects :=
                PinataFileViewer.gets attempts ++ [Decrypt key ivBytes encryptedData] |} /\
         PinataFileViewer.handleDownload net env props =
           {| PinataFileViewer.view_error := Some ("Decryption failed: " +:+ e);
              PinataFileViewer.view_effects :=
                PinataFileViewer.gets attempts ++ [Decrypt key ivBytes encryptedData] |}
     end) /\
  (forall attempts e,
     PinataFileViewer.cid props <> ""%string ->
     pinata.getEncryptedFile net env (PinataFileViewer.cid props) = (attempts, Throw e) ->
     PinataFileViewer.handleView net env props =
       {| PinataFileViewer.view_error :=
            Some (PinataFileViewer.fetchErrorText (PinataFileViewer.cid props)
                    "Failed to fetch file from Pinata" e);
          PinataFileViewer.view_effects := PinataFileViewer.gets attempts |} /\
     PinataFileViewer.handleDownload net env props =
       {| PinataFileViewer.view_error :=
            Some (PinataFileViewer.fetchErrorText (PinataFileViewer.cid props)
                    "Failed to download file" e);
          PinataFileViewer.view_effects := PinataFileViewer.gets attempts |}).
Proof.
  split; [apply fetchAndDecrypt_no_digest; intros b input; discriminate|].
  split; [apply fetchAndDecrypt_no_digest; intros b input; discriminate|].
  split.
  - intros attempts encryptedData keyBase64 ivBase64 key ivBytes
      Hcid Hget Hkey Hkne Hiv Hivne Hweb Hk Hi Himport.
    unfold PinataFileViewer.handleView, PinataFileViewer.handleDownload,
      PinataFileViewer.fetchAndDecrypt.
    destruct (String.eqb_spec (PinataFileViewer.cid props) "") as [?|_]; [contradiction|].
    rewrite Hget, Hkey, Hiv. simpl.
    destruct (String.eqb_spec keyBase64 "") as [?|_]; [contradiction|].
    destruct (String.eqb_spec ivBase64 "") as [?|_]; [contradiction|]. simpl.
    unfold PinataFileViewer.decryptFile, PinataFileViewer.base64ToArrayBuffer.
    rewrite Hweb, Hk, Hi, Himport. simpl.
    destruct (subtle_decrypt key ivBytes encryptedData); split; reflexivity.
  - intros attempts e Hcid Hget.
    unfold PinataFileViewer.handleView, PinataFileViewer.handleDownload,
      PinataFileViewer.fetchAndDecrypt.
    destruct (String.eqb_spec (PinataFileViewer.cid props) "") as [?|_]; [contradiction|].
    rewrite Hget. split; reflexivity.
Qed.

End ViewerFacts.

(** Against C6 as the specification states it: the gateway serves bytes whose digest differs
    from the one recorded at upload, and both handlers hand them to
    decryption without computing a digest; the only report is the
    decryption failure. *)
Lemma attachment_read_skips_digest :
  subtle_digest_hex (Platform := reference.platform) damaged_ciphertext <> sample_sha256 /\
  PinataFileViewer.handleView (P := reference.platform) damaged_net reference.env1 sample_props =
    {| PinataFileViewer.view_error :=
         Some ("Decryption failed: " +:+ reference.seal_error);
       PinataFileViewer.view_effects :=
         [ GatewayGet "https://gateway.pinata.cloud/ipfs/bafy1" 30000;
           Decrypt reference.key1 reference.iv1 damaged_ciphertext ] |} /\
  PinataFileViewer.handleDownload (P := reference.platform) damaged_net reference.env1 sample_props =
    {| PinataFileViewer.view_error :=
         Some ("Decryption failed: " +:+ reference.seal_error);
       PinataFileViewer.view_effects :=
         [ GatewayGet "https://gateway.pinata.cloud/ipfs/bafy1" 30000;
           Decrypt reference.key1 reference.iv1 damaged_ciphertext ] |}.
Proof.
  split; [vm_compute; discriminate|].
  split; vm_compute; reflexivity.
Qed.

Lemma attachment_read_decrypts_unverified_witness :
  PinataFileViewer.handleView (P := reference.platform) damaged_net reference.env1 sample_props =
    {| PinataFileViewer.view_error :=
         Some ("Decryption failed: " +:+ reference.seal_error);
       PinataFileViewer.view_effects :=
         PinataFileViewer.gets
           [ {| attempt_url := "https://gateway.pinata.cloud/ipfs/bafy1";
                attempt_timeout := 30000 |} ]
         ++ [ Decrypt reference.key1 reference.iv1 damaged_ciphertext ] |}.
Proof.
  destruct (attachment_read_decrypts_unverified (P := reference.platform)
              damaged_net reference.env1 sample_props) as (_ & _ & Hread & _).
  specialize (Hread
    [ {| attempt_url := "https://gateway.pinata.cloud/ipfs/bafy1"; attempt_timeout := 30000 |} ]
    damaged_ciphertext
    (string_of_list_byte reference.key1) (string_of_list_byte reference.iv1)
    reference.key1 reference.iv1).
  assert (subtle_decrypt (Platform := reference.platform) reference.key1 reference.iv1
            damaged_ciphertext = Throw reference.seal_error) as Hfail
    by (vm_compute; reflexivity).
  rewrite Hfail in Hread. apply Hread.
  - discriminate.
  - vm_compute. reflexivity.
  - reflexivity.
  - discriminate.
  - reflexivity.
  - discriminate.
  - reflexivity.
  - vm_compute. reflexivity.
  - vm_compute. reflexivity.
  - vm_compute. reflexivity.
Defined.

(** ** The local upload endpoint (route.ts) *)

Section UploadFacts.

(** The [counter]-th name the loop tries. *)
Let candidate (nameWithoutExt ext : string) (counter : nat) : string :=
  nameWithoutExt +:+ "_" +:+ pretty counter +:+ ext.

Lemma candidate_inj (nameWithoutExt ext : string) (j k : nat) :
  candidate nameWithoutExt ext j = candidate nameWithoutExt ext k -> j = k.
Proof.
  unfold candidate. intros H.
  apply (String.app_inj nameWithoutExt) in H.
  apply (String.app_inj "_") in H.
  apply append_inj_r in H. apply (inj pretty) in H. exact H.
Qed.

Lemma uniqueFilename_unfold (fuel : nat) (names : gset string)
    (nameWithoutExt ext finalFilename : string) (counter : nat) :
  upload_route.uniqueFilename fuel names nameWithoutExt ext finalFilename counter =
    if bool_decide (finalFilename ∈ names) then
      match fuel with
      | O => None
      | S fuel' =>
          upload_route.uniqueFilename fuel' names nameWithoutExt ext
            (candidate nameWithoutExt ext counter) (S counter)
      end
    else Some finalFilename.
Proof. destruct fuel; reflexivity. Qed.

(** The name the loop settles on is not taken. *)
Lemma uniqueFilename_fresh (fuel : nat) (names : gset string)
    (nameWithoutExt ext finalFilename : string) (counter : nat) (x : string) :
  upload_route.uniqueFilename fuel names nameWithoutExt ext finalFilename counter = Some x ->
  x ∉ names.
Proof.
  revert finalFilename counter. induction fuel as [|fuel IH]; intros f c;
    rewrite uniqueFilename_unfold; destruct (bool_decide_reflect (f ∈ names)) as [Hin|Hout];
    try discriminate; try (intros [= <-]; exact Hout).
  apply IH.
Qed.

(** Two sets that agree on the names still to be tried give the same
    result. *)
Lemma uniqueFilename_agree (fuel : nat) (X Y : gset string)
    (nameWithoutExt ext : string) (counter : nat) :
  (forall k, (counter <= k)%nat ->
     candidate nameWithoutExt ext k ∈ X <-> candidate nameWithoutExt ext k ∈ Y) ->
  upload_route.uniqueFilename fuel X nameWithoutExt ext
    (candidate nameWithoutExt ext counter) (S counter) =
  upload_route.uniqueFilename fuel Y nameWithoutExt ext
    (candidate nameWithoutExt ext counter) (S counter).
Proof.
  revert counter. induction fuel as [|fuel IH]; intros c Hagree;
    rewrite (uniqueFilename_unfold _ X), (uniqueFilename_unfold _ Y);
    rewrite (bool_decide_ext _ _ (Hagree c (le_n c)));
    destruct (bool_decide _); try reflexivity.
  apply IH. intros k Hk. apply Hagree. lia.
Qed.

Lemma elem_of_size_pos (X : gset string) (x : string) : x ∈ X -> (0 < size X)%nat.
Proof.
  intros Hin. destruct (size X) eqn:E; [|lia].
  apply size_empty_iff in E. rewrite E in Hin. apply elem_of_empty in Hin. destruct Hin.
Qed.

Lemma uniqueFilename_candidates (fuel : nat) (X : gset string)
    (nameWithoutExt ext : string) (counter : nat) :
  (size X <= fuel)%nat ->
  exists x, upload_route.uniqueFilename fuel X nameWithoutExt ext
              (candidate nameWithoutExt ext counter) (S counter) = Some x.
Proof.
  revert X counter. induction fuel as [|fuel IH]; intros X c Hsize;
    rewrite uniqueFilename_unfold;
    destruct (bool_decide_reflect (candidate nameWithoutExt ext c ∈ X)) as [Hin|Hout];
    eauto.
  - apply elem_of_size_pos in Hin. lia.
  - rewrite (uniqueFilename_agree fuel X (X ∖ {[candidate nameWithoutExt ext c]})).
    + apply IH. pose proof (elem_of_size_pos _ _ Hin) as Hpos.
      rewrite (size_difference X {[candidate nameWithoutExt ext c]}).
      * rewrite size_singleton. lia.
      * apply singleton_subseteq_l. exact Hin.
    + intros k Hk. rewrite elem_of_difference, elem_of_singleton. split.
      * intros H. split; [exact H|]. intros Heq. apply candidate_inj in Heq. lia.
      * intros [H _]. exact H.
Qed.

(** The loop of the handler always finds a name. *)
Lemma uniqueFilename_total (names : gset string)
    (nameWithoutExt ext finalFilename : string) (counter : nat) :
  exists x, upload_route.uniqueFilename (S (size names)) names nameWithoutExt ext
              finalFilename counter = Some x.
Proof.
  rewrite uniqueFilename_unfold. destruct (bool_decide _); [|eauto].
  apply uniqueFilename_candidates. lia.
Qed.

End UploadFacts.

Section UploadRoute.

#[local] Arguments upload_route.uniqueFilename : simpl never.

Lemma with_file_lookup (disk : Disk) (userId name : string) (content : bytes) :
  with_file disk userId name content !! userId =
    Some (<[name := content]> (default ∅ (disk !! userId))).
Proof. unfold with_file, set_dirs, lookup at 1, Disk_lookup. simpl. apply lookup_insert_eq. Qed.

Lemma with_file_lookup_ne (disk : Disk) (userId other name : string) (content : bytes) :
  other <> userId -> with_file disk userId name content !! other = disk !! other.
Proof.
  intros Hne. unfold with_file, set_dirs, lookup at 1, Disk_lookup. simpl.
  apply lookup_insert_ne. congruence.
Qed.

(** [ensureDir] changes no directory that holds a file. *)
Lemma ensureDir_Some (disk disk1 : Disk) (userId : string) :
  upload_route.ensureDir disk userId = Some disk1 ->
  (forall other, default ∅ (disk1 !! other) = default ∅ (disk !! other)) /\
  (forall name content,
     with_file disk1 userId name content = with_file disk userId name content) /\
  writeFile_outcome disk1 = writeFile_outcome disk.
Proof.
  unfold upload_route.ensureDir. destruct (disk !! userId) as [dir|] eqn:E.
  - intros [= <-]. repeat split.
  - destruct (mkdir_fails disk userId); [discriminate|]. intros [= <-].
    split; [|split; [|reflexivity]].
    + intros other. change (dirs disk !! userId = None) in E.
      change (default ∅ ((<[userId := ∅]> (dirs disk)) !! other) =
              default ∅ (dirs disk !! other)).
      destruct (decide (userId = other)) as [<-|Hne].
      * rewrite lookup_insert_eq, E. reflexivity.
      * rewrite lookup_insert_ne by exact Hne. reflexivity.
    + intros name content. change (dirs disk !! userId = None) in E.
      change (set_dirs disk
                (<[userId := <[name := content]>
                                (default ∅ ((<[userId := ∅]> (dirs disk)) !! userId))]>
                   (<[userId := ∅]> (dirs disk))) =
              set_dirs disk
                (<[userId := <[name := content]> (default ∅ (dirs disk !! userId))]>
                   (dirs disk))).
      rewrite lookup_insert_eq, E, insert_insert_eq. reflexivity.
Qed.

(** When [ensureDir] throws, the user has no directory. *)
Lemma ensureDir_None (disk : Disk) (userId : string) :
  upload_route.ensureDir disk userId = None ->
  disk !! userId = None /\ mkdir_fails disk userId = true.
Proof.
  unfold upload_route.ensureDir. destruct (disk !! userId); [discriminate|].
  destruct (mkdir_fails disk userId); [split; reflexivity|discriminate].
Qed.

Lemma POST_uploaded (disk disk' : Disk) (form : upload_route.UploadForm)
    (res : upload_route.HttpResponse) (url filename originalName : string) :
  upload_route.POST disk form = (disk', res) ->
  upload_route.http_json res = upload_route.UploadedJson url filename originalName ->
  exists userId file,
    upload_route.form_userId form = Some userId /\
    upload_route.form_file form = Some (upload_route.EntryFile file) /\
    upload_route.http_status res = 200 /\
    url = ("/uploads/" +:+ userId +:+ "/" +:+ filename)%string /\
    (filename ∉ upload_route.taken (default ∅ (disk !! userId))) /\
    disk' = with_file disk userId filename (file_bytes file).
Proof.
  unfold upload_route.POST. intros HP Hjson.
  assert (forall (d : Disk) (status : Z) (msg : string),
            (d, upload_route.respond status (upload_route.ErrorJson msg)) = (disk', res) ->
            False) as Hearly.
  { intros d status msg [= <- <-]. discriminate. }
  destruct (upload_route.form_userId form) as [userId|] eqn:Hu; simpl in HP;
    [|destruct (Hearly _ _ _ HP)].
  destruct (String.eqb userId ""); [destruct (Hearly _ _ _ HP)|].
  destruct (upload_route.ensureDir disk userId) as [disk1|] eqn:Hdir;
    [|destruct (Hearly _ _ _ HP)].
  destruct (ensureDir_Some _ _ _ Hdir) as (Hsame & Hwith & Hwrite).
  destruct (upload_route.form_file form) as [[s|file]|] eqn:Hf;
    try (destruct (Hearly _ _ _ HP)).
  destruct (_ <? _); [destruct (Hearly _ _ _ HP)|].
  destruct (_ && _)%bool; [destruct (Hearly _ _ _ HP)|].
  rewrite Hsame in HP.
  destruct (upload_route.uniqueFilename _ _ _ _ _ _) as [fn|] eqn:Hfn;
    [|destruct (Hearly _ _ _ HP)].
  destruct (writeFile_outcome disk1 userId fn (file_bytes file));
    [|destruct (Hearly _ _ _ HP)].
  rewrite Hwith in HP. injection HP as <- <-.
  simpl in Hjson. injection Hjson as <- <- <-.
  exists userId, file. repeat split; try reflexivity.
  eapply uniqueFilename_fresh. exact Hfn.
Qed.

(** A file within the size limit and of an accepted type passes the
    checks of the handler: it is stored, unless the file system fails. *)
Lemma POST_checked (disk : Disk) (userId : string) (file : File) :
  userId <> ""%string ->
  Z.of_nat (length (file_bytes file)) <= upload_route.MAX_FILE_SIZE ->
  file_type file = ""%string \/ file_type file ∈ upload_route.ALLOWED_MIME ->
  let r := upload_route.POST disk
             {| upload_route.form_file := Some (upload_route.EntryFile file);
                upload_route.form_userId := Some userId |} in
  (exists filename,
     r = (with_file disk userId filename (file_bytes file),
          upload_route.respond 200
            (upload_route.UploadedJson ("/uploads/" +:+ userId +:+ "/" +:+ filename)
               filename (or_else (file_name file) "file"))) /\
     writeFile_outcome disk userId filename (file_bytes file) = Written) \/
  (r.2 = upload_route.respond 500 (upload_route.ErrorJson "Upload error") /\
   disk !! userId = None /\ mkdir_fails disk userId = true) \/
  (r.2 = upload_route.respond 500 (upload_route.ErrorJson "Could not save file") /\
   exists filename remains,
     writeFile_outcome disk userId filename (file_bytes file) = WriteFails remains).
Proof.
  intros Hne Hsize Hmime. unfold upload_route.POST. simpl.
  destruct (String.eqb_spec userId "") as [?|_]; [contradiction|].
  destruct (upload_route.ensureDir disk userId) as [disk1|] eqn:Hdir.
  2: { right. left. split; [reflexivity|]. apply ensureDir_None. exact Hdir. }
  destruct (ensureDir_Some _ _ _ Hdir) as (Hsame & Hwith & Hwrite).
  destruct (Z.ltb_spec upload_route.MAX_FILE_SIZE (Z.of_nat (length (file_bytes file))));
    [lia|].
  assert ((negb (String.eqb (file_type file) "") &&
           negb (bool_decide (file_type file ∈ upload_route.ALLOWED_MIME)))%bool = false) as ->.
  { destruct Hmime as [->|Hin]; [reflexivity|].
    rewrite (bool_decide_eq_true_2 _ Hin). apply andb_false_r. }
  rewrite Hsame.
  destruct (uniqueFilename_total (upload_route.taken (default ∅ (disk !! userId)))
              (upload_route.basename
                 (upload_route.safeFilename (or_else (file_name file) "file"))
                 (upload_route.extname
                    (upload_route.safeFilename (or_else (file_name file) "file"))))
              (upload_route.extname
                 (upload_route.safeFilename (or_else (file_name file) "file")))
              (upload_route.safeFilename (or_else (file_name file) "file")) 1)
    as [filename ->].
  rewrite Hwrite.
  destruct (writeFile_outcome disk userId filename (file_bytes file)) as [|remains] eqn:Hw.
  - left. exists filename. rewrite Hwith. split; [reflexivity|exact Hw].
  - right. right. split; [reflexivity|]. exists filename, remains. exact Hw.
Qed.

(** It is stored when the file system takes it. *)
Lemma POST_accepts (disk : Disk) (userId : string) (file : File) :
  userId <> ""%string ->
  Z.of_nat (length (file_bytes file)) <= upload_route.MAX_FILE_SIZE ->
  file_type file = ""%string \/ file_type file ∈ upload_route.ALLOWED_MIME ->
  takes_upload disk userId file ->
  exists filename,
    upload_route.POST disk
      {| upload_route.form_file := Some (upload_route.EntryFile file);
         upload_route.form_userId := Some userId |} =
    (with_file disk userId filename (file_bytes file),
     upload_route.respond 200
       (upload_route.UploadedJson ("/uploads/" +:+ userId +:+ "/" +:+ filename)
          filename (or_else (file_name file) "file"))).
Proof.
  intros Hne Hsize Hmime [Hmk Hw].
  destruct (POST_checked disk userId file Hne Hsize Hmime)
    as [(filename & H & _)|[(_ & Hnone & Hfails)|(_ & filename & remains & Hfails)]].
  - exists filename. exact H.
  - rewrite (Hmk Hnone) in Hfails. discriminate.
  - rewrite Hw in Hfails. discriminate.
Qed.

End UploadRoute.

(** ** Creating a record with an attachment (HealthRecordForm.tsx) *)

Section FormFacts.
Context {P : Platform}.

(** The encrypted upload: either nothing was sent, or the digest of the
    ciphertext was taken and the ciphertext posted. *)
Lemma uploadEncryptedToPinata_Ok (svc : HealthRecordForm.Services)
    (draws : HealthRecordForm.Draws) (file : File) (effects : list Effect)
    (pin : HealthRecordForm.PinResult) :
  HealthRecordForm.uploadEncryptedToPinata svc draws file = (effects, Ok pin) ->
  let ciphertext := subtle_encrypt (HealthRecordForm.fileKey draws)
                      (HealthRecordForm.fileIv draws) (file_bytes file) in
  let mimeType := or_else (file_type file) "application/pdf" in
  effects = [ Digest ciphertext;
              PostStorageUpload ciphertext (file_name file) mimeType
                (subtle_digest_hex ciphertext) ] /\
  HealthRecordForm.uploadEncryptedFile svc ciphertext
    (or_else (file_name file) "encrypted.bin") mimeType (subtle_digest_hex ciphertext) =
    Ok (HealthRecordForm.pin_cid pin, HealthRecordForm.pin_size pin) /\
  HealthRecordForm.pin_keyBase64 pin = btoa (HealthRecordForm.fileKey draws) /\
  HealthRecordForm.pin_ivBase64 pin = btoa (HealthRecordForm.fileIv draws).
Proof.
  unfold HealthRecordForm.uploadEncryptedToPinata.
  destruct HealthRecordForm.getSubtle; [|discriminate].
  destruct (HealthRecordForm.uploadEncryptedFile svc _ _ _ _) as [[cid size]|e];
    [|discriminate].
  intros [= <- <-]. simpl. repeat split.
Qed.

Lemma uploadEncryptedToPinata_no_record (svc : HealthRecordForm.Services)
    (draws : HealthRecordForm.Draws) (file : File) (recordId : string) :
  AddRecord recordId ∉ (HealthRecordForm.uploadEncryptedToPinata svc draws file).1.
Proof.
  unfold HealthRecordForm.uploadEncryptedToPinata.
  destruct HealthRecordForm.getSubtle; simpl; [|apply not_elem_of_nil].
  assert (forall c n m h,
            AddRecord recordId ∉ [Digest c; PostStorageUpload c n m h]) as Hno.
  { intros c n m h Hin. repeat (apply elem_of_cons in Hin as [Hin|Hin]; [discriminate|]).
    inversion Hin. }
  destruct (HealthRecordForm.uploadEncryptedFile svc _ _ _ _) as [[cid size]|e];
    simpl; apply Hno.
Qed.

Lemma uploadFile_Ok (disk disk' : Disk) (userId url : string) (file : File) :
  HealthRecordForm.uploadFile disk userId file = (disk', Ok url) ->
  exists filename,
    url = ("/uploads/" +:+ userId +:+ "/" +:+ filename)%string /\
    (filename ∉ upload_route.taken (default ∅ (disk !! userId))) /\
    disk' = with_file disk userId filename (file_bytes file).
Proof.
  unfold HealthRecordForm.uploadFile.
  destruct (upload_route.POST disk _) as [disk0 res] eqn:HP.
  destruct (upload_route.http_json res) as [e|url0 filename originalName] eqn:Hjson;
    [discriminate|].
  intros [= <- <-].
  destruct (POST_uploaded _ _ _ _ _ _ _ HP Hjson)
    as (userId0 & file0 & [= <-] & [= <-] & _ & Hurl & Hfresh & Hdisk).
  exists filename. repeat split; assumption.
Qed.

(** C3. Whenever [onSubmit] creates a record for a submission with an
    attachment, it has first posted the attachment as it is to
    [/api/upload], and only then its ciphertext to the storage route; the
    upload endpoint has written the plaintext bytes to a new file of the
    user's directory under [public/uploads], and the URL of that file is
    the [attachmentUrl] of the payload stored with the record. *)
Theorem attachment_plaintext_copy (env : Env) (svc : HealthRecordForm.Services)
    (draws : HealthRecordForm.Draws) (disk : Disk) (w : World) (userId : string)
    (values : HealthRecordForm.Values) (file : File) (rest : list File)
    (recordId : string) :
  HealthRecordForm.values_attachment values = file :: rest ->
  let out := HealthRecordForm.onSubmit env svc draws disk w (Some userId) values in
  AddRecord recordId ∈ HealthRecordForm.out_effects out ->
  exists filename cid blob,
    let ciphertext := subtle_encrypt (HealthRecordForm.fileKey draws)
                        (HealthRecordForm.fileIv draws) (file_bytes file) in
    let url := ("/uploads/" +:+ userId +:+ "/" +:+ filename)%string in
    let data := HealthRecordForm.recordData values (VStr url) (VStr cid)
                  (VStr (btoa (HealthRecordForm.fileKey draws)))
                  (VStr (btoa (HealthRecordForm.fileIv draws))) in
    HealthRecordForm.out_effects out =
      [ PostUpload userId file;
        Digest ciphertext;
        PostStorageUpload ciphertext (file_name file)
          (or_else (file_type file) "application/pdf") (subtle_digest_hex ciphertext);
        AddRecord recordId ] /\
    (disk !! userId ≫= fun dir => dir !! filename) = None /\
    (HealthRecordForm.out_disk out !! userId ≫= fun dir => dir !! filename) =
      Some (file_bytes file) /\
    get_prop (firestore.sensitivePayload data) "attachmentUrl" = Ok (VStr url) /\
    encryptObject env (HealthRecordForm.recordIv draws) (firestore.sensitivePayload data) =
      Ok blob /\
    healthRecords (HealthRecordForm.out_world out) !! recordId =
      Some (firestore.newRecordDoc (HealthRecordForm.now draws) userId data blob).
Proof.
  intros Hatt out Hin. subst out. unfold HealthRecordForm.onSubmit in *.
  rewrite Hatt in *. unfold HealthRecordForm.uploadAttachment in *.
  destruct (HealthRecordForm.uploadFile disk userId file) as [disk' [fileUrl|e]] eqn:HU.
  2: { simpl in Hin. apply list_elem_of_singleton in Hin. discriminate. }
  pose proof (uploadEncryptedToPinata_no_record svc draws file recordId) as Hno.
  destruct (HealthRecordForm.uploadEncryptedToPinata svc draws file)
    as [effects [pin|e]] eqn:HE; simpl in Hno.
  2: { simpl in Hin. apply elem_of_cons in Hin as [Hin|Hin]; [discriminate|].
       destruct (Hno Hin). }
  unfold HealthRecordForm.saveRecord in *.
  destruct (firestore.addHealthRecord w env _ _ _ userId _) as [[rid w']|e] eqn:HA;
    simpl in Hin |- *.
  2: { apply elem_of_cons in Hin as [Hin|Hin]; [discriminate|]. destruct (Hno Hin). }
  apply elem_of_cons in Hin as [Hin|Hin]; [discriminate|].
  apply elem_of_app in Hin as [Hin|Hin]; [destruct (Hno Hin)|].
  apply list_elem_of_singleton in Hin. injection Hin as <-.
  destruct (uploadFile_Ok _ _ _ _ _ HU) as (filename & -> & Hfresh & ->).
  destruct (uploadEncryptedToPinata_Ok _ _ _ _ _ HE) as (-> & Hpin & Hk & Hi).
  rewrite Hk, Hi in HA.
  destruct (addHealthRecord_Ok _ _ _ _ _ _ _ _ _ HA) as (-> & blob & Hblob & ->).
  exists filename, (HealthRecordForm.pin_cid pin), blob. simpl.
  split; [reflexivity|]. split.
  { destruct (disk !! userId) as [dir|] eqn:Hdir; simpl in *; [|reflexivity].
    apply not_elem_of_dom. intros Hd. apply Hfresh.
    unfold upload_route.taken. apply elem_of_union. left. exact Hd. }
  split.
  { rewrite with_file_lookup. simpl. apply lookup_insert_eq. }
  split; [reflexivity|]. split; [exact Hblob|].
  apply lookup_insert_eq.
Qed.

End FormFacts.

Lemma attachment_plaintext_copy_witness :
  let out := HealthRecordForm.onSubmit (P := reference.platform) reference.env1
               sample_services sample_draws sample_disk sample_world (Some "pat1"%string)
               sample_values in
  dirs (HealthRecordForm.out_disk out) =
    {[ "pat1"%string := {[ "scan_1.pdf"%string := ["o"%byte; "l"%byte; "d"%byte];
                           "scan_1_1.pdf"%string := ["h"%byte; "i"%byte] ]} ]} /\
  exists filename cid blob,
    (HealthRecordForm.out_disk out !! "pat1"%string ≫= fun dir => dir !! filename) =
      Some ["h"%byte; "i"%byte] /\
    healthRecords (HealthRecordForm.out_world out) !! "rec9"%string =
      Some (firestore.newRecordDoc 1700000002000 "pat1"
              (HealthRecordForm.recordData sample_values
                 (VStr ("/uploads/pat1/" +:+ filename)) (VStr cid)
                 (VStr (string_of_list_byte reference.key2))
                 (VStr (string_of_list_byte reference.iv1)))
              blob).
Proof.
  split; [vm_compute; reflexivity|].
  destruct (attachment_plaintext_copy (P := reference.platform) reference.env1
              sample_services sample_draws sample_disk sample_world "pat1"
              sample_values sample_file [] "rec9" eq_refl)
    as (filename & cid & blob & _ & _ & Hdisk & _ & _ & Hrec).
  - vm_compute. do 3 apply list_elem_of_further. apply list_elem_of_here.
  - exists filename, cid, blob. split; [exact Hdisk|exact Hrec].
Defined.

(** A submission that passes the endpoint's checks, with the file system,
    Web Crypto, the pinning service and the record key available and a
    date that a timestamp can hold, creates the record. *)
Lemma onSubmit_creates_record {P : Platform} (env : Env) (svc : HealthRecordForm.Services)
    (draws : HealthRecordForm.Draws) (disk : Disk) (w : World) (userId : string)
    (values : HealthRecordForm.Values) (file : File) (rest : list File)
    (cid : string) (size : Z) :
  HealthRecordForm.values_attachment values = file :: rest ->
  userId <> ""%string ->
  Z.of_nat (length (file_bytes file)) <= upload_route.MAX_FILE_SIZE ->
  file_type file = ""%string \/ file_type file ∈ upload_route.ALLOWED_MIME ->
  takes_upload disk userId file ->
  webcrypto_available = true ->
  (forall c n m h, HealthRecordForm.uploadEncryptedFile svc c n m h = Ok (cid, size)) ->
  key_configured P env ->
  HealthRecordForm.values_type values <> VUndefined ->
  Timestamp_range (HealthRecordForm.values_date values) ->
  AddRecord (HealthRecordForm.newId draws) ∈
    HealthRecordForm.out_effects
      (HealthRecordForm.onSubmit env svc draws disk w (Some userId) values).
Proof.
  intros Hatt Hne Hsize Hmime Hfs Hweb Hpin Hkey Htype Hdate.
  unfold HealthRecordForm.onSubmit. rewrite Hatt.
  unfold HealthRecordForm.uploadAttachment, HealthRecordForm.uploadFile.
  destruct (POST_accepts disk userId file Hne Hsize Hmime Hfs) as [filename ->]. simpl.
  unfold HealthRecordForm.uploadEncryptedToPinata, HealthRecordForm.getSubtle.
  rewrite Hweb, Hpin. simpl.
  unfold HealthRecordForm.saveRecord.
  edestruct (addHealthRecord_succeeds w env (HealthRecordForm.recordIv draws)
               (HealthRecordForm.now draws) (HealthRecordForm.newId draws) userId)
    as [w' ->]; [exact Hkey| | |].
  - exact Htype.
  - exact Hdate.
  - simpl. do 3 apply list_elem_of_further. apply list_elem_of_here.
Qed.

(** ** The model on examples *)

(** The letter a, e with an acute accent (two bytes) and a character
    beyond the Basic Multilingual Plane (four bytes) make four code
    units. *)
Example code_units_sample :
  code_units (bytes_string [97; 195; 169; 240; 159; 152; 128]%nat) =
    [ bytes_string [97]%nat; bytes_string [195; 169]%nat;
      bytes_string [237; 160; 189]%nat; bytes_string [237; 184; 128]%nat ] /\
  first_units 2 (bytes_string [97; 195; 169; 240; 159; 152; 128]%nat) =
    bytes_string [97; 195; 169]%nat /\
  own_props (VStr (bytes_string [195; 169]%nat)) =
    [("0"%string, VStr (bytes_string [195; 169]%nat))].
Proof. repeat split. Qed.

Example safeFilename_spaces : upload_route.safeFilename "scan 1.pdf" = "scan_1.pdf"%string.
Proof. reflexivity. Qed.

Example safeFilename_runs :
  upload_route.safeFilename "__my   report (final)_.PDF_" = "my_report_final_.PDF"%string.
Proof. reflexivity. Qed.

Example safeFilename_nothing_left : upload_route.safeFilename "@@@" = ""%string.
Proof. reflexivity. Qed.

Example extname_last_dot : upload_route.extname "a.b.c" = ".c"%string.
Proof. reflexivity. Qed.

Example extname_hidden_file : upload_route.extname ".bashrc" = ""%string.
Proof. reflexivity. Qed.

Example extname_parent : upload_route.extname ".." = ""%string.
Proof. reflexivity. Qed.

Example basename_strips_ext :
  upload_route.basename "a.b.c" (upload_route.extname "a.b.c") = "a.b"%string.
Proof. reflexivity. Qed.

(** Records of the same date keep their order. *)
Example Array_sort_stable :
  Array_sort (fun a b : Z * string => b.1 - a.1)
    [ (1, "a"); (3, "b"); (1, "c"); (3, "d"); (2, "e") ]%string =
    [ (3, "b"); (3, "d"); (2, "e"); (1, "a"); (1, "c") ]%string.
Proof. reflexivity. Qed.

Example getGatewayBase_subdomain :
  pinata.getGatewayBase
    {| ENCRYPTION_KEY := None; PINATA_GATEWAY_SUBDOMAIN := Some " myproject "%string |} =
    "https://myproject.mypinata.cloud/ipfs"%string.
Proof. reflexivity. Qed.

(** A name already present in the user's directory gets a numbered
    sibling. *)
Example POST_renames :
  (upload_route.POST sample_disk
     {| upload_route.form_file := Some (upload_route.EntryFile sample_file);
        upload_route.form_userId := Some "pat1"%string |}).2 =
    upload_route.respond 200
      (upload_route.UploadedJson "/uploads/pat1/scan_1_1.pdf" "scan_1_1.pdf" "scan 1.pdf").
Proof. vm_compute. reflexivity. Qed.

(** ** Approving and denying a request (firestore.ts, actions.ts) *)

Lemma updateDoc_user_alter (w : World) (userId : string) (u : UserDocument)
    (f : UserDocument -> UserDocument) :
  users w !! userId = Some u ->
  updateDoc_user w userId f = Ok (set_users w (alter f userId (users w))).
Proof.
  intros H. rewrite (updateDoc_user_Some _ _ _ _ H). do 2 f_equal.
  apply map_eq. intros j. destruct (decide (userId = j)) as [<-|Hne].
  - rewrite lookup_insert_eq, lookup_alter_eq, H. reflexivity.
  - rewrite lookup_insert_ne, lookup_alter_ne by assumption. reflexivity.
Qed.

Lemma updateDoc_user_missing (w : World) (userId : string)
    (f : UserDocument -> UserDocument) :
  users w !! userId = None -> exists e, updateDoc_user w userId f = Throw e.
Proof. intros H. unfold updateDoc_user. rewrite H. eauto. Qed.

Lemma lookup_alter_is_Some (m : gmap string UserDocument) (f : UserDocument -> UserDocument)
    (i j : string) :
  is_Some (m !! j) -> is_Some (alter f i m !! j).
Proof.
  intros [u Hu]. destruct (decide (i = j)) as [->|Hne].
  - rewrite lookup_alter_eq, Hu. simpl. eauto.
  - rewrite lookup_alter_ne by assumption. eauto.
Qed.

Lemma includes_arrayRemove (x : string) (arr : option (list string)) :
  includes (arrayRemove x arr) x = false.
Proof.
  destruct arr as [l|]; simpl; [|reflexivity].
  apply bool_decide_eq_false. rewrite list_elem_of_filter.
  intros [Hne _]. apply Hne. reflexivity.
Qed.


Lemma updateConnectionRequest_approved (w : World) (patientId doctorId : string)
    (patientDoc doctorDoc : UserDocument) :
  users w !! patientId = Some patientDoc ->
  users w !! doctorId = Some doctorDoc ->
  firestore.updateConnectionRequest w patientId doctorId firestore.approved =
    (set_users w
       (alter (with_successful (arrayUnion patientId)) doctorId
          (alter (with_successful (arrayUnion doctorId)) patientId
             (alter (with_pending (arrayRemove patientId)) doctorId
                (alter (with_pending (arrayRemove doctorId)) patientId (users w))))),
     succeeded).
Proof.
  intros Hp Hd. unfold firestore.updateConnectionRequest.
  rewrite (updateDoc_user_alter _ _ _ _ Hp).
  set (m1 := alter (with_pending (arrayRemove doctorId)) patientId (users w)).
  assert (is_Some (m1 !! doctorId)) as [d1 Hd1]
    by (apply lookup_alter_is_Some; eauto).
  rewrite (updateDoc_user_alter (set_users w m1) doctorId d1 _ Hd1). simpl.
  set (m2 := alter (with_pending (arrayRemove patientId)) doctorId m1).
  assert (is_Some (m2 !! patientId)) as [p2 Hp2]
    by (do 2 apply lookup_alter_is_Some; eauto).
  rewrite (updateDoc_user_alter (set_users _ m2) patientId p2 _ Hp2). simpl.
  set (m3 := alter (with_successful (arrayUnion doctorId)) patientId m2).
  assert (is_Some (m3 !! doctorId)) as [d3 Hd3]
    by (do 3 apply lookup_alter_is_Some; eauto).
  rewrite (updateDoc_user_alter (set_users _ m3) doctorId d3 _ Hd3). reflexivity.
Qed.

(** Reading a user after a chain of updates. *)
Ltac lookup_alters :=
  repeat first
    [ rewrite lookup_alter_eq
    | rewrite lookup_alter_ne by congruence ].

(** X1. [updateConnectionRequest] with status approved, for an existing
    patient and doctor, succeeds and leaves each listed among the other's
    successful connections and absent from the other's pending
    connections, whether or not a request was pending; no other user and
    no record changes. *)
Theorem approval_connects_both_sides (w : World) (patientId doctorId : string)
    (patientDoc doctorDoc : UserDocument) :
  users w !! patientId = Some patientDoc ->
  users w !! doctorId = Some doctorDoc ->
  let r := firestore.updateConnectionRequest w patientId doctorId firestore.approved in
  r.2 = succeeded /\
  (exists p, users r.1 !! patientId = Some p /\
             includes (successfulConnections p) doctorId = true /\
             includes (pendingConnections p) doctorId = false) /\
  (exists d, users r.1 !! doctorId = Some d /\
             includes (successfulConnections d) patientId = true /\
             includes (pendingConnections d) patientId = false) /\
  (forall other, other <> patientId -> other <> doctorId ->
     users r.1 !! other = users w !! other) /\
  healthRecords r.1 = healthRecords w.
Proof.
  intros Hp Hd r. subst r.
  rewrite (updateConnectionRequest_approved _ _ _ _ _ Hp Hd). simpl.
  split; [reflexivity|].
  destruct (decide (patientId = doctorId)) as [->|Hne].
  - assert (Some patientDoc = Some doctorDoc) as [= ->] by (rewrite <- Hp; exact Hd).
    split; [|split; [|split; [|reflexivity]]].
    + eexists. split; [lookup_alters; rewrite Hd; reflexivity|]. simpl. split.
      * apply includes_arrayUnion.
      * apply includes_arrayRemove.
    + eexists. split; [lookup_alters; rewrite Hd; reflexivity|]. simpl. split.
      * apply includes_arrayUnion.
      * apply includes_arrayRemove.
    + intros other H1 _. lookup_alters. reflexivity.
  - split; [|split; [|split; [|reflexivity]]].
    + eexists. split; [lookup_alters; rewrite Hp; reflexivity|]. simpl. split.
      * apply includes_arrayUnion.
      * apply includes_arrayRemove.
    + eexists. split; [lookup_alters; rewrite Hd; reflexivity|]. simpl. split.
      * apply includes_arrayUnion.
      * apply includes_arrayRemove.
    + intros other H1 H2. lookup_alters. reflexivity.
Qed.

Lemma approval_connects_both_sides_witness :
  let r := firestore.updateConnectionRequest sample_world "pat1" "doc1" firestore.approved in
  r.2 = succeeded /\
  (exists p, users r.1 !! "pat1"%string = Some p /\
             includes (successfulConnections p) "doc1" = true /\
             includes (pendingConnections p) "doc1" = false) /\
  (exists d, users r.1 !! "doc1"%string = Some d /\
             includes (successfulConnections d) "pat1" = true /\
             includes (pendingConnections d) "pat1" = false) /\
  (forall other, other <> "pat1"%string -> other <> "doc1"%string ->
     users r.1 !! other = users sample_world !! other) /\
  healthRecords r.1 = healthRecords sample_world.
Proof.
  exact (approval_connects_both_sides sample_world "pat1" "doc1"
           sample_patient sample_doctor eq_refl eq_refl).
Defined.



(** ** What the connection operations never do *)

Lemma keeps_connections_refl (m : gmap string UserDocument) : keeps_connections m m.
Proof. intros id u Hu. eauto. Qed.

Lemma keeps_connections_trans (m1 m2 m3 : gmap string UserDocument) :
  keeps_connections m1 m2 -> keeps_connections m2 m3 -> keeps_connections m1 m3.
Proof.
  intros H12 H23 id u Hu.
  destruct (H12 id u Hu) as (u2 & Hu2 & Hk2).
  destruct (H23 id u2 Hu2) as (u3 & Hu3 & Hk3). eauto.
Qed.

Lemma keeps_connections_update (w w' : World) (userId : string)
    (f : UserDocument -> UserDocument) :
  (forall u x, includes (successfulConnections u) x = true ->
               includes (successfulConnections (f u)) x = true) ->
  updateDoc_user w userId f = Ok w' ->
  keeps_connections (users w) (users w').
Proof.
  intros Hf. unfold updateDoc_user.
  destruct (users w !! userId) as [u0|] eqn:E; [|discriminate].
  intros [= <-] id u Hu. simpl.
  destruct (decide (userId = id)) as [<-|Hne].
  - rewrite lookup_insert_eq. rewrite E in Hu. injection Hu as ->. eauto.
  - rewrite lookup_insert_ne by assumption. eauto.
Qed.

Lemma with_pending_keeps (g : option (list string) -> option (list string))
    (u : UserDocument) (x : string) :
  includes (successfulConnections u) x = true ->
  includes (successfulConnections (with_pending g u)) x = true.
Proof. intros H. exact H. Qed.

Lemma with_successful_arrayUnion_keeps (y : string) (u : UserDocument) (x : string) :
  includes (successfulConnections u) x = true ->
  includes (successfulConnections (with_successful (arrayUnion y) u)) x = true.
Proof. intros H. simpl. apply includes_arrayUnion_mono. exact H. Qed.

Lemma createConnectionRequest_keeps (w : World) (doctorId patientId : string) :
  keeps_connections (users w) (users (firestore.createConnectionRequest w doctorId patientId).1).
Proof.
  unfold firestore.createConnectionRequest.
  destruct (firestore.getUserDocument w doctorId) as [doctorDoc|];
    [|apply keeps_connections_refl].
  destruct (firestore.getUserDocument w patientId) as [patientDoc|];
    [|apply keeps_connections_refl].
  destruct (includes (successfulConnections doctorDoc) patientId);
    [apply keeps_connections_refl|].
  destruct (includes (pendingConnections doctorDoc) patientId);
    [apply keeps_connections_refl|].
  destruct (updateDoc_user w doctorId _) as [w1|] eqn:E1; [|apply keeps_connections_refl].
  pose proof (keeps_connections_update _ _ _ _ (with_pending_keeps _) E1) as K1.
  destruct (updateDoc_user w1 patientId _) as [w2|] eqn:E2; [|exact K1].
  pose proof (keeps_connections_update _ _ _ _ (with_pending_keeps _) E2) as K2.
  exact (keeps_connections_trans _ _ _ K1 K2).
Qed.

Lemma updateConnectionRequest_keeps (w : World) (patientId doctorId : string)
    (status : firestore.Status) :
  keeps_connections (users w)
    (users (firestore.updateConnectionRequest w patientId doctorId status).1).
Proof.
  unfold firestore.updateConnectionRequest.
  destruct (updateDoc_user w patientId _) as [w1|] eqn:E1; [|apply keeps_connections_refl].
  pose proof (keeps_connections_update _ _ _ _ (with_pending_keeps _) E1) as K1.
  destruct (updateDoc_user w1 doctorId _) as [w2|] eqn:E2; [|exact K1].
  pose proof (keeps_connections_trans _ _ _ K1
                (keeps_connections_update _ _ _ _ (with_pending_keeps _) E2)) as K2.
  destruct status; [|exact K2].
  destruct (updateDoc_user w2 patientId _) as [w3|] eqn:E3; [|exact K2].
  pose proof (keeps_connections_trans _ _ _ K2
                (keeps_connections_update _ _ _ _
                   (with_successful_arrayUnion_keeps _) E3)) as K3.
  destruct (updateDoc_user w3 doctorId _) as [w4|] eqn:E4; [|exact K3].
  exact (keeps_connections_trans _ _ _ K3
           (keeps_connections_update _ _ _ _ (with_successful_arrayUnion_keeps _) E4)).
Qed.

(** X3. Neither [createConnectionRequest] nor [updateConnectionRequest]
    ever ends a connection: whatever their arguments and whether they
    succeed, fail or stop half-way, every user document is still there
    afterwards and lists every successful connection it listed before. *)
Theorem connections_never_revoked (w : World) (a b : string) (status : firestore.Status) :
  keeps_connections (users w) (users (firestore.createConnectionRequest w a b).1) /\
  keeps_connections (users w) (users (firestore.updateConnectionRequest w a b status).1).
Proof.
  split.
  - apply createConnectionRequest_keeps.
  - apply updateConnectionRequest_keeps.
Qed.

(** ** From a request to access *)

Lemma getHealthRecords_records {P : Platform} (w w' : World) (env : Env) (now : Z)
    (userId : string) :
  healthRecords w' = healthRecords w ->
  firestore.getHealthRecords w' env now userId = firestore.getHealthRecords w env now userId.
Proof.
  intros H. unfold firestore.getHealthRecords, firestore.queryByUserId. rewrite H.
  reflexivity.
Qed.

Lemma gate_closed {P : Platform} (w : World) (env : Env) (now : Z)
    (doctorId patientId : string) (doctorDoc : UserDocument) :
  doctorId <> ""%string ->
  users w !! doctorId = Some doctorDoc ->
  includes (successfulConnections doctorDoc) patientId = false ->
  actions.getPatientRecordsForDoctor w env now doctorId patientId =
    ([], Throw "You do not have permission to view these records.").
Proof.
  intros Hne Hd Hs. unfold actions.getPatientRecordsForDoctor, firestore.getUserDocument.
  destruct (String.eqb_spec doctorId "") as [->|_]; [contradiction|].
  rewrite Hd, Hs. reflexivity.
Qed.

(** The doctor's side of an approval. *)
Lemma approval_doctor_side (w : World) (patientId doctorId : string)
    (patientDoc doctorDoc : UserDocument) :
  users w !! patientId = Some patientDoc ->
  users w !! doctorId = Some doctorDoc ->
  let r := firestore.updateConnectionRequest w patientId doctorId firestore.approved in
  r.2 = succeeded /\ healthRecords r.1 = healthRecords w /\
  exists d, users r.1 !! doctorId = Some d /\
            includes (successfulConnections d) patientId = true.
Proof.
  intros Hp Hd r. subst r.
  rewrite (updateConnectionRequest_approved _ _ _ _ _ Hp Hd). simpl.
  split; [reflexivity|]. split; [reflexivity|].
  destruct (decide (patientId = doctorId)) as [->|Hne];
    (eexists; split; [lookup_alters; rewrite Hd; reflexivity|]);
    simpl; apply includes_arrayUnion.
Qed.

(** X4. Let the doctor and the patient exist, neither connected nor with
    a request pending.  Before the request and while it is pending,
    [getPatientRecordsForDoctor] refuses the doctor; once the patient has
    approved it, the same call returns the patient's records as
    [getHealthRecords] reads them, and a further request is answered
    "already connected". *)
Theorem approved_request_opens_gate {P : Platform} (w : World) (env : Env) (now : Z)
    (doctorId patientId : string) (doctorDoc patientDoc : UserDocument) :
  doctorId <> ""%string ->
  users w !! doctorId = Some doctorDoc ->
  users w !! patientId = Some patientDoc ->
  includes (successfulConnections doctorDoc) patientId = false ->
  includes (pendingConnections doctorDoc) patientId = false ->
  let refusal := ([], Throw "You do not have permission to view these records.") in
  let requested := actions.requestPatientConnection w doctorId patientId in
  let answered :=
    firestore.updateConnectionRequest requested.1 patientId doctorId firestore.approved in
  actions.getPatientRecordsForDoctor w env now doctorId patientId = refusal /\
  requested.2 = succeeded /\
  actions.getPatientRecordsForDoctor requested.1 env now doctorId patientId = refusal /\
  answered.2 = succeeded /\
  actions.getPatientRecordsForDoctor answered.1 env now doctorId patientId =
    firestore.getHealthRecords w env now patientId /\
  actions.requestPatientConnection answered.1 doctorId patientId =
    (answered.1, failed "You are already connected with this patient.").
Proof.
  intros Hne Hd Hp Hs Hq refusal requested answered.
  split; [exact (gate_closed w env now doctorId patientId doctorDoc Hne Hd Hs)|].
  subst requested answered. unfold actions.requestPatientConnection.
  rewrite (createConnectionRequest_fresh w doctorId patientId doctorDoc patientDoc
             Hd Hp Hs Hq).
  cbv zeta. cbn [fst snd].
  set (d1 := with_pending (arrayUnion patientId) doctorDoc).
  set (p0 := if decide (doctorId = patientId) then d1 else patientDoc).
  set (w1 := set_users w _).
  assert (exists d, users w1 !! doctorId = Some d /\
                    successfulConnections d = successfulConnections doctorDoc)
    as (d & Hd1 & Hs1).
  { subst w1. simpl. destruct (decide (patientId = doctorId)) as [E|Hne'].
    - rewrite E, lookup_insert_eq. eexists. split; [reflexivity|].
      subst p0. rewrite E. destruct (decide (doctorId = doctorId)); [|congruence].
      reflexivity.
    - rewrite lookup_insert_ne, lookup_insert_eq by assumption.
      eexists. split; reflexivity. }
  assert (exists p, users w1 !! patientId = Some p) as (p & Hp1).
  { subst w1. simpl. rewrite lookup_insert_eq. eauto. }
  split; [reflexivity|].
  split.
  { apply (gate_closed w1 env now doctorId patientId d Hne Hd1). rewrite Hs1. exact Hs. }
  destruct (approval_doctor_side w1 patientId doctorId p d Hp1 Hd1)
    as (Hok & Hrec & d2 & Hd2 & Hs2).
  split; [exact Hok|].
  split.
  - rewrite (consent_gate_admits _ env now doctorId patientId d2 Hne Hd2 Hs2).
    apply getHealthRecords_records. rewrite Hrec. reflexivity.
  - destruct (users (firestore.updateConnectionRequest w1 patientId doctorId
                       firestore.approved).1 !! patientId) as [p2|] eqn:Hp2.
    + apply (createConnectionRequest_connected _ doctorId patientId d2 p2 Hd2 Hp2 Hs2).
    + exfalso.
      destruct (updateConnectionRequest_keeps w1 patientId doctorId firestore.approved
                  patientId p Hp1) as (p2 & Hp2' & _).
      rewrite Hp2 in Hp2'. discriminate.
Qed.

Lemma approved_request_opens_gate_witness :
  let refusal := ([], Throw "You do not have permission to view these records.") in
  let requested := actions.requestPatientConnection sample_world "doc1" "pat1" in
  let answered :=
    firestore.updateConnectionRequest requested.1 "pat1" "doc1" firestore.approved in
  actions.getPatientRecordsForDoctor (P := reference.platform)
    sample_world reference.env1 0 "doc1" "pat1" = refusal /\
  requested.2 = succeeded /\
  actions.getPatientRecordsForDoctor (P := reference.platform)
    requested.1 reference.env1 0 "doc1" "pat1" = refusal /\
  answered.2 = succeeded /\
  actions.getPatientRecordsForDoctor (P := reference.platform)
    answered.1 reference.env1 0 "doc1" "pat1" =
    firestore.getHealthRecords (P := reference.platform) sample_world reference.env1 0 "pat1" /\
  actions.requestPatientConnection answered.1 "doc1" "pat1" =
    (answered.1, failed "You are already connected with this patient.").
Proof.
  apply (approved_request_opens_gate (P := reference.platform) sample_world reference.env1 0
           "doc1" "pat1" sample_doctor sample_patient);
    [discriminate|reflexivity|reflexivity|reflexivity|reflexivity].
Defined.

(** X5. [updateConnectionRequest] is not atomic.  When the doctor's
    document does not exist it fails with "Failed to update connection
    request.", yet for an existing patient the first write has gone
    through: the doctor's id has been removed from the patient's pending
    connections.  When the patient's document does not exist nothing is
    written. *)
Theorem updateConnectionRequest_stops_half_way (w : World) (patientId doctorId : string)
    (status : firestore.Status) :
  users w !! doctorId = None ->
  let r := firestore.updateConnectionRequest w patientId doctorId status in
  r.2 = failed "Failed to update connection request." /\
  (users w !! patientId = None -> r.1 = w) /\
  (forall patientDoc,
     users w !! patientId = Some patientDoc ->
     r.1 = set_users w (<[patientId := with_pending (arrayRemove doctorId) patientDoc]>
                          (users w))).
Proof.
  intros Hd r. subst r. unfold firestore.updateConnectionRequest, updateDoc_user.
  destruct (users w !! patientId) as [patientDoc|] eqn:Hp.
  - assert (doctorId <> patientId) as Hne by congruence.
    simpl. rewrite lookup_insert_ne by congruence. rewrite Hd. simpl.
    split; [reflexivity|]. split; [discriminate|].
    intros ? [= <-]. reflexivity.
  - simpl. split; [reflexivity|]. split; [reflexivity|]. discriminate.
Qed.

(** The patient holds a request of a doctor whose document is gone. *)
Lemma updateConnectionRequest_stops_half_way_witness :
  let w := set_users sample_world
             {[ "pat1"%string := with_pending (arrayUnion "doc9") sample_patient ]} in
  let r := firestore.updateConnectionRequest w "pat1" "doc9" firestore.approved in
  r.2 = failed "Failed to update connection request." /\
  users r.1 !! "pat1"%string = Some (with_pending (fun _ => Some []) sample_patient).
Proof.
  intros w r.
  destruct (updateConnectionRequest_stops_half_way w "pat1" "doc9" firestore.approved eq_refl)
    as (Hfail & _ & Hw).
  split; [exact Hfail|].
  fold r in Hw. rewrite (Hw (with_pending (arrayUnion "doc9") sample_patient) eq_refl).
  reflexivity.
Defined.

(** Both sides of an approval. *)
Lemma approval_connects_both_sides_facts (w : World) (patientId doctorId : string)
    (patientDoc doctorDoc : UserDocument) :
  users w !! patientId = Some patientDoc ->
  users w !! doctorId = Some doctorDoc ->
  let w' := (firestore.updateConnectionRequest w patientId doctorId firestore.approved).1 in
  exists p d,
    users w' !! patientId = Some p /\ users w' !! doctorId = Some d /\
    includes (successfulConnections p) doctorId = true /\
    includes (successfulConnections d) patientId = true.
Proof.
  intros Hp Hd w'. subst w'.
  rewrite (updateConnectionRequest_approved _ _ _ _ _ Hp Hd). simpl.
  destruct (decide (patientId = doctorId)) as [->|Hne].
  - do 2 eexists.
    split; [lookup_alters; rewrite Hd; reflexivity|].
    split; [lookup_alters; rewrite Hd; reflexivity|].
    simpl. split; apply includes_arrayUnion.
  - do 2 eexists.
    split; [lookup_alters; rewrite Hp; reflexivity|].
    split; [lookup_alters; rewrite Hd; reflexivity|].
    simpl. split; apply includes_arrayUnion.
Qed.

(** ** The lists of connected users *)

Section ListFacts.
Variable refuses : list string -> bool.

Lemma usersWithIdIn_spec (w : World) (ids : list string) (docs : list UserDocument)
    (u : UserDocument) :
  firestore_lists.usersWithIdIn refuses w ids = Ok docs ->
  u ∈ docs <-> exists id, id ∈ ids /\ users w !! id = Some u.
Proof.
  unfold firestore_lists.usersWithIdIn. destruct (refuses ids); [discriminate|].
  intros [= <-]. rewrite list_elem_of_fmap. split.
  - intros ([id u'] & -> & Hin). apply list_elem_of_filter in Hin as [Hid Hin].
    apply bool_decide_unpack in Hid. apply elem_of_map_to_list in Hin. eauto.
  - intros (id & Hid & Hu). exists (id, u). split; [reflexivity|].
    apply list_elem_of_filter. split.
    + apply bool_decide_pack. exact Hid.
    + apply elem_of_map_to_list. exact Hu.
Qed.

(** What [getConnectedPatients] lists, when the store takes the query. *)
Lemma getConnectedPatients_spec (w : World) (doctorId : string) (doctorDoc : UserDocument)
    (u : UserDocument) :
  users w !! doctorId = Some doctorDoc ->
  refuses (default [] (successfulConnections doctorDoc)) = false ->
  u ∈ firestore_lists.getConnectedPatients refuses w doctorId <->
  exists id, includes (successfulConnections doctorDoc) id = true /\ users w !! id = Some u.
Proof.
  intros Hd Hr. unfold firestore_lists.getConnectedPatients, firestore.getUserDocument.
  rewrite Hd. unfold includes.
  destruct (successfulConnections doctorDoc) as [[|id0 ids]|] eqn:E.
  - split; [intros H; inversion H|]. intros (id & H & _).
    apply bool_decide_eq_true in H. inversion H.
  - simpl in Hr.
    destruct (firestore_lists.usersWithIdIn refuses w (id0 :: ids)) as [docs|e] eqn:Q.
    + rewrite (usersWithIdIn_spec _ _ _ u Q). split.
      * intros (id & Hin & Hu). exists id. split; [apply bool_decide_eq_true|]; assumption.
      * intros (id & Hin & Hu). exists id. split; [apply bool_decide_eq_true in Hin|]; assumption.
    + unfold firestore_lists.usersWithIdIn in Q. rewrite Hr in Q. discriminate.
  - split; [intros H; inversion H|]. intros (id & H & _). discriminate.
Qed.

Lemma getConnectedDoctors_spec (w : World) (patientId : string) (patientDoc : UserDocument)
    (u : UserDocument) :
  users w !! patientId = Some patientDoc ->
  refuses (default [] (successfulConnections patientDoc)) = false ->
  u ∈ firestore_lists.getConnectedDoctors refuses w patientId <->
  exists id, includes (successfulConnections patientDoc) id = true /\ users w !! id = Some u.
Proof. exact (getConnectedPatients_spec w patientId patientDoc u). Qed.

(** X6. After an approval each party finds the other in its list: the
    patient's document is among the doctor's [getConnectedPatients] and
    the doctor's among the patient's [getConnectedDoctors], provided the
    store takes the [in] query over the respective list of ids.  When
    the store refuses the query the list comes back empty, as if there
    were no connection. *)
Theorem approval_shows_in_lists (w : World) (patientId doctorId : string)
    (patientDoc doctorDoc : UserDocument) :
  users w !! patientId = Some patientDoc ->
  users w !! doctorId = Some doctorDoc ->
  let w' := (firestore.updateConnectionRequest w patientId doctorId firestore.approved).1 in
  exists p d,
    users w' !! patientId = Some p /\ users w' !! doctorId = Some d /\
    (if refuses (default [] (successfulConnections d))
     then firestore_lists.getConnectedPatients refuses w' doctorId = []
     else p ∈ firestore_lists.getConnectedPatients refuses w' doctorId) /\
    (if refuses (default [] (successfulConnections p))
     then firestore_lists.getConnectedDoctors refuses w' patientId = []
     else d ∈ firestore_lists.getConnectedDoctors refuses w' patientId).
Proof.
  intros Hp Hd w'.
  destruct (approval_connects_both_sides_facts w patientId doctorId patientDoc doctorDoc Hp Hd)
    as (p & d & Hp' & Hd' & Hps & Hds).
  fold w' in Hp', Hd'. exists p, d. split; [exact Hp'|]. split; [exact Hd'|]. split.
  - destruct (refuses (default [] (successfulConnections d))) eqn:Hr.
    + unfold firestore_lists.getConnectedPatients, firestore.getUserDocument.
      rewrite Hd'. destruct (successfulConnections d) as [[|id0 ids]|]; try reflexivity.
      unfold firestore_lists.usersWithIdIn. simpl in Hr. rewrite Hr. reflexivity.
    + apply (getConnectedPatients_spec w' doctorId d p Hd' Hr). eauto.
  - destruct (refuses (default [] (successfulConnections p))) eqn:Hr.
    + unfold firestore_lists.getConnectedDoctors, firestore.getUserDocument.
      rewrite Hp'. destruct (successfulConnections p) as [[|id0 ids]|]; try reflexivity.
      unfold firestore_lists.usersWithIdIn. simpl in Hr. rewrite Hr. reflexivity.
    + apply (getConnectedDoctors_spec w' patientId p d Hp' Hr). eauto.
Qed.

End ListFacts.

Lemma approval_shows_in_lists_witness :
  let w' := (firestore.updateConnectionRequest sample_world "pat1" "doc1"
               firestore.approved).1 in
  exists p d,
    users w' !! "pat1"%string = Some p /\ users w' !! "doc1"%string = Some d /\
    (if sample_refuses (default [] (successfulConnections d))
     then firestore_lists.getConnectedPatients sample_refuses w' "doc1" = []
     else p ∈ firestore_lists.getConnectedPatients sample_refuses w' "doc1") /\
    (if sample_refuses (default [] (successfulConnections p))
     then firestore_lists.getConnectedDoctors sample_refuses w' "pat1" = []
     else d ∈ firestore_lists.getConnectedDoctors sample_refuses w' "pat1").
Proof.
  exact (approval_shows_in_lists sample_refuses sample_world "pat1" "doc1"
           sample_patient sample_doctor eq_refl eq_refl).
Defined.

Example getConnectedPatients_after_approval :
  firestore_lists.getConnectedPatients sample_refuses
    (firestore.updateConnectionRequest sample_world "pat1" "doc1" firestore.approved).1
    "doc1" =
  [ with_successful (arrayUnion "doc1") (with_pending (arrayRemove "doc1") sample_patient) ].
Proof. vm_compute. reflexivity. Qed.

(** ** Reading back what was written (crypto.ts, firestore.ts, actions.ts) *)

Lemma Timestamp_toDate_fromDate (ms : Z) :
  Timestamp_toDate (ms / 1000) ((ms mod 1000) * 1000000) = ms.
Proof.
  unfold Timestamp_toDate.
  rewrite Z.mod_mul by lia. rewrite Z.div_mul by lia. simpl.
  pose proof (Z.div_mod ms 1000). lia.
Qed.

(** A timestamp a tenth of a microsecond before a whole second: the sum
    in doubles reaches the next millisecond. *)
Example Timestamp_toDate_rounds :
  Timestamp_toDate 1700000000 999999900 = 1700000001000 /\
  Timestamp_toDate 1700000000 999999000 = 1700000000999 /\
  Timestamp_toDate 1700000000 123456789 = 1700000000123 /\
  Timestamp_toDate (-1) 999999999 = 0 /\
  Timestamp_toDate 253402300799 999999999 = 253402300800000.
Proof. repeat split; vm_compute; reflexivity. Qed.

Lemma assoc_lookup_defined_props (k : string) (props : list (string * jsval)) :
  NoDup (map fst props) ->
  default VUndefined (assoc_lookup k (defined_props props)) =
  default VUndefined (assoc_lookup k props).
Proof.
  induction props as [|[k' v] props IH]; intros Hnd; [reflexivity|].
  apply NoDup_cons_1_1 in Hnd as Hk'. apply NoDup_cons_1_2 in Hnd as Hnd'.
  specialize (IH Hnd'). simpl.
  destruct (String.eqb_spec k k') as [->|Hne].
  - destruct v; simpl; try rewrite String.eqb_refl; try reflexivity.
    assert (assoc_lookup k' (defined_props props) = None) as ->; [|reflexivity].
    clear -Hk'. induction props as [|[k v] props IH]; [reflexivity|].
    simpl in *. destruct (is_undefined v); simpl.
    + apply IH. intros H. apply Hk'. right. exact H.
    + destruct (String.eqb_spec k' k) as [->|_].
      * exfalso. apply Hk'. left.
      * apply IH. intros H. apply Hk'. right. exact H.
  - destruct (is_undefined v); simpl; [exact IH|].
    destruct (String.eqb_spec k k'); [contradiction|exact IH].
Qed.

Lemma defined_props_is_json (props : list (string * jsval)) :
  NoDup (map fst props) ->
  Forall (fun p => optional_json (snd p)) props ->
  is_json (VObj (defined_props props)).
Proof.
  intros Hnd Hall. simpl. split.
  - clear Hall. induction props as [|[k v] props IH]; simpl; [constructor|].
    apply NoDup_cons_1_1 in Hnd as Hk. apply NoDup_cons_1_2 in Hnd as Hnd'.
    destruct (is_undefined v); simpl; [exact (IH Hnd')|].
    apply NoDup_cons_2; [|exact (IH Hnd')].
    intros Hin. apply Hk. clear -Hin.
    induction props as [|[k' v'] props IH]; simpl in *; [exact Hin|].
    destruct (is_undefined v'); simpl in *.
    + right. apply IH, Hin.
    + apply elem_of_cons in Hin as [->|Hin]; [left|right; apply IH, Hin].
  - clear Hnd. induction Hall as [|[k v] props Hv _ IH]; simpl; [exact I|].
    destruct v; simpl; try exact IH;
      (split; [destruct Hv as [Hv|Hv]; [discriminate|exact Hv]|exact IH]).
Qed.

Section ReadBack.
Context {P : Platform}.

(** The cipher and the codecs undo each other around any text that
    [JSON.stringify] produced. *)
Lemma decryptObject_parses (env : Env) (iv : bytes) (v : jsval) (s : string) :
  aes_gcm_correct P -> base64_roundtrip P -> utf8_roundtrip P ->
  key_configured P env ->
  length iv = 12%nat ->
  JSON_stringify v = Some s ->
  exists blob, encryptObject env iv v = Ok blob /\
               decryptObject env (Some blob) = JSON_parse s.
Proof.
  intros Haes Hb64 Hutf Hkey Hiv Hs.
  destruct (getCryptoKey_configured env Hkey) as (key & Hk & Hlen).
  unfold encryptObject. rewrite Hk. simpl. eexists. split; [reflexivity|].
  unfold decryptObject. simpl. rewrite Hk. simpl.
  unfold base64ToArrayBuffer, arrayBufferToBase64. rewrite !Hb64.
  rewrite Haes by assumption. simpl.
  rewrite Hs. simpl. rewrite (Hutf v s Hs). reflexivity.
Qed.

Lemma newRecordDoc_lookups (now : Z) (userId : string) (recordData : firestore.RecordData)
    (blob : EncryptedBlob) :
  let doc := firestore.newRecordDoc now userId recordData blob in
  doc !! "userId" = Some (FPlain (VStr userId)) /\
  doc !! "type" = Some (FPlain (firestore.data_type recordData)) /\
  doc !! "date" = Some (Timestamp_of (firestore.data_date recordData)) /\
  doc !! "createdAt" = Some (Timestamp_of now) /\
  doc !! "encryptedData" = Some (FEncrypted blob) /\
  doc !! "diagnosis" = None.
Proof.
  unfold firestore.newRecordDoc, firestore.recordDoc, serverTimestamp. cbv zeta.
  repeat split;
    repeat first [ apply lookup_insert_eq
                 | apply lookup_empty
                 | rewrite lookup_insert_ne by discriminate ].
Qed.

(** The timestamp of a time value in range converts back to it. *)
Lemma getDate_fromDate (ms : Z) :
  Timestamp_range ms ->
  firestore.getDate (Some (Timestamp_of ms)) = Ok (Some (ValidDate ms)).
Proof.
  intros Hrange. pose proof (Timestamp_fromDate_range ms Hrange) as Hnew.
  unfold Timestamp_fromDate in Hnew. unfold Timestamp_of, firestore.getDate.
  rewrite Hnew. simpl. rewrite Timestamp_toDate_fromDate. reflexivity.
Qed.

(** The dates of the document that [addHealthRecord] stored convert. *)
Lemma convertRecordTimestamps_newRecordDoc (now later : Z) (userId : string)
    (recordData : firestore.RecordData) (blob : EncryptedBlob) :
  Timestamp_range (firestore.data_date recordData) ->
  Timestamp_range now ->
  firestore.convertRecordTimestamps later (firestore.newRecordDoc now userId recordData blob) =
    Ok {| firestore.meta_userId := Some (FPlain (VStr userId));
          firestore.meta_type := Some (FPlain (firestore.data_type recordData));
          firestore.meta_date := Date_toISOString (firestore.data_date recordData);
          firestore.meta_createdAt := Date_toISOString now |}.
Proof.
  intros Hdate Hnow.
  destruct (newRecordDoc_lookups now userId recordData blob) as (Hu & Ht & Hd & Hc & _ & Hg).
  unfold firestore.convertRecordTimestamps.
  rewrite Hu, Ht, Hd, Hc, Hg, (getDate_fromDate _ Hdate), (getDate_fromDate _ Hnow).
  reflexivity.
Qed.

(** The blob stored for a record decrypts to the fields that were
    given. *)
Lemma sensitivePayload_blob (env : Env) (iv : bytes) (recordData : firestore.RecordData) :
  aes_gcm_correct P -> base64_roundtrip P -> utf8_roundtrip P -> json_omits_undefined P ->
  key_configured P env ->
  length iv = 12%nat ->
  Forall (fun p => optional_json (snd p)) (own_props (firestore.sensitivePayload recordData)) ->
  exists blob,
    encryptObject env iv (firestore.sensitivePayload recordData) = Ok blob /\
    decryptObject env (Some blob) =
      Ok (VObj (defined_props (own_props (firestore.sensitivePayload recordData)))).
Proof.
  intros Haes Hb64 Hutf Hjson Hkey Hiv Hfields.
  set (props := own_props (firestore.sensitivePayload recordData)) in *.
  assert (NoDup (map fst props)) as Hnd.
  { subst props. simpl. apply (bool_decide_unpack _). vm_compute. reflexivity. }
  destruct (Hjson props Hnd (defined_props_is_json props Hnd Hfields)) as (s & Hs & Hparse).
  destruct (decryptObject_parses env iv (VObj props) s Haes Hb64 Hutf Hkey Hiv Hs)
    as (blob & Henc & Hdec).
  exists blob. split; [exact Henc|]. rewrite Hdec. exact Hparse.
Qed.

(** Reading the document that [addHealthRecord] stored. *)
Lemma readRecord_newRecordDoc (env : Env) (now later : Z) (newId userId : string)
    (recordData : firestore.RecordData) (blob : EncryptedBlob) :
  Timestamp_range (firestore.data_date recordData) ->
  Timestamp_range now ->
  decryptObject env (Some blob) =
    Ok (VObj (defined_props (own_props (firestore.sensitivePayload recordData)))) ->
  firestore.readRecord env later newId (firestore.newRecordDoc now userId recordData blob) =
    ([], Ok (written_record now newId userId recordData)).
Proof.
  intros Hdate Hnow Hdec.
  set (props := own_props (firestore.sensitivePayload recordData)) in *.
  assert (NoDup (map fst props)) as Hnd.
  { subst props. simpl. apply (bool_decide_unpack _). vm_compute. reflexivity. }
  destruct (newRecordDoc_lookups now userId recordData blob) as (_ & _ & _ & _ & He & _).
  unfold firestore.readRecord, firestore.decryptedPayload.
  rewrite (convertRecordTimestamps_newRecordDoc now later userId recordData blob Hdate Hnow).
  rewrite He. cbn [field_truthy as_EncryptedBlob]. rewrite Hdec.
  unfold firestore.buildRecord, get_prop.
  rewrite !(assoc_lookup_defined_props _ props Hnd).
  reflexivity.
Qed.

(** X7. A record reads back as it was written.  With a configured key,
    a record type, a date of the years 0001 to 9999 (what a timestamp
    can hold; the server's clock is within them), and every other field
    either left out or a JSON value, [addHealthRecord] stores the record
    and [getHealthRecord] then returns, without logging anything, the
    owner, the type, the two dates as ISO strings and each sensitive
    field as it was given; a title or content that was left out or null
    reads as the empty string. *)
Theorem record_reads_back (w : World) (env : Env) (iv : bytes) (now later : Z)
    (newId userId : string) (recordData : firestore.RecordData) :
  aes_gcm_correct P -> base64_roundtrip P -> utf8_roundtrip P -> json_omits_undefined P ->
  key_configured P env ->
  length iv = 12%nat ->
  firestore.data_type recordData <> VUndefined ->
  Timestamp_range (firestore.data_date recordData) ->
  Timestamp_range now ->
  Forall (fun p => optional_json (snd p)) (own_props (firestore.sensitivePayload recordData)) ->
  exists w',
    firestore.addHealthRecord w env iv now newId userId recordData = Ok (newId, w') /\
    firestore.getHealthRecord w' env later newId =
      ([], Ok (Some (written_record now newId userId recordData))).
Proof.
  intros Haes Hb64 Hutf Hjson Hkey Hiv Htype Hdate Hnow Hfields.
  destruct (sensitivePayload_blob env iv recordData Haes Hb64 Hutf Hjson Hkey Hiv Hfields)
    as (blob & Henc & Hdec).
  destruct (addHealthRecord_succeeds w env iv now newId userId recordData Hkey Htype Hdate)
    as [w' Hadd].
  exists w'. split; [exact Hadd|].
  destruct (addHealthRecord_Ok _ _ _ _ _ _ _ _ _ Hadd) as (_ & blob' & Henc' & ->).
  rewrite Henc in Henc'. injection Henc' as <-.
  unfold firestore.getHealthRecord. simpl. rewrite lookup_insert_eq.
  rewrite (readRecord_newRecordDoc env now later newId userId recordData blob
             Hdate Hnow Hdec).
  reflexivity.
Qed.

End ReadBack.

Lemma reference_omitting_aes_gcm_correct : aes_gcm_correct reference_omitting.
Proof. exact reference_aes_gcm_correct. Qed.

Lemma reference_omitting_base64_roundtrip : base64_roundtrip reference_omitting.
Proof. exact reference_base64_roundtrip. Qed.

Lemma reference_omitting_utf8_roundtrip : utf8_roundtrip reference_omitting.
Proof. intros v s _. apply string_of_list_byte_of_string. Qed.

Lemma reference_omitting_json : json_omits_undefined reference_omitting.
Proof.
  intros props _ Hjson.
  change (exists s, reference.stringify (VObj (defined_props props)) = Some s /\
                    reference.parse s = Ok (VObj (defined_props props))).
  destruct (reference.stringify (VObj (defined_props props))) as [s|] eqn:Hs.
  - exists s. split; [reflexivity|]. apply reference_parse_stringify, Hs.
  - discriminate.
Qed.

Lemma reference_omitting_key_configured : key_configured reference_omitting reference.env1.
Proof. exact reference_key_configured. Qed.

Lemma record_reads_back_witness :
  exists w',
    firestore.addHealthRecord (P := reference_omitting) sample_world reference.env1
      reference.iv1 1700000001000 "rec9" "pat1" sample_data = Ok ("rec9"%string, w') /\
    firestore.getHealthRecord (P := reference_omitting) w' reference.env1 0 "rec9" =
      ([], Ok (Some (written_record (P := reference_omitting)
                       1700000001000 "rec9" "pat1" sample_data))).
Proof.
  apply (record_reads_back (P := reference_omitting)).
  - exact reference_omitting_aes_gcm_correct.
  - exact reference_omitting_base64_roundtrip.
  - exact reference_omitting_utf8_roundtrip.
  - exact reference_omitting_json.
  - exact reference_omitting_key_configured.
  - reflexivity.
  - discriminate.
  - split; vm_compute; [discriminate|reflexivity].
  - split; vm_compute; [discriminate|reflexivity].
  - simpl. repeat constructor; first [left; reflexivity|right; exact I].
Defined.

Example written_record_sample :
  rec_title (written_record (P := reference_omitting) 0 "rec9" "pat1" sample_data) =
    VStr "Annual check-up" /\
  rec_pulseRate (written_record (P := reference_omitting) 0 "rec9" "pat1" sample_data) =
    VUndefined.
Proof. split; reflexivity. Qed.

(** ** The diagnosis of a connected doctor *)

Lemma assoc_lookup_assoc_set_ne {A} (k k' : string) (a : A) (l : list (string * A)) :
  k <> k' -> assoc_lookup k' (assoc_set k a l) = assoc_lookup k' l.
Proof.
  intros Hne. induction l as [|[k0 a0] l IH]; simpl.
  - destruct (String.eqb_spec k' k); [congruence|reflexivity].
  - destruct (String.eqb_spec k k0) as [->|Hk]; simpl.
    + destruct (String.eqb_spec k' k0); [congruence|reflexivity].
    + destruct (String.eqb_spec k' k0); [reflexivity|exact IH].
Qed.

Lemma assoc_set_keys {A} (k : string) (a : A) (l : list (string * A)) :
  map fst (assoc_set k a l) = map fst l \/
  ((k ∉ map fst l) /\ map fst (assoc_set k a l) = map fst l ++ [k]).
Proof.
  induction l as [|[k0 a0] l IH]; simpl.
  - right. split; [apply not_elem_of_nil|reflexivity].
  - destruct (String.eqb_spec k k0) as [->|Hk]; simpl; [left; reflexivity|].
    destruct IH as [->|[Hnot ->]]; [left; reflexivity|].
    right. split; [|reflexivity].
    intros Hin. apply elem_of_cons in Hin as [?|?]; [congruence|contradiction].
Qed.

Lemma assoc_set_is_json (k : string) (v : jsval) (l : list (string * jsval)) :
  is_json v -> is_json (VObj l) -> is_json (VObj (assoc_set k v l)).
Proof.
  intros Hv [Hnd Hall]. cbn [is_json]. split.
  - destruct (assoc_set_keys k v l) as [->|[Hnot ->]]; [exact Hnd|].
    apply list.NoDup_app. split; [exact Hnd|]. split.
    + intros x Hx Hx'. apply list_elem_of_singleton in Hx'. subst x. contradiction.
    + apply NoDup_singleton.
  - clear Hnd. induction l as [|[k0 v0] l IH]; simpl in *.
    + split; [exact Hv|exact I].
    + destruct Hall as [H0 Hall]. destruct (String.eqb k k0); simpl.
      * split; assumption.
      * split; [exact H0|exact (IH Hall)].
Qed.

Section DiagnosisFacts.
Context {P : Platform}.

(** A payload that is an object is assembled without error. *)
Lemma buildRecord_object (recordId : string) (meta : firestore.RecordMeta)
    (props : list (string * jsval)) :
  exists r, firestore.buildRecord recordId meta (VObj props) = Ok r /\
            rec_userId r = firestore.meta_userId meta /\
            forall diagnosis,
              firestore.buildRecord recordId meta (VObj (assoc_set "diagnosis" diagnosis props)) =
                Ok (set_diagnosis r diagnosis).
Proof.
  eexists. split; [reflexivity|]. split; [reflexivity|].
  intros diagnosis. unfold firestore.buildRecord, get_prop.
  rewrite assoc_lookup_assoc_set.
  rewrite !(assoc_lookup_assoc_set_ne "diagnosis") by discriminate.
  reflexivity.
Qed.

(** X8. Let a doctor be connected to the owner of a record whose date
    fields convert and whose payload decrypts to a JSON object.  Then
    [addDiagnosisToRecord] of actions.ts succeeds for any JSON object of
    diagnosis data, and the record reads back as before except for its
    diagnosis, which is the given data signed with the id and e-mail
    address of the doctor's own document (whatever [doctorId] or
    [doctorEmail] the data carried) and stamped with the time of the
    call. *)
Theorem diagnosis_reads_back (w : World) (env : Env) (iv : bytes) (now later : Z)
    (doctorId recordId patientId : string) (doctor : UserDocument) (data : Doc)
    (meta : firestore.RecordMeta) (blob : EncryptedBlob)
    (props dprops : list (string * jsval)) :
  aes_gcm_correct P -> base64_roundtrip P -> utf8_roundtrip P -> json_roundtrip P ->
  key_configured P env ->
  length iv = 12%nat ->
  users w !! doctorId = Some doctor ->
  includes (successfulConnections doctor) patientId = true ->
  healthRecords w !! recordId = Some data ->
  firestore.convertRecordTimestamps later data = Ok meta ->
  data !! "userId" = Some (FPlain (VStr patientId)) ->
  data !! "encryptedData" = Some (FEncrypted blob) ->
  decryptObject env (Some blob) = Ok (VObj props) ->
  is_json (VObj props) ->
  is_json (VObj dprops) ->
  let diagnosis :=
    VObj (assoc_set "createdAt" (VStr (Date_toISOString now))
            (assoc_set "doctorEmail" (VStr (email doctor))
               (assoc_set "doctorId" (VStr (uid doctor)) dprops))) in
  exists before w',
    firestore.getHealthRecord w env later recordId = ([], Ok (Some before)) /\
    actions.addDiagnosisToRecord w env iv now doctorId recordId (VObj dprops) =
      ([], Ok (w', succeeded)) /\
    firestore.getHealthRecord w' env later recordId =
      ([], Ok (Some (set_diagnosis before diagnosis))) /\
    get_prop diagnosis "doctorId" = Ok (VStr (uid doctor)) /\
    get_prop diagnosis "doctorEmail" = Ok (VStr (email doctor)) /\
    get_prop diagnosis "createdAt" = Ok (VStr (Date_toISOString now)).
Proof.
  intros Haes Hb64 Hutf Hjson Hkey Hiv Hdoc Hconn Hrec Hmeta Hown Henc Hdec Hprops Hdprops
    diagnosis.
  assert (is_json diagnosis) as Hdiag.
  { subst diagnosis. repeat apply assoc_set_is_json; try exact I. exact Hdprops. }
  assert (is_json (VObj (assoc_set "diagnosis" diagnosis props))) as Hnew
    by (apply assoc_set_is_json; assumption).
  destruct (Hjson _ Hnew) as (s & Hs & Hparse).
  destruct (decryptObject_parses env iv _ s Haes Hb64 Hutf Hkey Hiv Hs)
    as (blob' & Henc' & Hdec').
  rewrite Hparse in Hdec'.
  assert (forall t (d : Doc) m b ps,
            firestore.convertRecordTimestamps t d = Ok m ->
            d !! "encryptedData" = Some (FEncrypted b) ->
            decryptObject env (Some b) = Ok (VObj ps) ->
            firestore.readRecord env t recordId d =
              ([], firestore.buildRecord recordId m (VObj ps))) as Hread.
  { intros t d m b ps Hm Hd Hb. unfold firestore.readRecord, firestore.decryptedPayload.
    rewrite Hm, Hd. cbn [field_truthy as_EncryptedBlob]. rewrite Hb. reflexivity. }
  destruct (buildRecord_object recordId meta props) as (before & Hbefore & Hbown & Hafter).
  set (data' := <["encryptedData" := FEncrypted blob']> data).
  set (w' := set_healthRecords w (<[recordId := data']> (healthRecords w))).
  exists before, w'. split; [|split; [|split]].
  - unfold firestore.getHealthRecord.
    rewrite Hrec, (Hread later data meta blob props Hmeta Henc Hdec), Hbefore. reflexivity.
  - destruct (convertRecordTimestamps_clock later now data meta Hmeta) as [meta' Hmeta'].
    destruct (buildRecord_object recordId meta' props) as (r & Hr & Hrown & _).
    unfold actions.addDiagnosisToRecord, firestore.getHealthRecord.
    rewrite Hrec, (Hread now data meta' blob props Hmeta' Henc Hdec), Hr.
    unfold firestore.getUserDocument. rewrite Hdoc, Hrown.
    rewrite (proj1 (convertRecordTimestamps_Ok _ _ _ Hmeta')), Hown.
    cbn [actions.includes_field]. rewrite Hconn. cbn [negb].
    unfold firestore.addDiagnosisToRecord. rewrite Hrec, Henc.
    cbn [field_truthy as_EncryptedBlob]. rewrite Hdec. cbn [mbind Result_bind].
    change (firestore.updatedPayload now (VObj props)
              (actions.signedDiagnosis doctor (VObj dprops)))
      with (VObj (assoc_set "diagnosis" diagnosis props)).
    rewrite Henc'. reflexivity.
  - unfold firestore.getHealthRecord. subst w'. cbn [healthRecords set_healthRecords].
    rewrite lookup_insert_eq.
    assert (firestore.convertRecordTimestamps later data' = Ok meta) as Hmeta''.
    { rewrite <- Hmeta. unfold firestore.convertRecordTimestamps. subst data'.
      rewrite !lookup_insert_ne by discriminate. reflexivity. }
    rewrite (Hread later data' meta blob' (assoc_set "diagnosis" diagnosis props) Hmeta'');
      [|apply lookup_insert_eq|exact Hdec'].
    rewrite Hafter. reflexivity.
  - subst diagnosis. unfold get_prop.
    rewrite assoc_lookup_assoc_set.
    rewrite !(assoc_lookup_assoc_set_ne "createdAt") by discriminate.
    rewrite assoc_lookup_assoc_set.
    rewrite (assoc_lookup_assoc_set_ne "doctorEmail") by discriminate.
    rewrite assoc_lookup_assoc_set. repeat split.
Qed.

End DiagnosisFacts.

Lemma diagnosis_reads_back_witness :
  let doctor := with_successful (arrayUnion "pat1") sample_doctor in
  let diagnosis :=
    VObj (assoc_set "createdAt" (VStr (Date_toISOString (Platform := reference.platform) 1700000003000))
            (assoc_set "doctorEmail" (VStr (email doctor))
               (assoc_set "doctorId" (VStr (uid doctor)) (own_props sample_diagnosis)))) in
  exists before w',
    firestore.getHealthRecord (P := reference.platform)
      sample_connected_world reference.env1 0 "rec1" = ([], Ok (Some before)) /\
    actions.addDiagnosisToRecord (P := reference.platform)
      sample_connected_world reference.env1 reference.iv1 1700000003000 "doc1" "rec1"
      sample_diagnosis = ([], Ok (w', succeeded)) /\
    firestore.getHealthRecord (P := reference.platform) w' reference.env1 0 "rec1" =
      ([], Ok (Some (set_diagnosis before diagnosis))) /\
    get_prop diagnosis "doctorId" = Ok (VStr "doc1") /\
    get_prop diagnosis "doctorEmail" = Ok (VStr "doc1@example.org") /\
    get_prop diagnosis "createdAt" =
      Ok (VStr (Date_toISOString (Platform := reference.platform) 1700000003000)).
Proof.
  destruct (firestore.convertRecordTimestamps (P := reference.platform) 0
              (firestore.newRecordDoc 1700000001000 "pat1" sample_data sample_json_blob))
    as [meta|e] eqn:Hmeta; [|vm_compute in Hmeta; discriminate].
  apply (diagnosis_reads_back (P := reference.platform) sample_connected_world reference.env1
           reference.iv1 1700000003000 0 "doc1" "rec1" "pat1"
           (with_successful (arrayUnion "pat1") sample_doctor)
           (firestore.newRecordDoc 1700000001000 "pat1" sample_data sample_json_blob)
           meta sample_json_blob
           [("title", VStr "Annual check-up"); ("content", VStr "All fine")]
           (own_props sample_diagnosis)).
  - exact reference_aes_gcm_correct.
  - exact reference_base64_roundtrip.
  - exact reference_utf8_roundtrip.
  - exact reference_json_roundtrip.
  - exact reference_key_configured.
  - reflexivity.
  - reflexivity.
  - reflexivity.
  - reflexivity.
  - exact Hmeta.
  - reflexivity.
  - reflexivity.
  - vm_compute. reflexivity.
  - simpl. repeat split; apply (bool_decide_unpack _); vm_compute; reflexivity.
  - simpl. repeat split; apply (bool_decide_unpack _); vm_compute; reflexivity.
Defined.

(** ** When [addHealthRecord] fails *)

Section AddFailure.
Context {P : Platform}.

Lemma getCryptoKey_Ok (env : Env) (key : bytes) :
  getCryptoKey env = Ok key -> key_configured P env.
Proof.
  unfold getCryptoKey. destruct (ENCRYPTION_KEY env) as [keyB64|] eqn:E; [|discriminate].
  destruct (String.eqb_spec keyB64 "") as [->|Hne]; [discriminate|].
  destruct (Nat.eqb_spec (length (Buffer_from_base64 keyB64)) 32) as [Hlen|_];
    [|discriminate].
  intros _. exists keyB64. repeat split; assumption.
Qed.

(** X9. [addHealthRecord] stores the record exactly when the key
    variable holds base64 text for 32 bytes, the record has a type and
    its date is of the years 0001 to 9999, which a timestamp can hold.
    In every other case it throws, and the error it throws is always
    "Failed to add health record.": neither the missing key, nor the
    range error of the timestamp, nor the store's complaint about the
    undefined field reaches the caller. *)
Theorem addHealthRecord_fails_only_generically (w : World) (env : Env) (iv : bytes) (now : Z)
    (newId userId : string) (recordData : firestore.RecordData) :
  ((exists w', firestore.addHealthRecord w env iv now newId userId recordData =
                 Ok (newId, w')) <->
   key_configured P env /\ firestore.data_type recordData <> VUndefined /\
   Timestamp_range (firestore.data_date recordData)) /\
  (forall e, firestore.addHealthRecord w env iv now newId userId recordData = Throw e ->
             e = "Failed to add health record."%string).
Proof.
  split; [split|].
  - intros [w' H]. unfold firestore.addHealthRecord, encryptObject in H.
    destruct (getCryptoKey env) as [key|] eqn:Hk; [|discriminate].
    split; [exact (getCryptoKey_Ok env key Hk)|].
    simpl in H.
    destruct (Timestamp_fromDate (firestore.data_date recordData)) as [date|] eqn:Hdate;
      [|discriminate].
    apply Timestamp_fromDate_Ok in Hdate as [Hrange ->].
    split; [|exact Hrange].
    intros Htype. simpl in H. unfold firestore.addDoc in H.
    rewrite bool_decide_eq_true_2 in H; [discriminate|].
    exists "type"%string, (FPlain VUndefined). split; [|reflexivity].
    unfold firestore.recordDoc. rewrite lookup_insert_ne by discriminate.
    rewrite lookup_insert_eq, Htype. reflexivity.
  - intros (Hkey & Htype & Hrange). apply addHealthRecord_succeeds; assumption.
  - intros e. unfold firestore.addHealthRecord.
    destruct (encryptObject env iv _) as [blob|]; simpl.
    + destruct (Timestamp_fromDate _) as [date|]; simpl.
      * destruct (firestore.addDoc w newId _); simpl; [discriminate|].
        intros [= <-]. reflexivity.
      * intros [= <-]. reflexivity.
    + intros [= <-]. reflexivity.
Qed.

End AddFailure.

Example addHealthRecord_without_key :
  firestore.addHealthRecord (P := reference.platform) sample_world
    {| ENCRYPTION_KEY := None; PINATA_GATEWAY_SUBDOMAIN := None |}
    reference.iv1 0 "rec9" "pat1" sample_data = Throw "Failed to add health record.".
Proof. reflexivity. Qed.

(** The first instant of the year 10000 is no timestamp. *)
Example addHealthRecord_year_10000 :
  Timestamp_fromDate 253402300800000 = Throw "Timestamp seconds out of range: 253402300800" /\
  firestore.addHealthRecord (P := reference.platform) sample_world reference.env1
    reference.iv1 0 "rec9" "pat1" (sample_data_dated 253402300800000) =
    Throw "Failed to add health record." /\
  exists w',
    firestore.addHealthRecord (P := reference.platform) sample_world reference.env1
      reference.iv1 0 "rec9" "pat1" (sample_data_dated 253402300799999) =
      Ok ("rec9"%string, w').
Proof. split; [|split]; [vm_compute; reflexivity..|eexists; vm_compute; reflexivity]. Qed.

(** ** Share links (firestore.ts, actions.ts) *)

Lemma str_append_assoc (s t u : string) : (s +:+ t) +:+ u = s +:+ (t +:+ u).
Proof.
  induction s as [|c s IH]; [reflexivity|].
  change (String c ((s +:+ t) +:+ u) = String c (s +:+ (t +:+ u))).
  f_equal. exact IH.
Qed.

Section ShareFacts.
Context {P : Platform}.

Lemma getHealthRecords_no_documents (w : World) (env : Env) (now : Z) (userId : string) :
  (forall recordId data,
     healthRecords w !! recordId = Some data ->
     data !! "userId" <> Some (FPlain (VStr userId))) ->
  firestore.getHealthRecords w env now userId = ([], Ok []).
Proof.
  intros Hnone. unfold firestore.getHealthRecords.
  assert (firestore.queryByUserId w userId = []) as ->; [|reflexivity].
  destruct (firestore.queryByUserId w userId) as [|[recordId data] rest] eqn:E;
    [reflexivity|].
  exfalso.
  assert ((recordId, data) ∈ firestore.queryByUserId w userId) as Hin
    by (rewrite E; apply list_elem_of_here).
  apply queryByUserId_spec in Hin as [Hrec Hown].
  exact (Hnone recordId data Hrec Hown).
Qed.

(** X10. A share link does not lead to the sharer's records.
    [createShareLink] files a share document for the user under a fresh
    id and returns the URL ending in [/share/<id>]; but
    [getSharedRecords] never looks at the share documents: it reads the
    records whose [userId] field equals the id it is given.  So for the
    id of the link, when no record names that id as its owner, it
    returns an empty list, however many records the sharer has; and for
    a user's id it returns that user's records, share or no share. *)
Theorem share_link_shows_no_records (w : World) (env : Env)
    (sharesCollection : shares.Shares) (now later : Z) (newId userId : string)
    (host NODE_ENV : option string) :
  userId <> ""%string ->
  (forall recordId data,
     healthRecords w !! recordId = Some data ->
     data !! "userId" <> Some (FPlain (VStr newId))) ->
  let r := shares.createShareLink sharesCollection now newId host NODE_ENV userId in
  (exists origin, r.2 = shares.Link (origin +:+ "/share/" +:+ newId)) /\
  r.1 !! newId = Some {| shares.share_userId := userId; shares.share_createdAt := now |} /\
  shares.getSharedRecords w env later newId =
    ([], Ok {| shares.records := []; shares.userId := newId |}) /\
  (forall logs records,
     firestore.getHealthRecords w env later userId = (logs, Ok records) ->
     shares.getSharedRecords w env later userId =
       (logs, Ok {| shares.records := records; shares.userId := userId |})).
Proof.
  intros Hne Hfresh r. subst r. unfold shares.createShareLink.
  destruct (String.eqb_spec userId "") as [?|_]; [contradiction|].
  cbn [shares.createShare fst snd]. split; [|split; [|split]].
  - exists ((match NODE_ENV with
             | Some "production"%string => "https"
             | _ => "http"
             end) +:+ "://" +:+ default "null" host)%string.
    rewrite !str_append_assoc. reflexivity.
  - apply lookup_insert_eq.
  - unfold shares.getSharedRecords.
    rewrite (getHealthRecords_no_documents w env later newId Hfresh). reflexivity.
  - intros logs records H. unfold shares.getSharedRecords. rewrite H. reflexivity.
Qed.

End ShareFacts.

Lemma share_link_shows_no_records_witness :
  let r := shares.createShareLink ∅ 1700000004000 "share1"
             (Some "medivault.example"%string) (Some "production"%string) "pat1" in
  (exists origin, r.2 = shares.Link (origin +:+ "/share/" +:+ "share1")) /\
  r.1 !! "share1"%string =
    Some {| shares.share_userId := "pat1"; shares.share_createdAt := 1700000004000 |} /\
  shares.getSharedRecords (P := reference.platform) sample_world reference.env1 0 "share1" =
    ([], Ok {| shares.records := []; shares.userId := "share1" |}) /\
  (forall logs records,
     firestore.getHealthRecords (P := reference.platform) sample_world reference.env1 0 "pat1" =
       (logs, Ok records) ->
     shares.getSharedRecords (P := reference.platform) sample_world reference.env1 0 "pat1" =
       (logs, Ok {| shares.records := records; shares.userId := "pat1" |})).
Proof.
  apply (share_link_shows_no_records (P := reference.platform) sample_world reference.env1
           ∅ 1700000004000 0 "share1" "pat1").
  - discriminate.
  - intros recordId data Hrec.
    change (healthRecords sample_world) with ({[ "rec1"%string := sample_doc ]} : gmap string Doc)
      in Hrec.
    apply lookup_singleton_Some in Hrec as [_ <-]. vm_compute. discriminate.
Defined.

Example createShareLink_url :
  (shares.createShareLink ∅ 0 "share1" (Some "medivault.example"%string)
     (Some "production"%string) "pat1").2 =
  shares.Link "https://medivault.example/share/share1".
Proof. reflexivity. Qed.

Example createShareLink_logged_out :
  shares.createShareLink ∅ 0 "share1" None None "" =
  (∅, shares.NotLoggedIn "You must be logged in to share records.").
Proof. reflexivity. Qed.

(** ** Reading an attachment (PinataFileViewer.tsx, pinata.ts) *)

Section ViewerMore.
Context {P : Platform}.

Lemma tryGateways_Throw (net : Network) (cid : string) (gs : list string)
    (lastError : option string) (e : string) :
  (pinata.tryGateways net cid gs lastError).2 = Throw e ->
  exists final, e = pinata.allGatewaysFailed final cid.
Proof.
  revert lastError. induction gs as [|g gs IH]; intros lastError; simpl.
  - intros [= <-]. eauto.
  - destruct (pinata.fetchFromGateway net g cid) as [b|err]; simpl; [discriminate|].
    specialize (IH (Some err)).
    destruct (pinata.tryGateways net cid gs (Some err)) as [attempts outcome].
    simpl in *. exact IH.
Qed.

Lemma allGatewaysFailed_reads_as_fetch_failure (final : option string) (cid fallback : string) :
  PinataFileViewer.fetchErrorText cid fallback (pinata.allGatewaysFailed final cid) =
    PinataFileViewer.networkErrorText cid.
Proof.
  unfold PinataFileViewer.fetchErrorText, pinata.allGatewaysFailed, or_else at 1.
  change (String.eqb ("Failed to fetch file from all IPFS gateways. Last error: " +:+ _) "")
    with false. cbv iota.
  rewrite str_includes_prefix; [reflexivity|].
  change "Failed to fetch file from all IPFS gateways. Last error: "%string
    with ("Failed to fetch" +:+ " file from all IPFS gateways. Last error: ")%string.
  rewrite str_append_assoc. apply prefix_append.
Qed.

(** X11. When no gateway delivers the file, the viewer shows the same
    text for every cause.  The error thrown by [getEncryptedFile] after
    the last gateway begins with "Failed to fetch", which the handlers
    take for a network failure: a 404 of every gateway, a timeout or an
    empty body are all reported as "Network error: Could not fetch file
    from IPFS ...", and nothing is decrypted or opened. *)
Theorem failed_retrieval_reads_as_network_error (net : Network) (env : Env)
    (props : PinataFileViewer.Props) (attempts : list Attempt) (e : string) :
  PinataFileViewer.cid props <> ""%string ->
  pinata.getEncryptedFile net env (PinataFileViewer.cid props) = (attempts, Throw e) ->
  let shown := {| PinataFileViewer.view_error :=
                    Some (PinataFileViewer.networkErrorText (PinataFileViewer.cid props));
                  PinataFileViewer.view_effects := PinataFileViewer.gets attempts |} in
  PinataFileViewer.handleView net env props = shown /\
  PinataFileViewer.handleDownload net env props = shown.
Proof.
  intros Hcid Hget shown.
  assert (exists final, e = pinata.allGatewaysFailed final (PinataFileViewer.cid props))
    as [final ->].
  { unfold pinata.getEncryptedFile in Hget.
    destruct (String.eqb_spec (PinataFileViewer.cid props) "") as [?|_]; [contradiction|].
    apply (tryGateways_Throw net _ (pinata.gateways env) None). rewrite Hget. reflexivity. }
  unfold PinataFileViewer.handleView, PinataFileViewer.handleDownload,
    PinataFileViewer.fetchAndDecrypt.
  destruct (String.eqb_spec (PinataFileViewer.cid props) "") as [?|_]; [contradiction|].
  rewrite Hget, !allGatewaysFailed_reads_as_fetch_failure. split; reflexivity.
Qed.

(** X12. An attachment encrypted by the form opens in the viewer as the
    file that was picked.  Let [uploadEncryptedToPinata] have pinned the
    file under a 32-byte key and a 12-byte nonce, and let a gateway
    deliver the pinned ciphertext for the CID.  Then, given the key and
    nonce the upload returned, [handleView] opens the original bytes and
    [handleDownload] saves them, with no error. *)
Theorem pinned_attachment_opens_as_uploaded (svc : HealthRecordForm.Services)
    (draws : HealthRecordForm.Draws) (file : File) (effects : list Effect)
    (pin : HealthRecordForm.PinResult) (net : Network) (env : Env)
    (attempts : list Attempt) (fileName mimeType : string) :
  aes_gcm_correct P -> browser_base64_roundtrip P ->
  length (HealthRecordForm.fileKey draws) = 32%nat ->
  length (HealthRecordForm.fileIv draws) = 12%nat ->
  HealthRecordForm.uploadEncryptedToPinata svc draws file = (effects, Ok pin) ->
  HealthRecordForm.pin_cid pin <> ""%string ->
  let ciphertext := subtle_encrypt (HealthRecordForm.fileKey draws)
                      (HealthRecordForm.fileIv draws) (file_bytes file) in
  pinata.getEncryptedFile net env (HealthRecordForm.pin_cid pin) = (attempts, Ok ciphertext) ->
  let props := {| PinataFileViewer.cid := HealthRecordForm.pin_cid pin;
                  PinataFileViewer.fileName := fileName;
                  PinataFileViewer.mimeType := mimeType;
                  PinataFileViewer.encryptionKey := Some (HealthRecordForm.pin_keyBase64 pin);
                  PinataFileViewer.iv := Some (HealthRecordForm.pin_ivBase64 pin) |} in
  let decrypt := Decrypt (HealthRecordForm.fileKey draws) (HealthRecordForm.fileIv draws)
                   ciphertext in
  PinataFileViewer.handleView net env props =
    {| PinataFileViewer.view_error := None;
       PinataFileViewer.view_effects :=
         PinataFileViewer.gets attempts ++ [decrypt; OpenBlob (file_bytes file) mimeType] |} /\
  PinataFileViewer.handleDownload net env props =
    {| PinataFileViewer.view_error := None;
       PinataFileViewer.view_effects :=
         PinataFileViewer.gets attempts ++
         [decrypt; DownloadBlob (or_else fileName "attachment") (file_bytes file)] |}.
Proof.
  intros Haes Hb64 Hklen Hilen Hup Hcid ciphertext Hget props decrypt.
  assert (webcrypto_available = true) as Hweb.
  { unfold HealthRecordForm.uploadEncryptedToPinata, HealthRecordForm.getSubtle in Hup.
    destruct webcrypto_available; [reflexivity|discriminate]. }
  destruct (uploadEncryptedToPinata_Ok svc draws file effects pin Hup) as (_ & _ & Hk & Hi).
  destruct Hb64 as [Hnil Hb64].
  assert (forall b : bytes, b <> [] -> btoa b <> ""%string) as Hne.
  { intros b Hb E. apply Hb. pose proof (Hb64 b) as H1.
    rewrite E, <- Hnil, Hb64 in H1. injection H1 as <-. reflexivity. }
  unfold PinataFileViewer.handleView, PinataFileViewer.handleDownload,
    PinataFileViewer.fetchAndDecrypt. subst props. cbn [PinataFileViewer.cid
    PinataFileViewer.encryptionKey PinataFileViewer.iv PinataFileViewer.mimeType
    PinataFileViewer.fileName default from_option id].
  destruct (String.eqb_spec (HealthRecordForm.pin_cid pin) "") as [?|_]; [contradiction|].
  rewrite Hget, Hk, Hi.
  destruct (String.eqb_spec (btoa (HealthRecordForm.fileKey draws)) "") as [E|_].
  { exfalso. apply (Hne _ ltac:(intros H0; rewrite H0 in Hklen; discriminate) E). }
  destruct (String.eqb_spec (btoa (HealthRecordForm.fileIv draws)) "") as [E|_].
  { exfalso. apply (Hne _ ltac:(intros H0; rewrite H0 in Hilen; discriminate) E). }
  cbn [negb andb].
  unfold PinataFileViewer.decryptFile, PinataFileViewer.base64ToArrayBuffer.
  rewrite Hweb, !Hb64. cbn [negb].
  unfold PinataFileViewer.importKey. rewrite Hklen.
  rewrite bool_decide_eq_true_2 by (do 2 apply list_elem_of_further; apply list_elem_of_here).
  subst ciphertext. rewrite (Haes _ _ _ Hklen Hilen). split; reflexivity.
Qed.

End ViewerMore.

Lemma reference_browser_base64_roundtrip : browser_base64_roundtrip reference.platform.
Proof.
  split; [reflexivity|]. intros b. simpl.
  rewrite list_byte_of_string_of_list_byte. reflexivity.
Qed.

(** No gateway of [sample_net] has the file [bafy2]. *)
Lemma failed_retrieval_reads_as_network_error_witness :
  let props := {| PinataFileViewer.cid := "bafy2";
                  PinataFileViewer.fileName := "scan.pdf";
                  PinataFileViewer.mimeType := "application/pdf";
                  PinataFileViewer.encryptionKey := None;
                  PinataFileViewer.iv := None |} in
  let attempts :=
    (pinata.getEncryptedFile (P := reference.platform) sample_net reference.env1 "bafy2").1 in
  let shown := {| PinataFileViewer.view_error := Some (PinataFileViewer.networkErrorText "bafy2");
                  PinataFileViewer.view_effects := PinataFileViewer.gets attempts |} in
  PinataFileViewer.handleView (P := reference.platform) sample_net reference.env1 props = shown /\
  PinataFileViewer.handleDownload (P := reference.platform) sample_net reference.env1 props =
    shown.
Proof.
  intros props attempts shown. subst attempts shown.
  destruct (pinata.getEncryptedFile (P := reference.platform) sample_net reference.env1 "bafy2")
    as [attempts [b|e]] eqn:E.
  - vm_compute in E. discriminate.
  - apply (failed_retrieval_reads_as_network_error (P := reference.platform)
             sample_net reference.env1 props attempts e); [discriminate|exact E].
Defined.

Lemma pinned_attachment_opens_as_uploaded_witness :
  let props := {| PinataFileViewer.cid := "bafy1";
                  PinataFileViewer.fileName := "scan_1_1.pdf";
                  PinataFileViewer.mimeType := "application/pdf";
                  PinataFileViewer.encryptionKey := Some (string_of_list_byte reference.key2);
                  PinataFileViewer.iv := Some (string_of_list_byte reference.iv1) |} in
  view_opens (PinataFileViewer.handleView (P := reference.platform)
                sample_pinned_net reference.env1 props)
    (file_bytes sample_file) /\
  view_downloads (PinataFileViewer.handleDownload (P := reference.platform)
                    sample_pinned_net reference.env1 props)
    "scan_1_1.pdf" (file_bytes sample_file).
Proof.
  intros props.
  destruct (HealthRecordForm.uploadEncryptedToPinata (P := reference.platform)
              sample_services sample_draws sample_file) as [effects [pin|e]] eqn:Hup;
    [|vm_compute in Hup; discriminate].
  destruct (pinata.getEncryptedFile (P := reference.platform)
              sample_pinned_net reference.env1 "bafy1") as [attempts outcome] eqn:Hget.
  assert (pin = {| HealthRecordForm.pin_cid := "bafy1"; HealthRecordForm.pin_size := 46;
                   HealthRecordForm.pin_sha256 :=
                     subtle_digest_hex (Platform := reference.platform)
                       (reference.seal reference.key2 reference.iv1 (file_bytes sample_file));
                   HealthRecordForm.pin_keyBase64 := string_of_list_byte reference.key2;
                   HealthRecordForm.pin_ivBase64 := string_of_list_byte reference.iv1 |})
    as Hpin by (vm_compute in Hup; injection Hup as _ <-; reflexivity).
  assert (outcome = Ok (reference.seal reference.key2 reference.iv1 (file_bytes sample_file)))
    as -> by (vm_compute in Hget; injection Hget as _ <-; reflexivity).
  destruct (pinned_attachment_opens_as_uploaded (P := reference.platform)
              sample_services sample_draws sample_file effects pin
              sample_pinned_net reference.env1 attempts "scan_1_1.pdf" "application/pdf"
              reference_aes_gcm_correct reference_browser_base64_roundtrip
              eq_refl eq_refl Hup) as [Hview Hdown].
  - rewrite Hpin. discriminate.
  - rewrite Hpin. exact Hget.
  - rewrite Hpin in Hview, Hdown. unfold view_opens, view_downloads.
    pose proof (Hview : PinataFileViewer.handleView _ _ props = _) as ->.
    pose proof (Hdown : PinataFileViewer.handleDownload _ _ props = _) as ->. split.
    + split; [reflexivity|]. exists "application/pdf"%string. apply elem_of_app. right.
      apply list_elem_of_further, list_elem_of_here.
    + split; [reflexivity|]. apply elem_of_app. right.
      apply list_elem_of_further, list_elem_of_here.
Defined.

(** ** What the ledger and the pinning service decide (HealthRecordForm.tsx) *)

Section FormMore.
Context {P : Platform}.

Lemma uploadEncryptedToPinata_services (svc svc' : HealthRecordForm.Services)
    (draws : HealthRecordForm.Draws) (file : File) :
  (forall c n m h, HealthRecordForm.uploadEncryptedFile svc c n m h =
                   HealthRecordForm.uploadEncryptedFile svc' c n m h) ->
  HealthRecordForm.uploadEncryptedToPinata svc draws file =
  HealthRecordForm.uploadEncryptedToPinata svc' draws file.
Proof.
  intros H. unfold HealthRecordForm.uploadEncryptedToPinata. rewrite H. reflexivity.
Qed.

(** X13. The ledger never decides whether a record is saved.  Two
    submissions that differ only in the wallet (connected or not, on
    Sepolia or not) and in what the registry contract answers leave the
    same files on disk, the same store and the same sequence of uploads
    behind; only the toasts differ.  In particular a failed or missing
    ledger entry does not stop the record from being stored, and neither
    the transaction hash nor the file id of a successful one is stored
    with it. *)
Theorem ledger_never_decides_saving (env : Env) (svc svc' : HealthRecordForm.Services)
    (draws : HealthRecordForm.Draws) (disk : Disk) (w : World) (user : option string)
    (values : HealthRecordForm.Values) :
  (forall c n m h, HealthRecordForm.uploadEncryptedFile svc c n m h =
                   HealthRecordForm.uploadEncryptedFile svc' c n m h) ->
  let out := HealthRecordForm.onSubmit env svc draws disk w user values in
  let out' := HealthRecordForm.onSubmit env svc' draws disk w user values in
  HealthRecordForm.out_disk out = HealthRecordForm.out_disk out' /\
  HealthRecordForm.out_world out = HealthRecordForm.out_world out' /\
  HealthRecordForm.out_effects out = HealthRecordForm.out_effects out' /\
  length (HealthRecordForm.out_toasts out) = length (HealthRecordForm.out_toasts out').
Proof.
  intros Hsvc out out'. subst out out'. unfold HealthRecordForm.onSubmit.
  destruct user as [userId|]; [|repeat split].
  destruct (HealthRecordForm.values_attachment values) as [|file rest]; [repeat split|].
  unfold HealthRecordForm.uploadAttachment.
  destruct (HealthRecordForm.uploadFile disk userId file) as [disk' [fileUrl|e]];
    [|repeat split].
  rewrite (uploadEncryptedToPinata_services svc svc' draws file Hsvc).
  destruct (HealthRecordForm.uploadEncryptedToPinata svc' draws file) as [effects [pin|e]];
    [|repeat split].
  unfold HealthRecordForm.saveRecord.
  destruct (firestore.addHealthRecord w env _ _ _ userId _) as [[recordId w']|e];
    simpl; rewrite ?length_app; repeat split.
Qed.

(** X14. When the encrypted upload fails after the local upload went
    through, no record is created, but the plaintext copy stays behind:
    the store is unchanged, the user's uploads directory holds the
    picked file's bytes under a name that was free before, and the only
    toast is "File Upload Error" with the error of the upload. *)
Theorem failed_pin_leaves_plaintext_copy (env : Env) (svc : HealthRecordForm.Services)
    (draws : HealthRecordForm.Draws) (disk : Disk) (w : World) (userId : string)
    (values : HealthRecordForm.Values) (file : File) (rest : list File)
    (url e : string) :
  HealthRecordForm.values_attachment values = file :: rest ->
  (HealthRecordForm.uploadFile disk userId file).2 = Ok url ->
  (HealthRecordForm.uploadEncryptedToPinata svc draws file).2 = Throw e ->
  let out := HealthRecordForm.onSubmit env svc draws disk w (Some userId) values in
  HealthRecordForm.out_world out = w /\
  (forall recordId, AddRecord recordId ∉ HealthRecordForm.out_effects out) /\
  HealthRecordForm.out_toasts out =
    [ {| HealthRecordForm.toast_title := "File Upload Error";
         HealthRecordForm.toast_description := e |} ] /\
  exists filename,
    url = ("/uploads/" +:+ userId +:+ "/" +:+ filename)%string /\
    (disk !! userId ≫= fun dir => dir !! filename) = None /\
    (HealthRecordForm.out_disk out !! userId ≫= fun dir => dir !! filename) =
      Some (file_bytes file).
Proof.
  intros Hatt Hup Hfail out. subst out.
  unfold HealthRecordForm.onSubmit. rewrite Hatt.
  unfold HealthRecordForm.uploadAttachment.
  destruct (HealthRecordForm.uploadFile disk userId file) as [disk' outcome] eqn:HU.
  simpl in Hup. subst outcome.
  pose proof (uploadEncryptedToPinata_no_record svc draws file) as Hno.
  destruct (HealthRecordForm.uploadEncryptedToPinata svc draws file) as [effects outcome].
  simpl in Hfail, Hno. subst outcome. simpl.
  split; [reflexivity|]. split.
  { intros recordId Hin. apply elem_of_cons in Hin as [Hin|Hin]; [discriminate|].
    exact (Hno recordId Hin). }
  split; [reflexivity|].
  destruct (uploadFile_Ok _ _ _ _ _ HU) as (filename & Hurl & Hfresh & ->).
  exists filename. split; [exact Hurl|]. split.
  - destruct (disk !! userId) as [dir|] eqn:Hdir; simpl in *; [|reflexivity].
    apply not_elem_of_dom. intros Hd. apply Hfresh.
    unfold upload_route.taken. apply elem_of_union. left. exact Hd.
  - rewrite with_file_lookup. simpl. apply lookup_insert_eq.
Qed.

End FormMore.

Lemma ledger_never_decides_saving_witness :
  let out := HealthRecordForm.onSubmit (P := reference.platform) reference.env1
               sample_services sample_draws sample_disk sample_world (Some "pat1"%string)
               sample_values in
  let out' := HealthRecordForm.onSubmit (P := reference.platform) reference.env1
                sample_wallet_services sample_draws sample_disk sample_world
                (Some "pat1"%string) sample_values in
  HealthRecordForm.out_disk out = HealthRecordForm.out_disk out' /\
  HealthRecordForm.out_world out = HealthRecordForm.out_world out' /\
  HealthRecordForm.out_effects out = HealthRecordForm.out_effects out' /\
  length (HealthRecordForm.out_toasts out) = length (HealthRecordForm.out_toasts out').
Proof.
  apply (ledger_never_decides_saving (P := reference.platform)). reflexivity.
Defined.

Example ledger_toasts_differ :
  HealthRecordForm.toast_title <$>
    HealthRecordForm.out_toasts
      (HealthRecordForm.onSubmit (P := reference.platform) reference.env1
         sample_services sample_draws sample_disk sample_world (Some "pat1"%string)
         sample_values) = ["Wallet Not Connected"%string; "Success"%string] /\
  HealthRecordForm.toast_title <$>
    HealthRecordForm.out_toasts
      (HealthRecordForm.onSubmit (P := reference.platform) reference.env1
         sample_wallet_services sample_draws sample_disk sample_world (Some "pat1"%string)
         sample_values) = ["Blockchain Record Created"%string; "Success"%string].
Proof. split; vm_compute; reflexivity. Qed.

Lemma failed_pin_leaves_plaintext_copy_witness :
  let out := HealthRecordForm.onSubmit (P := reference.platform) reference.env1
               sample_failing_services sample_draws sample_disk sample_world
               (Some "pat1"%string) sample_values in
  HealthRecordForm.out_world out = sample_world /\
  exists filename,
    (sample_disk !! "pat1"%string ≫= fun dir => dir !! filename) = None /\
    (HealthRecordForm.out_disk out !! "pat1"%string ≫= fun dir => dir !! filename) =
      Some (file_bytes sample_file).
Proof.
  intros out.
  destruct (failed_pin_leaves_plaintext_copy (P := reference.platform) reference.env1
              sample_failing_services sample_draws sample_disk sample_world "pat1"
              sample_values sample_file [] "/uploads/pat1/scan_1_1.pdf"
              (default "" (JSON_stringify (Platform := reference.platform)
                 (VObj [("error", VStr "Upload failed");
                        ("details", VStr "Pinata upload failed (401): Unauthorized.")]))))
    as (Hw & _ & _ & filename & _ & Hfile).
  - reflexivity.
  - vm_compute. reflexivity.
  - vm_compute. reflexivity.
  - split; [exact Hw|]. exists filename. exact Hfile.
Defined.

(** ** The upload endpoint (src/app/api/upload/route.ts) *)

Lemma all_chars_append (p : ascii -> bool) (s t : string) :
  all_chars p (s +:+ t) = (all_chars p s && all_chars p t)%bool.
Proof.
  induction s as [|c s IH]; [reflexivity|].
  change (String c s +:+ t) with (String c (s +:+ t)). simpl. rewrite IH.
  apply andb_assoc.
Qed.

Lemma all_chars_substring (p : ascii -> bool) (n m : nat) (s : string) :
  all_chars p s = true -> all_chars p (String.substring n m s) = true.
Proof.
  revert n m. induction s as [|c s IH]; intros n m H.
  - destruct n, m; reflexivity.
  - simpl in H. apply andb_prop in H as [Hc Hs].
    destruct n as [|n]; simpl.
    + destruct m as [|m]; [reflexivity|]. simpl. rewrite Hc. apply IH, Hs.
    + apply IH, Hs.
Qed.

Lemma all_chars_impl (p q : ascii -> bool) (s : string) :
  (forall c, p c = true -> q c = true) -> all_chars p s = true -> all_chars q s = true.
Proof.
  intros Hpq. induction s as [|c s IH]; [reflexivity|]. simpl.
  intros H. apply andb_prop in H as [Hc Hs]. rewrite (Hpq c Hc). exact (IH Hs).
Qed.

Lemma pretty_N_go_digits (x : N) (s : string) :
  all_chars name_char s = true -> all_chars name_char (pretty_N_go x s) = true.
Proof.
  revert s. induction (N.lt_wf_0 x) as [x _ IH]. intros s Hs.
  destruct (decide (x = 0)%N) as [->|Hx].
  - rewrite pretty_N_go_0. exact Hs.
  - rewrite pretty_N_go_step by lia. apply IH.
    + apply N.div_lt; lia.
    + simpl. rewrite Hs, andb_true_r. unfold pretty_N_char.
      repeat case_match; reflexivity.
Qed.

Lemma pretty_nat_digits (n : nat) : all_chars name_char (pretty n) = true.
Proof.
  unfold pretty, pretty_nat, pretty, pretty_N.
  destruct (decide _); [reflexivity|]. apply pretty_N_go_digits. reflexivity.
Qed.

Lemma replace_unsafe_chars (s : string) :
  all_chars name_char (upload_route.replace_unsafe s) = true.
Proof.
  induction s as [|c s IH]; [reflexivity|]. simpl. rewrite IH, andb_true_r.
  unfold name_char. destruct (upload_route.safe_char c) eqn:E; [rewrite E|]; reflexivity.
Qed.

Lemma collapse_underscores_chars (p : ascii -> bool) (s : string) :
  all_chars p s = true -> all_chars p (upload_route.collapse_underscores s) = true.
Proof.
  induction s as [|c s IH]; [reflexivity|]. intros H.
  simpl in H. apply andb_prop in H as [Hc Hs]. specialize (IH Hs).
  cbn [upload_route.collapse_underscores]. destruct s as [|c' s'].
  - simpl. rewrite Hc. reflexivity.
  - destruct (_ && _)%bool; [exact IH|].
    cbn [all_chars]. rewrite Hc. exact IH.
Qed.

Lemma strip_leading_chars (p : ascii -> bool) (s : string) :
  all_chars p s = true -> all_chars p (upload_route.strip_leading s) = true.
Proof.
  destruct s as [|c s]; [reflexivity|]. intros H. unfold upload_route.strip_leading.
  destruct (Ascii.eqb c upload_route.underscore); [|exact H].
  simpl in H. apply andb_prop in H as [_ Hs]. exact Hs.
Qed.

Lemma strip_trailing_chars (p : ascii -> bool) (s : string) :
  all_chars p s = true -> all_chars p (upload_route.strip_trailing s) = true.
Proof.
  induction s as [|c s IH]; [reflexivity|]. intros H.
  simpl in H. apply andb_prop in H as [Hc Hs]. specialize (IH Hs).
  cbn [upload_route.strip_trailing]. destruct s as [|c' s'].
  - destruct (Ascii.eqb c upload_route.underscore); [reflexivity|].
    simpl. rewrite Hc. reflexivity.
  - cbn [all_chars]. rewrite Hc. exact IH.
Qed.

Lemma safeFilename_chars (originalName : string) :
  all_chars name_char (upload_route.safeFilename originalName) = true.
Proof.
  unfold upload_route.safeFilename.
  apply strip_trailing_chars, strip_leading_chars, collapse_underscores_chars,
    replace_unsafe_chars.
Qed.

(** The loop settles on the name it started with or on one it built. *)
Lemma uniqueFilename_shape (fuel : nat) (names : gset string)
    (nameWithoutExt ext finalFilename : string) (counter : nat) (x : string) :
  upload_route.uniqueFilename fuel names nameWithoutExt ext finalFilename counter = Some x ->
  x = finalFilename \/
  exists k : nat, x = (nameWithoutExt +:+ "_" +:+ pretty k +:+ ext)%string.
Proof.
  revert finalFilename counter. induction fuel as [|fuel IH]; intros f c;
    rewrite uniqueFilename_unfold; destruct (bool_decide (f ∈ names));
    try discriminate; try (intros [= <-]; left; reflexivity).
  intros H. right. apply IH in H as [->|H]; [eauto|exact H].
Qed.

Lemma no_slash (s : string) : all_chars name_char s = true -> str_includes "/" s = false.
Proof.
  induction s as [|c s IH]; [reflexivity|]. intros H.
  cbn [all_chars] in H. apply andb_prop in H as [Hc Hs].
  cbn [str_includes String.prefix].
  destruct (ascii_dec "/"%char c) as [E|_]; [rewrite <- E in Hc; discriminate|].
  exact (IH Hs).
Qed.

Section UploadMore.

#[local] Arguments upload_route.uniqueFilename : simpl never.

Lemma stored_default (disk : Disk) (userId name : string) :
  stored disk userId name = default ∅ (disk !! userId) !! name.
Proof. unfold stored. destruct (disk !! userId); [reflexivity|]. symmetry. apply lookup_empty. Qed.

(** Writing under a name that was free changes no file that was there. *)
Lemma stored_with_file (disk : Disk) (owner filename : string) (written : bytes)
    (userId name : string) (content : bytes) :
  filename ∉ upload_route.taken (default ∅ (disk !! owner)) ->
  stored disk userId name = Some content ->
  stored (with_file disk owner filename written) userId name = Some content.
Proof.
  intros Hfresh H. unfold stored in *.
  destruct (decide (userId = owner)) as [->|Hne].
  - rewrite with_file_lookup. simpl.
    destruct (disk !! owner) as [dir|] eqn:Hdir; simpl in *; [|discriminate].
    rewrite lookup_insert_ne; [exact H|].
    intros ->. apply Hfresh. unfold upload_route.taken.
    apply elem_of_union. left. apply elem_of_dom. eauto.
  - rewrite with_file_lookup_ne by assumption. exact H.
Qed.

(** What an answer other than 200 leaves behind: nothing, the user's new
    and empty directory, or after a failed write what the file system
    left of the file, under a name that was free. *)
Lemma POST_refused (disk disk' : Disk) (form : upload_route.UploadForm)
    (res : upload_route.HttpResponse) (msg : string) :
  upload_route.POST disk form = (disk', res) ->
  upload_route.http_json res = upload_route.ErrorJson msg ->
  (msg <> "Could not save file"%string /\
   (disk' = disk \/ exists userId, upload_route.ensureDir disk userId = Some disk')) \/
  (msg = "Could not save file"%string /\
   exists userId disk1 filename,
     upload_route.ensureDir disk userId = Some disk1 /\
     (filename ∉ upload_route.taken (default ∅ (disk !! userId))) /\
     (disk' = disk1 \/ exists part, disk' = with_file disk userId filename part)).
Proof.
  unfold upload_route.POST. intros HP Hjson.
  assert (forall (d : Disk) (status : Z) (m : string),
            (d, upload_route.respond status (upload_route.ErrorJson m)) = (disk', res) ->
            m <> "Could not save file"%string ->
            (d = disk \/ exists userId, upload_route.ensureDir disk userId = Some d) ->
            (msg <> "Could not save file"%string /\
             (disk' = disk \/ exists userId, upload_route.ensureDir disk userId = Some disk')) \/
            (msg = "Could not save file"%string /\
             exists userId disk1 filename,
               upload_route.ensureDir disk userId = Some disk1 /\
               (filename ∉ upload_route.taken (default ∅ (disk !! userId))) /\
               (disk' = disk1 \/ exists part, disk' = with_file disk userId filename part)))
    as Hearly.
  { intros d status m [= <- <-] Hm Hd. simpl in Hjson. injection Hjson as <-.
    left. split; assumption. }
  destruct (String.eqb (default "" (upload_route.form_userId form)) "");
    [apply (Hearly _ _ _ HP); [discriminate|left; reflexivity]|].
  set (userId := default "" (upload_route.form_userId form)) in *.
  destruct (upload_route.ensureDir disk userId) as [disk1|] eqn:Hdir;
    [|apply (Hearly _ _ _ HP); [discriminate|left; reflexivity]].
  destruct (ensureDir_Some _ _ _ Hdir) as (Hsame & Hwith & Hwrite).
  destruct (upload_route.form_file form) as [[s|file]|];
    try (apply (Hearly _ _ _ HP); [discriminate|right; eauto]).
  destruct (_ <? _); [apply (Hearly _ _ _ HP); [discriminate|right; eauto]|].
  destruct (_ && _)%bool; [apply (Hearly _ _ _ HP); [discriminate|right; eauto]|].
  rewrite Hsame in HP.
  destruct (upload_route.uniqueFilename _ _ _ _ _ _) as [fn|] eqn:Hfn;
    [|apply (Hearly _ _ _ HP); [discriminate|right; eauto]].
  apply uniqueFilename_fresh in Hfn.
  destruct (writeFile_outcome disk1 userId fn (file_bytes file)) as [|remains].
  - injection HP as _ <-. discriminate.
  - injection HP as <- <-. simpl in Hjson. injection Hjson as <-.
    right. split; [reflexivity|]. exists userId, disk1, fn.
    split; [exact Hdir|]. split; [exact Hfn|].
    destruct remains as [part|]; [right; exists part; apply Hwith|left; reflexivity].
Qed.

(** The name under which an accepted upload is stored. *)
Lemma POST_filename (disk disk' : Disk) (form : upload_route.UploadForm)
    (res : upload_route.HttpResponse) (url filename originalName : string) :
  upload_route.POST disk form = (disk', res) ->
  upload_route.http_json res = upload_route.UploadedJson url filename originalName ->
  let safe := upload_route.safeFilename originalName in
  filename = safe \/
  exists k : nat, filename =
    (upload_route.basename safe (upload_route.extname safe) +:+ "_" +:+ pretty k
     +:+ upload_route.extname safe)%string.
Proof.
  unfold upload_route.POST. intros HP Hjson.
  assert (forall (d : Disk) (status : Z) (msg : string),
            (d, upload_route.respond status (upload_route.ErrorJson msg)) = (disk', res) ->
            False) as Hearly.
  { intros d status msg [= <- <-]. discriminate. }
  destruct (upload_route.form_userId form) as [userId|] eqn:Hu; simpl in HP;
    [|destruct (Hearly _ _ _ HP)].
  destruct (String.eqb userId ""); [destruct (Hearly _ _ _ HP)|].
  destruct (upload_route.ensureDir disk userId) as [disk1|];
    [|destruct (Hearly _ _ _ HP)].
  destruct (upload_route.form_file form) as [[s|file]|] eqn:Hf;
    try (destruct (Hearly _ _ _ HP)).
  destruct (_ <? _); [destruct (Hearly _ _ _ HP)|].
  destruct (_ && _)%bool; [destruct (Hearly _ _ _ HP)|].
  destruct (upload_route.uniqueFilename _ _ _ _ _ _) as [fn|] eqn:Hfn;
    [|destruct (Hearly _ _ _ HP)].
  destruct (writeFile_outcome disk1 userId fn (file_bytes file));
    [|destruct (Hearly _ _ _ HP)].
  injection HP as <- <-. simpl in Hjson. injection Hjson as <- <- <-.
  exact (uniqueFilename_shape _ _ _ _ _ _ _ Hfn).
Qed.

(** X15. An accepted upload is stored under a plain file name.  The
    name that [POST] reports and writes is made of letters, digits,
    dots, hyphens and underscores only, whatever the name the client
    sent; it contains no slash and is none of the empty name, [.] and
    [..]; so the bytes of the uploaded file lie directly in the
    directory of the given user id, at the URL
    [/uploads/<userId>/<name>]. *)
Theorem upload_stored_under_plain_name (disk disk' : Disk) (form : upload_route.UploadForm)
    (res : upload_route.HttpResponse) (url filename originalName : string) :
  upload_route.POST disk form = (disk', res) ->
  upload_route.http_json res = upload_route.UploadedJson url filename originalName ->
  all_chars name_char filename = true /\
  str_includes "/" filename = false /\
  filename <> ""%string /\ filename <> "."%string /\ filename <> ".."%string /\
  exists userId file,
    upload_route.form_userId form = Some userId /\
    upload_route.form_file form = Some (upload_route.EntryFile file) /\
    url = ("/uploads/" +:+ userId +:+ "/" +:+ filename)%string /\
    stored disk' userId filename = Some (file_bytes file).
Proof.
  intros HP Hjson.
  assert (all_chars name_char filename = true) as Hchars.
  { destruct (POST_filename _ _ _ _ _ _ _ HP Hjson) as [->|[k ->]].
    - apply safeFilename_chars.
    - pose proof (safeFilename_chars originalName) as Hsafe.
      unfold upload_route.basename, upload_route.extname.
      rewrite !all_chars_append, pretty_nat_digits.
      rewrite (all_chars_substring _ _ _ _ Hsafe).
      destruct (upload_route.last_dot_from 0 _) as [[|d]|]; try reflexivity.
      destruct (String.eqb _ ".."); [reflexivity|].
      rewrite (all_chars_substring _ _ _ _ Hsafe). reflexivity. }
  destruct (POST_uploaded _ _ _ _ _ _ _ HP Hjson)
    as (userId & file & Hu & Hf & _ & Hurl & Hfresh & ->).
  split; [exact Hchars|]. split; [exact (no_slash _ Hchars)|].
  unfold upload_route.taken in Hfresh.
  split; [|split; [|split]].
  - intros ->. apply Hfresh. set_solver.
  - intros ->. apply Hfresh. set_solver.
  - intros ->. apply Hfresh. set_solver.
  - exists userId, file. split; [exact Hu|]. split; [exact Hf|]. split; [exact Hurl|].
    unfold stored. rewrite with_file_lookup. simpl. apply lookup_insert_eq.
Qed.

(** X16. The endpoint never overwrites or removes a file.  Whatever the
    request and its answer, also when the write fails half-way, a file
    that was in some user's directory before is there afterwards with
    the same bytes.  A request answered with an error other than "Could
    not save file" stores no file: every name holds what it held before
    (the handler makes the user's directory before its checks, so that
    directory may be new, and empty). *)
Theorem upload_never_overwrites (disk disk' : Disk) (form : upload_route.UploadForm)
    (res : upload_route.HttpResponse) :
  upload_route.POST disk form = (disk', res) ->
  (forall userId name content,
     stored disk userId name = Some content -> stored disk' userId name = Some content) /\
  (forall msg,
     upload_route.http_json res = upload_route.ErrorJson msg ->
     msg <> "Could not save file"%string ->
     forall userId name, stored disk' userId name = stored disk userId name).
Proof.
  intros HP.
  assert (forall u d userId name,
            upload_route.ensureDir disk u = Some d ->
            stored d userId name = stored disk userId name) as Hensure.
  { intros u d userId name Hd. rewrite !stored_default.
    rewrite (proj1 (ensureDir_Some _ _ _ Hd)). reflexivity. }
  split.
  - intros userId name content H.
    destruct (upload_route.http_json res) as [msg|url filename originalName] eqn:Hjson.
    + destruct (POST_refused _ _ _ _ _ HP Hjson)
        as [(_ & [->|[u Hd]])|(_ & u & disk1 & fn & Hd & Hfresh & [->|[part ->]])].
      * exact H.
      * rewrite (Hensure _ _ _ _ Hd). exact H.
      * rewrite (Hensure _ _ _ _ Hd). exact H.
      * apply stored_with_file; assumption.
    + destruct (POST_uploaded _ _ _ _ _ _ _ HP Hjson)
        as (userId0 & file & _ & _ & _ & _ & Hfresh & ->).
      apply stored_with_file; assumption.
  - intros msg Hjson Hmsg userId name.
    destruct (POST_refused _ _ _ _ _ HP Hjson) as [(_ & [->|[u Hd]])|(Hsave & _)].
    + reflexivity.
    + apply (Hensure _ _ _ _ Hd).
    + contradiction.
Qed.

End UploadMore.

Example POST_hostile_name :
  upload_route.POST sample_disk sample_hostile_form =
    (with_file sample_disk "pat1" ".._evil_name.pdf" ["h"%byte; "i"%byte],
     upload_route.respond 200
       (upload_route.UploadedJson "/uploads/pat1/.._evil_name.pdf" ".._evil_name.pdf"
          "../evil name.pdf")).
Proof. vm_compute. reflexivity. Qed.

(** A name that the file system does not take: nothing is stored, and
    the answer is the one of the handler's inner [catch]. *)
Example POST_name_too_long :
  upload_route.POST sample_strict_disk
    {| upload_route.form_file := Some (upload_route.EntryFile sample_long_file);
       upload_route.form_userId := Some "pat1"%string |} =
    (set_dirs sample_strict_disk {[ "pat1"%string := ∅ ]},
     upload_route.respond 500 (upload_route.ErrorJson "Could not save file")).
Proof. vm_compute. reflexivity. Qed.

Lemma upload_stored_under_plain_name_witness :
  let filename := ".._evil_name.pdf"%string in
  let disk' := with_file sample_disk "pat1" ".._evil_name.pdf" ["h"%byte; "i"%byte] in
  all_chars name_char filename = true /\
  str_includes "/" filename = false /\
  filename <> ""%string /\ filename <> "."%string /\ filename <> ".."%string /\
  exists userId file,
    upload_route.form_userId sample_hostile_form = Some userId /\
    upload_route.form_file sample_hostile_form = Some (upload_route.EntryFile file) /\
    "/uploads/pat1/.._evil_name.pdf"%string =
      ("/uploads/" +:+ userId +:+ "/" +:+ filename)%string /\
    stored disk' userId filename = Some (file_bytes file).
Proof.
  exact (upload_stored_under_plain_name sample_disk _ sample_hostile_form _
           "/uploads/pat1/.._evil_name.pdf" ".._evil_name.pdf" "../evil name.pdf"
           POST_hostile_name eq_refl).
Defined.

Lemma upload_never_overwrites_witness :
  stored (with_file sample_disk "pat1" ".._evil_name.pdf" ["h"%byte; "i"%byte])
    "pat1" "scan_1.pdf" = Some ["o"%byte; "l"%byte; "d"%byte].
Proof.
  destruct (upload_never_overwrites sample_disk _ sample_hostile_form _ POST_hostile_name)
    as [Hkeep _].
  apply Hkeep. vm_compute. reflexivity.
Defined.

(** ** The form's checks against the endpoint's *)

(** X17. A file that passes the form's attachment checks (at most 5 MB,
    one of JPEG, PNG and PDF) is never refused by the checks of the
    endpoint, whose limits are wider.  For a logged-in user the local
    upload of such a file is answered 200, or 500 when the file system
    fails ("Upload error" for the directory, "Could not save file" for
    the file), never 400, 413 or 415; and when the file system makes
    the directory and takes the file, the answer is 200 and
    [uploadFile] returns the URL. *)
Theorem form_accepted_file_is_uploaded (disk : Disk) (userId : string) (file : File)
    (rest : list File) :
  userId <> ""%string ->
  formSchema.sizeAccepted (file :: rest) = true ->
  formSchema.typeAccepted (file :: rest) = true ->
  let res := (upload_route.POST disk
                {| upload_route.form_file := Some (upload_route.EntryFile file);
                   upload_route.form_userId := Some userId |}).2 in
  (upload_route.http_status res = 200 \/
   res = upload_route.respond 500 (upload_route.ErrorJson "Upload error") \/
   res = upload_route.respond 500 (upload_route.ErrorJson "Could not save file")) /\
  (takes_upload disk userId file ->
   upload_route.http_status res = 200 /\
   exists disk' url, HealthRecordForm.uploadFile disk userId file = (disk', Ok url)).
Proof.
  intros Hne Hsize Htype res. simpl in Hsize, Htype.
  apply Z.leb_le in Hsize. apply bool_decide_eq_true in Htype.
  assert (Z.of_nat (length (file_bytes file)) <= upload_route.MAX_FILE_SIZE) as Hsize'.
  { unfold formSchema.MAX_FILE_SIZE in Hsize. unfold upload_route.MAX_FILE_SIZE. lia. }
  assert (file_type file = ""%string \/ file_type file ∈ upload_route.ALLOWED_MIME) as Hmime.
  { right. unfold formSchema.ACCEPTED_FILE_TYPES in Htype. unfold upload_route.ALLOWED_MIME.
    repeat (apply elem_of_cons in Htype as [->|Htype]; [set_solver|]).
    inversion Htype. }
  split.
  - subst res.
    destruct (POST_checked disk userId file Hne Hsize' Hmime)
      as [(filename & -> & _)|[(-> & _)|(-> & _)]]; auto.
  - intros Hfs. subst res.
    destruct (POST_accepts disk userId file Hne Hsize' Hmime Hfs) as [filename HP].
    split; [rewrite HP; reflexivity|].
    unfold HealthRecordForm.uploadFile. rewrite HP. simpl. eauto.
Qed.

Lemma form_accepted_file_is_uploaded_witness :
  upload_route.http_status
    (upload_route.POST sample_disk
       {| upload_route.form_file := Some (upload_route.EntryFile sample_file);
          upload_route.form_userId := Some "pat1"%string |}).2 = 200 /\
  exists disk' url, HealthRecordForm.uploadFile sample_disk "pat1" sample_file = (disk', Ok url).
Proof.
  apply (form_accepted_file_is_uploaded sample_disk "pat1" sample_file []);
    [discriminate|reflexivity|reflexivity|].
  split; [discriminate|reflexivity].
Defined.

(** The form accepts the file with the long name; the endpoint passes it
    through its checks and fails to write it. *)
Example form_accepted_file_not_saved :
  formSchema.sizeAccepted [sample_long_file] = true /\
  formSchema.typeAccepted [sample_long_file] = true /\
  (HealthRecordForm.uploadFile sample_strict_disk "pat1" sample_long_file).2 =
    Throw "Could not save file".
Proof. split; [|split]; vm_compute; reflexivity. Qed.

Example endpoint_accepts_more_than_the_form :
  let file := {| file_name := "x.jpg"; file_type := "image/jpg"; file_bytes := [] |} in
  formSchema.typeAccepted [file] = false /\
  upload_route.http_status
    (upload_route.POST sample_disk
       {| upload_route.form_file := Some (upload_route.EntryFile file);
          upload_route.form_userId := Some "pat1"%string |}).2 = 200.
Proof. split; vm_compute; reflexivity. Qed.

(** ** The wallet hook (useWallet.ts, WalletStatus.tsx) *)

Lemma onSepolia_spec (chainId : string) :
  useWallet.onSepolia chainId = true <-> chainId = useWallet.SEPOLIA_chainId.
Proof.
  unfold useWallet.onSepolia.
  change ("0x" +:+ useWallet.toString16 (useWallet.parseInt16 useWallet.SEPOLIA_chainId))%string
    with "0xaa36a7"%string.
  rewrite orb_diag. apply String.eqb_eq.
Qed.

Lemma connectedState_consistent (account chainId : string) :
  wallet_consistent (useWallet.connectedState account chainId).
Proof.
  split; simpl; [|eauto].
  rewrite onSepolia_spec. destruct (String.eqb_spec chainId "") as [->|Hne].
  - split; discriminate.
  - split; [intros ->; reflexivity|intros [= ->]; reflexivity].
Qed.

Lemma with_error_consistent (s : useWallet.WalletState) (c : bool) (e : option string) :
  wallet_consistent s -> wallet_consistent (useWallet.with_error s c e).
Proof. intros H. exact H. Qed.

Lemma initialState_consistent : wallet_consistent useWallet.initialState.
Proof. split; simpl; [split; discriminate|discriminate]. Qed.

Lemma step_consistent (s s' : useWallet.WalletState) :
  useWallet.step s s' -> wallet_consistent s -> wallet_consistent s'.
Proof.
  intros Hstep Hs. destruct Hstep as [eth s|eth s|s|eth s|accounts s|c s].
  - unfold useWallet.checkConnection. destruct eth as [eth|]; [|exact Hs].
    destruct (useWallet.eth_accounts eth) as [accounts|]; [|exact Hs].
    destruct (useWallet.currentChainId eth) as [c|]; [|exact Hs].
    destruct accounts; [exact Hs|apply connectedState_consistent].
  - unfold useWallet.connect. destruct eth as [eth|]; [|exact Hs].
    destruct (useWallet.isMetaMask eth); [|exact Hs].
    destruct (useWallet.eth_requestAccounts eth) as [[|account accounts]|];
      try exact Hs.
    destruct (useWallet.currentChainId eth) as [c|];
      [apply connectedState_consistent|exact Hs].
  - apply initialState_consistent.
  - unfold useWallet.switchToSepolia. destruct eth as [eth|]; [|exact Hs].
    destruct (useWallet.wallet_switchEthereumChain eth) as [|code msg]; [exact Hs|].
    destruct (code =? 4902); [|exact Hs].
    destruct (useWallet.wallet_addEthereumChain eth); exact Hs.
  - destruct accounts as [|account accounts]; [apply initialState_consistent|].
    destruct Hs as [H1 H2]. split; [exact H1|]. simpl. eauto.
  - destruct Hs as [H1 H2]. split; [|exact H2]. simpl. rewrite onSepolia_spec.
    split; [intros ->; reflexivity|intros [= ->]; reflexivity].
Qed.

Lemma reachable_consistent (s : useWallet.WalletState) :
  useWallet.reachable s -> wallet_consistent s.
Proof.
  unfold useWallet.reachable. revert s.
  apply (rtc_ind_r wallet_consistent useWallet.initialState).
  - apply initialState_consistent.
  - intros y z _ Hstep Hy. exact (step_consistent y z Hstep Hy).
Qed.

(** X18. In every state the wallet hook can reach (from its initial
    state, by [checkConnection], [connect], [disconnect],
    [switchToSepolia] and the wallet's two events, whatever the wallet
    answers) the flag [isSepolia] is set exactly when the recorded chain
    id is [0xaa36a7], and a connected wallet has an address.  Hence
    [WalletStatus] shows the connected badge only for a state with an
    address and the chain id of Sepolia; asking the wallet to switch
    changes neither by itself. *)
Theorem wallet_state_stays_consistent (s : useWallet.WalletState) :
  useWallet.reachable s ->
  wallet_consistent s /\
  (forall ethereum shown,
     WalletStatus.render ethereum s = WalletStatus.ConnectedBadge shown ->
     exists account, shown = Some account /\
                     useWallet.chainId s = Some useWallet.SEPOLIA_chainId) /\
  (forall ethereum,
     let s' := useWallet.switchToSepolia ethereum s in
     useWallet.address s' = useWallet.address s /\
     useWallet.isConnected s' = useWallet.isConnected s /\
     useWallet.chainId s' = useWallet.chainId s /\
     useWallet.isSepolia s' = useWallet.isSepolia s).
Proof.
  intros Hreach. pose proof (reachable_consistent s Hreach) as Hs.
  split; [exact Hs|]. split.
  - intros ethereum shown. unfold WalletStatus.render.
    destruct (negb (useWallet.isMetaMaskInstalled ethereum)); [discriminate|].
    destruct (useWallet.isConnecting s); [discriminate|].
    destruct (useWallet.isConnected s) eqn:Hc; [|discriminate]. simpl.
    destruct (useWallet.isSepolia s) eqn:Hsep; [|discriminate]. simpl.
    intros [= <-]. destruct Hs as [H1 H2]. destruct (H2 Hc) as [account Ha].
    exists account. split; [exact Ha|]. apply H1. exact Hsep.
  - intros ethereum s'. subst s'. unfold useWallet.switchToSepolia.
    destruct ethereum as [eth|]; [|repeat split].
    destruct (useWallet.wallet_switchEthereumChain eth) as [|code msg]; [repeat split|].
    destruct (code =? 4902); [|repeat split].
    destruct (useWallet.wallet_addEthereumChain eth); repeat split.
Qed.

Lemma wallet_state_stays_consistent_witness :
  wallet_consistent sample_wallet_state /\
  WalletStatus.render (Some sample_ethereum) sample_wallet_state =
    WalletStatus.ConnectedBadge (Some "0xpatient"%string).
Proof.
  split; [|reflexivity].
  apply wallet_state_stays_consistent. unfold useWallet.reachable, sample_wallet_state.
  eapply rtc_r; [eapply rtc_r; [eapply rtc_once|]|].
  - apply (useWallet.step_connect (Some sample_ethereum)).
  - apply (useWallet.step_switchToSepolia (Some sample_ethereum)).
  - apply (useWallet.step_chainChanged "0xaa36a7").
Defined.

Example wallet_switch_alone_changes_nothing :
  WalletStatus.render (Some sample_ethereum)
    (useWallet.switchToSepolia (Some sample_ethereum)
       (useWallet.connect (Some sample_ethereum) useWallet.initialState)) =
  WalletStatus.SwitchButton.
Proof. reflexivity. Qed.

Example toString16_parseInt16 :
  useWallet.toString16 (useWallet.parseInt16 "0xaa36a7") = "aa36a7"%string /\
  useWallet.parseInt16 "0xaa36a7" = Some 11155111%N /\
  useWallet.parseInt16 "zz" = None /\
  useWallet.toString16 (Some 255%N) = "ff"%string.
Proof. repeat split. Qed.

(** ** Pinning (pinata.ts, api/storage/upload/route.ts) *)

Section PinningFacts.
Context {P : Platform}.

Lemma getAuthHeaders_token (env : pinning.Credentials) (jwt : string) :
  has_token env jwt ->
  pinning.getAuthHeaders env = Ok [("Authorization"%string, ("Bearer " +:+ jwt)%string)].
Proof.
  intros [Hjwt Htrim]. unfold pinning.getAuthHeaders. rewrite Hjwt. simpl.
  destruct (String.eqb_spec jwt "") as [->|_]; [contradiction Htrim; reflexivity|].
  destruct (trim jwt) as [|c t] eqn:E; [contradiction|]. reflexivity.
Qed.

Lemma getAuthHeaders_missing (env : pinning.Credentials) :
  (forall jwt, ~ has_token env jwt) -> ~ has_key_pair env ->
  pinning.getAuthHeaders env =
    Throw "Pinata credentials missing. Set PINATA_JWT or PINATA_API_KEY and PINATA_API_SECRET.".
Proof.
  intros Hno Hpair. unfold pinning.getAuthHeaders.
  assert ((negb (String.eqb (default "" (pinning.PINATA_JWT env)) "") &&
           (0 <? String.length (trim (default "" (pinning.PINATA_JWT env))))%nat)%bool = false)
    as ->.
  { destruct (pinning.PINATA_JWT env) as [jwt|] eqn:E; [|reflexivity]. simpl.
    destruct (trim jwt) as [|c t] eqn:Ht; [apply andb_false_r|].
    exfalso. apply (Hno jwt). split; [exact E|]. rewrite Ht. discriminate. }
  destruct (pinning.PINATA_API_KEY env) as [apiKey|] eqn:Ek; [|reflexivity].
  destruct (pinning.PINATA_API_SECRET env) as [apiSecret|] eqn:Es;
    [|simpl; rewrite andb_false_r; reflexivity].
  simpl. destruct (String.eqb_spec apiKey "") as [->|Hk]; [reflexivity|].
  destruct (String.eqb_spec apiSecret "") as [->|Hs]; [reflexivity|].
  exfalso. apply Hpair. exists apiKey, apiSecret. repeat split; assumption.
Qed.

Lemma uploadEncryptedFile_sent (env : pinning.Credentials)
    (api : pinning.PinRequest -> Reply) (ciphertext : pinning.Ciphertext)
    (metadata : pinning.UploadMetadata) :
  (pinning.uploadEncryptedFile env api ciphertext metadata).1 =
    match pinning.getAuthHeaders env with
    | Ok authHeaders => [pinning.pinRequest authHeaders ciphertext metadata]
    | Throw _ => []
    end.
Proof.
  unfold pinning.uploadEncryptedFile. destruct (pinning.getAuthHeaders env); reflexivity.
Qed.

(** The requests the route sends on are those of [uploadEncryptedFile]. *)
Lemma POST_sent (env : pinning.Credentials) (api : pinning.PinRequest -> Reply)
    (form : pinning.StorageForm) :
  (pinning.POST env api form).1 =
    match pinning.form_file form with
    | Some (upload_route.EntryFile file) =>
        match pinning.getAuthHeaders env with
        | Ok authHeaders =>
            [ pinning.pinRequest authHeaders
                (pinning.ABlob (file_bytes file) (file_type file))
                {| pinning.fileName :=
                     Some (pinning.or_default (pinning.form_fileName form) "encrypted.bin");
                   pinning.mimeType :=
                     Some (pinning.or_default (pinning.form_mimeType form)
                             "application/octet-stream");
                   pinning.sha256 := Some (pinning.or_default (pinning.form_sha256 form) "") |} ]
        | Throw _ => []
        end
    | _ => []
    end.
Proof.
  unfold pinning.POST. destruct (pinning.form_file form) as [[s|file]|]; try reflexivity.
  rewrite <- (uploadEncryptedFile_sent env api).
  destruct (pinning.uploadEncryptedFile env api _ _) as [sent [result|message]]; reflexivity.
Qed.

Lemma or_default_idem (a : option string) (b : string) :
  b <> ""%string ->
  pinning.or_default (Some (pinning.or_default a b)) b = pinning.or_default a b.
Proof.
  intros Hb. unfold pinning.or_default, or_else. simpl.
  destruct (String.eqb_spec (default "" a) "") as [E|E].
  - destruct (String.eqb_spec b ""); [contradiction|reflexivity].
  - destruct (String.eqb_spec (default "" a) ""); [contradiction|reflexivity].
Qed.

(** X19. What the storage route sends to the pinning API.  It sends at
    most one request, to the pinning URL, carrying the bytes of the
    uploaded file as they came and the file name of the form (or
    [encrypted.bin]).  With a token configured the request carries
    [Authorization: Bearer <token>] and nothing else, whether or not a
    key pair is configured as well.  With neither a token nor a complete
    key pair nothing is sent at all, and an upload is answered 500 with
    the "credentials missing" text as details. *)
Theorem pinning_sends_what_it_was_given (env : pinning.Credentials)
    (api : pinning.PinRequest -> Reply) (form : pinning.StorageForm) :
  let r := pinning.POST env api form in
  (forall request, request ∈ r.1 ->
     r.1 = [request] /\
     pinning.req_url request = pinning.PIN_FILE_URL /\
     pinning.req_filename request =
       pinning.or_default (pinning.form_fileName form) "encrypted.bin" /\
     exists file, pinning.form_file form = Some (upload_route.EntryFile file) /\
                  pinning.req_file request = file_bytes file) /\
  (forall jwt request,
     has_token env jwt -> request ∈ r.1 ->
     pinning.req_headers request = [("Authorization"%string, ("Bearer " +:+ jwt)%string)]) /\
  ((forall jwt, ~ has_token env jwt) -> ~ has_key_pair env ->
     r.1 = [] /\
     forall file, pinning.form_file form = Some (upload_route.EntryFile file) ->
       r.2 = (500, pinning.FailedJson "Upload failed"
                     "Pinata credentials missing. Set PINATA_JWT or PINATA_API_KEY and PINATA_API_SECRET.")).
Proof.
  intros r. subst r. rewrite POST_sent. split; [|split].
  - intros request Hin.
    destruct (pinning.form_file form) as [[s|file]|]; try (inversion Hin; fail).
    destruct (pinning.getAuthHeaders env) as [authHeaders|e]; [|inversion Hin].
    apply list_elem_of_singleton in Hin. subst request.
    split; [reflexivity|]. split; [reflexivity|]. split; [|eauto].
    cbn [pinning.pinRequest pinning.req_filename pinning.fileName].
    apply or_default_idem. discriminate.
  - intros jwt request Htoken Hin.
    rewrite (getAuthHeaders_token env jwt Htoken) in Hin.
    destruct (pinning.form_file form) as [[s|file]|]; try (inversion Hin; fail).
    apply list_elem_of_singleton in Hin. subst request. reflexivity.
  - intros Hno Hpair. pose proof (getAuthHeaders_missing env Hno Hpair) as Hmiss.
    rewrite Hmiss. split; [destruct (pinning.form_file form) as [[s|file]|]; reflexivity|].
    intros file Hfile. unfold pinning.POST, pinning.uploadEncryptedFile.
    rewrite Hfile, Hmiss. reflexivity.
Qed.

End PinningFacts.

Lemma pinning_sends_what_it_was_given_witness :
  let with_token := {| pinning.PINATA_JWT := Some "tok"%string;
                       pinning.PINATA_API_KEY := Some "key"%string;
                       pinning.PINATA_API_SECRET := Some "secret"%string |} in
  let without := {| pinning.PINATA_JWT := Some "  "%string;
                    pinning.PINATA_API_KEY := Some "key"%string;
                    pinning.PINATA_API_SECRET := None |} in
  (forall request,
     request ∈ (pinning.POST (P := reference.platform) with_token sample_api
                  sample_storage_form).1 ->
     pinning.req_headers request = [("Authorization"%string, "Bearer tok"%string)]) /\
  pinning.POST (P := reference.platform) without sample_api sample_storage_form =
    ([], (500, pinning.FailedJson "Upload failed"
                 "Pinata credentials missing. Set PINATA_JWT or PINATA_API_KEY and PINATA_API_SECRET.")).
Proof.
  intros with_token without. split.
  - intros request.
    apply (pinning_sends_what_it_was_given (P := reference.platform) with_token sample_api
             sample_storage_form).
    split; [reflexivity|discriminate].
  - destruct (pinning_sends_what_it_was_given (P := reference.platform) without sample_api
                sample_storage_form) as (_ & _ & Hnone).
    destruct Hnone as [Hsent Hanswer].
    + intros jwt [[= <-] Htrim]. apply Htrim. reflexivity.
    + intros (apiKey & apiSecret & _ & _ & Hs & _). discriminate.
    + rewrite (surjective_pairing (pinning.POST without sample_api sample_storage_form)).
      rewrite Hsent, (Hanswer sample_file eq_refl). reflexivity.
Defined.

Example getAuthHeaders_key_pair :
  pinning.getAuthHeaders
    {| pinning.PINATA_JWT := None; pinning.PINATA_API_KEY := Some "key"%string;
       pinning.PINATA_API_SECRET := Some "secret"%string |} =
  Ok [("pinata_api_key"%string, "key"%string); ("pinata_secret_api_key"%string, "secret"%string)].
Proof. reflexivity. Qed.

(** White space of any kind is trimmed, at both ends only. *)
Example trim_white_space :
  trim (NBSP +:+ " a" +:+ NBSP +:+ "b " +:+ BOM) = ("a" +:+ NBSP +:+ "b")%string /\
  trim (NBSP +:+ BOM) = ""%string.
Proof. split; vm_compute; reflexivity. Qed.

(** A token variable that holds a no-break space counts as missing. *)
Example getAuthHeaders_blank_token :
  pinning.getAuthHeaders
    {| pinning.PINATA_JWT := Some NBSP; pinning.PINATA_API_KEY := Some "key"%string;
       pinning.PINATA_API_SECRET := Some "secret"%string |} =
    Ok [("pinata_api_key"%string, "key"%string);
        ("pinata_secret_api_key"%string, "secret"%string)] /\
  pinning.getAuthHeaders
    {| pinning.PINATA_JWT := Some NBSP; pinning.PINATA_API_KEY := None;
       pinning.PINATA_API_SECRET := None |} =
    Throw "Pinata credentials missing. Set PINATA_JWT or PINATA_API_KEY and PINATA_API_SECRET.".
Proof. split; vm_compute; reflexivity. Qed.

Example uploadEncryptedFile_scope_hint :
  (pinning.uploadEncryptedFile (P := reference.platform)
     {| pinning.PINATA_JWT := Some "tok"%string; pinning.PINATA_API_KEY := None;
        pinning.PINATA_API_SECRET := None |}
     (fun _ => Responded {| res_status := 403; res_statusText := "Forbidden";
                            res_body := Ok (list_byte_of_string "NO_SCOPES_FOUND") |})
     (pinning.AUint8Array []) {| pinning.fileName := None; pinning.mimeType := None;
                                 pinning.sha256 := None |}).2 =
  Throw ("Pinata upload failed (403): NO_SCOPES_FOUND." +:+ pinning.scopeHint).
Proof. vm_compute. reflexivity. Qed.

(** ** From the patient's record to the doctor's page (firestore.ts, actions.ts) *)

Section DoctorReads.
Context {P : Platform}.

(** X20. A doctor reads what the patient wrote, if and only if
    connected.  Under the conditions of X7 (among them a date of the
    record and a clock reading of the server that a timestamp can hold),
    the patient's record is stored and [getPatientRecordForDoctor] then
    returns it to a doctor whose document lists the patient among its
    successful connections, field for field as it was written, and fails
    with the permission error for every other doctor. *)
Theorem connected_doctor_reads_the_record (w : World) (env : Env) (iv : bytes)
    (now later : Z) (newId patientId doctorId : string) (doctor : UserDocument)
    (recordData : firestore.RecordData) :
  aes_gcm_correct P -> base64_roundtrip P -> utf8_roundtrip P -> json_omits_undefined P ->
  key_configured P env ->
  length iv = 12%nat ->
  firestore.data_type recordData <> VUndefined ->
  Timestamp_range (firestore.data_date recordData) ->
  Timestamp_range now ->
  Forall (fun p => optional_json (snd p)) (own_props (firestore.sensitivePayload recordData)) ->
  users w !! doctorId = Some doctor ->
  exists w',
    firestore.addHealthRecord w env iv now newId patientId recordData = Ok (newId, w') /\
    actions.getPatientRecordForDoctor w' env later doctorId newId =
      if includes (successfulConnections doctor) patientId
      then ([], Ok (written_record now newId patientId recordData))
      else ([], Throw "You do not have permission to view this record.").
Proof.
  intros Haes Hb64 Hutf Hjson Hkey Hiv Htype Hdate Hnow Hfields Hdoc.
  destruct (sensitivePayload_blob env iv recordData Haes Hb64 Hutf Hjson Hkey Hiv Hfields)
    as (blob & Henc & Hdec).
  destruct (addHealthRecord_succeeds w env iv now newId patientId recordData Hkey Htype Hdate)
    as [w' Hadd].
  exists w'. split; [exact Hadd|].
  destruct (addHealthRecord_Ok _ _ _ _ _ _ _ _ _ Hadd) as (_ & blob' & Henc' & ->).
  rewrite Henc in Henc'. injection Henc' as <-.
  unfold actions.getPatientRecordForDoctor, firestore.getHealthRecord,
    firestore.getUserDocument.
  cbn [healthRecords users set_healthRecords]. rewrite lookup_insert_eq.
  rewrite (readRecord_newRecordDoc env now later newId patientId recordData blob
             Hdate Hnow Hdec).
  rewrite Hdoc. cbn [written_record rec_userId actions.includes_field].
  destruct (includes (successfulConnections doctor) patientId); reflexivity.
Qed.

(** X21. A payload that cannot be decrypted is never overwritten.  For
    a record whose stored [encryptedData] fails to decrypt,
    [addDiagnosisToRecord] of firestore.ts answers "Failed to add
    diagnosis." and leaves the stores as they were: the unreadable blob
    is not replaced by a payload holding the diagnosis alone.  When the
    date fields of the record convert, a connected doctor is shown the
    blank record (C4), and [addDiagnosisToRecord] of actions.ts gives
    the same answer, with the stores as they were. *)
Theorem unreadable_record_is_not_overwritten (w : World) (env : Env) (iv : bytes) (now : Z)
    (doctorId recordId patientId : string) (doctor : UserDocument) (data : Doc)
    (e : string) (diagnosisData : jsval) :
  users w !! doctorId = Some doctor ->
  includes (successfulConnections doctor) patientId = true ->
  healthRecords w !! recordId = Some data ->
  data !! "userId" = Some (FPlain (VStr patientId)) ->
  field_truthy (data !! "encryptedData") = true ->
  decryptObject env (as_EncryptedBlob (data !! "encryptedData")) = Throw e ->
  let entry := {| log_text := "Decryption failed for record";
                  log_subject := Some recordId; log_error := e |} in
  firestore.addDiagnosisToRecord w env iv now recordId diagnosisData =
    (w, failed "Failed to add diagnosis.") /\
  forall meta,
    firestore.convertRecordTimestamps now data = Ok meta ->
    actions.addDiagnosisToRecord w env iv now doctorId recordId diagnosisData =
      ([entry], Ok (w, failed "Failed to add diagnosis.")) /\
    exists r,
      actions.getPatientRecordForDoctor w env now doctorId recordId = ([entry], Ok r) /\
      rec_title r = VStr "" /\ rec_content r = VStr "" /\ rec_diagnosis r = VUndefined.
Proof.
  intros Hdoc Hconn Hrec Hown Htruthy Hfail entry.
  assert (forall diagnosis,
            firestore.addDiagnosisToRecord w env iv now recordId diagnosis =
              (w, failed "Failed to add diagnosis.")) as Hadd.
  { intros diagnosis. unfold firestore.addDiagnosisToRecord.
    rewrite Hrec, Htruthy, Hfail. reflexivity. }
  split; [apply Hadd|]. intros meta Hmeta.
  assert (firestore.getHealthRecord w env now recordId =
            ([entry], firestore.buildRecord recordId meta (VObj [])
                      ≫= fun r => Ok (Some r))) as Hget.
  { unfold firestore.getHealthRecord, firestore.readRecord, firestore.decryptedPayload.
    rewrite Hrec, Hmeta, Htruthy, Hfail. rewrite buildRecord_empty. reflexivity. }
  rewrite buildRecord_empty in Hget. cbn [mbind Result_bind] in Hget.
  pose proof (proj1 (convertRecordTimestamps_Ok _ _ _ Hmeta)) as Hu.
  split.
  - unfold actions.addDiagnosisToRecord, firestore.getUserDocument.
    rewrite Hget, Hdoc. cbn [rec_userId]. rewrite Hu, Hown.
    cbn [actions.includes_field]. rewrite Hconn. cbn [negb].
    rewrite Hadd. reflexivity.
  - eexists. split.
    + unfold actions.getPatientRecordForDoctor, firestore.getUserDocument.
      rewrite Hget, Hdoc. cbn [rec_userId]. rewrite Hu, Hown.
      cbn [actions.includes_field]. rewrite Hconn. reflexivity.
    + repeat split.
Qed.

End DoctorReads.

Lemma connected_doctor_reads_the_record_witness :
  exists w',
    firestore.addHealthRecord (P := reference_omitting) sample_connected_world reference.env1
      reference.iv1 1700000001000 "rec9" "pat1" sample_data = Ok ("rec9"%string, w') /\
    actions.getPatientRecordForDoctor (P := reference_omitting) w' reference.env1 0
      "doc1" "rec9" =
      ([], Ok (written_record (P := reference_omitting) 1700000001000 "rec9" "pat1"
                 sample_data)).
Proof.
  apply (connected_doctor_reads_the_record (P := reference_omitting) sample_connected_world
           reference.env1 reference.iv1 1700000001000 0 "rec9" "pat1" "doc1"
           (with_successful (arrayUnion "pat1") sample_doctor) sample_data).
  - exact reference_omitting_aes_gcm_correct.
  - exact reference_omitting_base64_roundtrip.
  - exact reference_omitting_utf8_roundtrip.
  - exact reference_omitting_json.
  - exact reference_omitting_key_configured.
  - reflexivity.
  - discriminate.
  - split; vm_compute; [discriminate|reflexivity].
  - split; vm_compute; [discriminate|reflexivity].
  - simpl. repeat constructor; first [left; reflexivity|right; exact I].
  - reflexivity.
Defined.

(** The record of [sample_connected_world] read under another key. *)
Lemma unreadable_record_is_not_overwritten_witness :
  let entry := {| log_text := "Decryption failed for record";
                  log_subject := Some "rec1"%string; log_error := reference.seal_error |} in
  firestore.addDiagnosisToRecord (P := reference.platform) sample_connected_world
    reference.env2 reference.iv1 0 "rec1" sample_diagnosis =
    (sample_connected_world, failed "Failed to add diagnosis.") /\
  actions.addDiagnosisToRecord (P := reference.platform) sample_connected_world
    reference.env2 reference.iv1 0 "doc1" "rec1" sample_diagnosis =
    ([entry], Ok (sample_connected_world, failed "Failed to add diagnosis.")) /\
  exists r,
    actions.getPatientRecordForDoctor (P := reference.platform) sample_connected_world
      reference.env2 0 "doc1" "rec1" = ([entry], Ok r) /\
    rec_title r = VStr "" /\ rec_content r = VStr "" /\ rec_diagnosis r = VUndefined.
Proof.
  intros entry.
  destruct (firestore.convertRecordTimestamps (P := reference.platform) 0
              (firestore.newRecordDoc 1700000001000 "pat1" sample_data sample_json_blob))
    as [meta|e] eqn:Hmeta; [|vm_compute in Hmeta; discriminate].
  destruct (unreadable_record_is_not_overwritten (P := reference.platform)
              sample_connected_world reference.env2 reference.iv1 0 "doc1" "rec1" "pat1"
              (with_successful (arrayUnion "pat1") sample_doctor)
              (firestore.newRecordDoc 1700000001000 "pat1" sample_data sample_json_blob)
              reference.seal_error sample_diagnosis) as [Hfirestore Hactions].
  - reflexivity.
  - reflexivity.
  - reflexivity.
  - reflexivity.
  - reflexivity.
  - vm_compute. reflexivity.
  - split; [exact Hfirestore|]. exact (Hactions meta Hmeta).
Defined.

(** ** The file name shown for an attachment *)

Lemma split_slash_plain (s : string) :
  str_includes "/" s = false -> record_pages.split_slash s = [s].
Proof.
  induction s as [|c s IH]; [reflexivity|]. intros H.
  cbn [str_includes String.prefix] in H. cbn [record_pages.split_slash].
  destruct (ascii_dec "/"%char c) as [<-|Hne].
  - destruct s; discriminate.
  - destruct (Ascii.eqb_spec c "/"%char) as [->|_]; [contradiction|].
    rewrite (IH H). reflexivity.
Qed.

Lemma split_slash_last (directory name : string) :
  str_includes "/" name = false ->
  exists segment segments,
    record_pages.split_slash (directory +:+ "/" +:+ name) = segment :: segments ++ [name].
Proof.
  intros Hname. induction directory as [|c directory IH].
  - exists ""%string, []. change ("" +:+ "/" +:+ name)%string with (String "/" name).
    cbn [record_pages.split_slash]. rewrite (split_slash_plain name Hname). reflexivity.
  - destruct IH as (segment & segments & IH).
    change (String c directory +:+ "/" +:+ name)%string
      with (String c (directory +:+ "/" +:+ name)).
    cbn [record_pages.split_slash]. rewrite IH.
    destruct (Ascii.eqb c "/").
    + exists ""%string, (segment :: segments). reflexivity.
    + exists (String c segment), segments. reflexivity.
Qed.

(** X22. The pages show an attachment under the name it was stored
    with.  For the URL that the upload endpoint returns, [getFileName]
    of the doctor's page and [url.split('/').pop()] of the timeline both
    give the file name the endpoint chose, never the "Attachment"
    default: the name holds no slash and is not empty. *)
Theorem pages_show_the_stored_name (disk disk' : Disk) (form : upload_route.UploadForm)
    (res : upload_route.HttpResponse) (url filename originalName : string) :
  upload_route.POST disk form = (disk', res) ->
  upload_route.http_json res = upload_route.UploadedJson url filename originalName ->
  record_pages.getFileName url = filename /\
  record_pages.lastSegment url = Some filename.
Proof.
  intros HP Hjson.
  assert (str_includes "/" filename = false /\ filename <> ""%string /\
          exists userId, url = ("/uploads/" +:+ userId +:+ "/" +:+ filename)%string)
    as (Hslash & Hne & userId & ->).
  { destruct (POST_filename _ _ _ _ _ _ _ HP Hjson) as [Hshape|[k Hshape]];
      destruct (POST_uploaded _ _ _ _ _ _ _ HP Hjson)
        as (userId & file & _ & _ & _ & Hurl & Hfresh & _);
      (split; [|split; [|eauto]]).
    - apply no_slash. rewrite Hshape. apply safeFilename_chars.
    - intros ->. apply Hfresh. unfold upload_route.taken. set_solver.
    - apply no_slash. rewrite Hshape.
      pose proof (safeFilename_chars originalName) as Hsafe.
      unfold upload_route.basename, upload_route.extname.
      rewrite !all_chars_append, pretty_nat_digits.
      rewrite (all_chars_substring _ _ _ _ Hsafe).
      destruct (upload_route.last_dot_from 0 _) as [[|d]|]; try reflexivity.
      destruct (String.eqb _ ".."); [reflexivity|].
      rewrite (all_chars_substring _ _ _ _ Hsafe). reflexivity.
    - intros ->. apply Hfresh. unfold upload_route.taken. set_solver. }
  destruct (split_slash_last ("/uploads/" +:+ userId) filename Hslash)
    as (segment & segments & Hsplit).
  rewrite str_append_assoc in Hsplit.
  unfold record_pages.getFileName, record_pages.lastSegment. rewrite Hsplit.
  rewrite app_comm_cons, list.last_snoc. split; [|reflexivity].
  cbv zeta. rewrite length_app, Nat.add_sub. rewrite list_lookup_middle by reflexivity.
  simpl. unfold or_else. destruct (String.eqb_spec filename ""); [contradiction|reflexivity].
Qed.

Lemma pages_show_the_stored_name_witness :
  record_pages.getFileName "/uploads/pat1/.._evil_name.pdf" = ".._evil_name.pdf"%string /\
  record_pages.lastSegment "/uploads/pat1/.._evil_name.pdf" = Some ".._evil_name.pdf"%string.
Proof.
  exact (pages_show_the_stored_name sample_disk _ sample_hostile_form _
           "/uploads/pat1/.._evil_name.pdf" ".._evil_name.pdf" "../evil name.pdf"
           POST_hostile_name eq_refl).
Defined.

Example getFileName_default :
  record_pages.getFileName "/uploads/pat1/" = "Attachment"%string /\
  record_pages.lastSegment "/uploads/pat1/" = Some ""%string.
Proof. split; reflexivity. Qed.
